(** * Dooray wiki export tool: the recursive backup traversal

    A shallow embedding of [dooray_wiki_backup.py]: the page counter, the
    directory naming, the inline-image rewriter, the page writer and the
    recursive walk over the page tree, with the properties the specification
    states about them. *)

From Stdlib Require Import ZArith NArith Ascii String List Lia Bool.
From Stdlib Require Import DecimalN DecimalPos.
From stdpp Require Import base option list gmap.
From Equations Require Import Equations.

Local Open Scope Z_scope.

(** * Text

    A Python [str] is a sequence of Unicode code points.  A character is its
    code point; literals of the source are written as UTF-8 string literals
    and decoded. *)

Abbreviation str := (list N) (only parsing).

Fixpoint utf8_decode (bs : list N) : list N :=
  match bs with
  | [] => []
  | b :: r =>
      if (b <? 128)%N then b :: utf8_decode r
      else if (b <? 224)%N then
        match r with
        | b1 :: r1 => ((b - 192) * 64 + (b1 - 128))%N :: utf8_decode r1
        | _ => []
        end
      else if (b <? 240)%N then
        match r with
        | b1 :: b2 :: r2 =>
            ((b - 224) * 4096 + (b1 - 128) * 64 + (b2 - 128))%N :: utf8_decode r2
        | _ => []
        end
      else
        match r with
        | b1 :: b2 :: b3 :: r3 =>
            ((b - 240) * 262144 + (b1 - 128) * 4096 + (b2 - 128) * 64 + (b3 - 128))%N
              :: utf8_decode r3
        | _ => []
        end
  end.

Definition U (s : string) : str :=
  utf8_decode (List.map N_of_ascii (list_ascii_of_string s)).

(** ** Character classes

    For code points below 128 the classes are fixed.  Above, they come from
    the Unicode database of the interpreter, which is a parameter of the
    development. *)

Record UnicodeDb := {
  uni_alpha : N -> bool;    (* str.isalpha *)
  uni_decimal : N -> bool;  (* str.isdecimal, category Nd: what \d matches *)
  uni_digit : N -> bool;    (* str.isdigit *)
  uni_numeric : N -> bool;  (* str.isnumeric *)
  uni_space : N -> bool     (* str.isspace *)
}.

Definition between (lo hi c : N) : bool := ((lo <=? c) && (c <=? hi))%N.

Definition ascii_alpha (c : N) : bool := between 65 90 c || between 97 122 c.
Definition ascii_decimal (c : N) : bool := between 48 57 c.
Definition ascii_space (c : N) : bool :=
  between 9 13 c || between 28 31 c || (c =? 32)%N.

Section Chars.
Context (db : UnicodeDb).

Definition isalpha (c : N) : bool :=
  if (c <? 128)%N then ascii_alpha c else uni_alpha db c.
Definition isdecimal (c : N) : bool :=
  if (c <? 128)%N then ascii_decimal c else uni_decimal db c.
Definition isdigit (c : N) : bool :=
  if (c <? 128)%N then ascii_decimal c else uni_digit db c.
Definition isnumeric (c : N) : bool :=
  if (c <? 128)%N then ascii_decimal c else uni_numeric db c.
Definition isspace (c : N) : bool :=
  if (c <? 128)%N then ascii_space c else uni_space db c.

(* c.isalnum() *)
Definition isalnum (c : N) : bool :=
  isalpha c || isdecimal c || isdigit c || isnumeric c.
End Chars.

(** A database for the examples: Hangul syllables are letters, the
    fullwidth digits are decimal digits, the ideographic space is a space. *)
Definition sample_db : UnicodeDb := {|
  uni_alpha := between 44032 55203;
  uni_decimal := between 65296 65305;
  uni_digit := between 65296 65305;
  uni_numeric := between 65296 65305;
  uni_space := fun c => (c =? 12288)%N
|}.

(** * PageCounter *)

Record PageCounter := {
  count : Z;
  limit : Z;
  level_counters : gmap (list N) Z   (* defaultdict(int) *)
}.

Definition PageCounter_init (lim : Z) : PageCounter :=
  {| count := 0; limit := lim; level_counters := ∅ |}.

Definition increment (pc : PageCounter) : bool * PageCounter :=
  let pc' := {| count := count pc + 1; limit := limit pc;
                level_counters := level_counters pc |} in
  ((limit pc' =? -1) || (count pc' <=? limit pc'), pc').

Definition get_next_number (parent_id : str) (pc : PageCounter) : Z * PageCounter :=
  let n := default 0 (level_counters pc !! parent_id) + 1 in
  (n, {| count := count pc; limit := limit pc;
         level_counters := <[parent_id := n]> (level_counters pc) |}).

(** A history of calls on one counter, and what each call returned. *)
Inductive call :=
| Increment
| NextNumber (parent_id : list N).

Inductive answer :=
| Advanced (ok : bool)
| Number (parent_id : list N) (n : Z).

Fixpoint run_calls (cs : list call) (pc : PageCounter) : list answer * PageCounter :=
  match cs with
  | [] => ([], pc)
  | Increment :: cs' =>
      let '(b, pc1) := increment pc in
      let '(rs, pc2) := run_calls cs' pc1 in
      (Advanced b :: rs, pc2)
  | NextNumber k :: cs' =>
      let '(n, pc1) := get_next_number k pc in
      let '(rs, pc2) := run_calls cs' pc1 in
      (Number k n :: rs, pc2)
  end.

Fixpoint advances (rs : list answer) : list bool :=
  match rs with
  | [] => []
  | Advanced b :: rs' => b :: advances rs'
  | Number _ _ :: rs' => advances rs'
  end.

Fixpoint numbers_of (k : str) (rs : list answer) : list Z :=
  match rs with
  | [] => []
  | Number k' n :: rs' =>
      if decide (k' = k) then n :: numbers_of k rs' else numbers_of k rs'
  | Advanced _ :: rs' => numbers_of k rs'
  end.

Fixpoint asked (k : str) (cs : list call) : nat :=
  match cs with
  | [] => 0%nat
  | NextNumber k' :: cs' => if decide (k' = k) then S (asked k cs') else asked k cs'
  | Increment :: cs' => asked k cs'
  end.

(** * String helpers of the interpreter *)

(** [str(n)] for a natural number, through the decimal numerals of the
    standard library. *)
Fixpoint uint_chars (d : Decimal.uint) : list N :=
  match d with
  | Decimal.Nil => []
  | Decimal.D0 r => 48%N :: uint_chars r
  | Decimal.D1 r => 49%N :: uint_chars r
  | Decimal.D2 r => 50%N :: uint_chars r
  | Decimal.D3 r => 51%N :: uint_chars r
  | Decimal.D4 r => 52%N :: uint_chars r
  | Decimal.D5 r => 53%N :: uint_chars r
  | Decimal.D6 r => 54%N :: uint_chars r
  | Decimal.D7 r => 55%N :: uint_chars r
  | Decimal.D8 r => 56%N :: uint_chars r
  | Decimal.D9 r => 57%N :: uint_chars r
  end.

Definition str_of_N (n : N) : str := uint_chars (N.to_uint n).

(** [int(s)] for a string of ASCII digits. *)
Fixpoint chars_uint (s : list N) : Decimal.uint :=
  match s with
  | [] => Decimal.Nil
  | c :: r =>
      let d := chars_uint r in
      match (c - 48)%N with
      | 0%N => Decimal.D0 d
      | 1%N => Decimal.D1 d
      | 2%N => Decimal.D2 d
      | 3%N => Decimal.D3 d
      | 4%N => Decimal.D4 d
      | 5%N => Decimal.D5 d
      | 6%N => Decimal.D6 d
      | 7%N => Decimal.D7 d
      | 8%N => Decimal.D8 d
      | _ => Decimal.D9 d
      end
  end.

Definition int_of_digits (s : str) : Z := Z.of_N (N.of_uint (chars_uint s)).

(* f"{z}" *)
Definition str_of_Z (z : Z) : str :=
  if z <? 0 then 45%N :: str_of_N (Z.to_N (- z)) else str_of_N (Z.to_N z).

(* f"{z:02d}": sign-aware zero padding to a total width of two *)
Definition format_02d (z : Z) : str :=
  if z <? 0 then 45%N :: str_of_N (Z.to_N (- z))
  else
    let ds := str_of_N (Z.to_N z) in
    if (length ds <? 2)%nat then 48%N :: ds else ds.

(* s.startswith(p), with what follows the prefix *)
Fixpoint after_prefix (p s : list N) : option (list N) :=
  match p, s with
  | [], _ => Some s
  | a :: p', b :: s' => if (a =? b)%N then after_prefix p' s' else None
  | _ :: _, [] => None
  end.

(* the longest prefix of characters satisfying f, and the rest *)
Fixpoint span (f : N -> bool) (s : list N) : list N * list N :=
  match s with
  | [] => ([], [])
  | c :: s' =>
      if f c then let '(a, b) := span f s' in (c :: a, b) else ([], s)
  end.

(* s.rfind(c): the last index of c, or -1 *)
Fixpoint rfind (c : N) (p : list N) : Z :=
  match p with
  | [] => -1
  | x :: r =>
      let k := rfind c r in
      if 0 <=? k then k + 1 else if (x =? c)%N then 0 else -1
  end.

Definition slice (p : list N) (lo hi : Z) : list N :=
  take (Z.to_nat hi - Z.to_nat lo) (drop (Z.to_nat lo) p).

(** genericpath._splitext, as os.path.splitext calls it with the
    separators of the platform. *)
Definition _splitext (p : str) (sep : N) (altsep : option N) (extsep : N)
  : list N * list N :=
  let sepIndex := rfind sep p in
  let sepIndex :=
    match altsep with
    | Some a => Z.max sepIndex (rfind a p)
    | None => sepIndex
    end in
  let dotIndex := rfind extsep p in
  if sepIndex <? dotIndex then
    (* skip all leading dots *)
    if existsb (fun c => negb (c =? extsep)%N) (slice p (sepIndex + 1) dotIndex)
    then (take (Z.to_nat dotIndex) p, drop (Z.to_nat dotIndex) p)
    else (p, [])
  else (p, []).

(* posixpath.join(a, b) *)
Definition posixpath_join (a b : str) : str :=
  match b with
  | 47%N :: _ => b
  | _ =>
      match last a with
      | None => a ++ b
      | Some c => if (c =? 47)%N then a ++ b else a ++ 47%N :: b
      end
  end.

(** The platform: the Unicode database, which [os.path] is in use
    (posixpath or ntpath) and its [join]. *)
Inductive os_name := Posix | Nt.

Record Platform := {
  unicode : UnicodeDb;
  os : os_name;
  os_path_join : list N -> list N -> list N
}.

(* os.sep and os.altsep *)
Definition os_sep (pf : Platform) : N :=
  match os pf with Posix => 47%N | Nt => 92%N end.
Definition os_altsep (pf : Platform) : option N :=
  match os pf with Posix => None | Nt => Some 47%N end.

Definition posix (db : UnicodeDb) : Platform :=
  {| unicode := db; os := Posix; os_path_join := posixpath_join |}.

(** * Literals of the source *)

Definition lit_bang_bracket : str := Eval cbv in U "![".
Definition lit_wikis : str := Eval cbv in U "](/wikis/".
Definition lit_files : str := Eval cbv in U "/files/".
Definition lit_close : str := Eval cbv in U ")".
Definition lit_image_ : str := Eval cbv in U "image_".
Definition lit_png : str := Eval cbv in U ".png".
Definition lit_images_link : str := Eval cbv in U "](images/".
Definition lit_download_failed : str := Eval cbv in U "] (다운로드 실패 - Wiki ID: ".
Definition lit_processing_error : str := Eval cbv in U "] (처리 오류 - Wiki ID: ".
Definition lit_file_id : str := Eval cbv in U ", File ID: ".
Definition lit_attachments_heading : str :=
  Eval cbv in (10%N :: 10%N :: U "## 첨부 파일" ++ [10%N]).
Definition lit_attachments_link : str := Eval cbv in U "](attachments/".
Definition lit_size : str := Eval cbv in U " (크기: ".
Definition lit_bytes : str := Eval cbv in (U " bytes)" ++ [10%N]).
Definition lit_att_download_failed : str := Eval cbv in U " (다운로드 실패)".
Definition lit_att_processing_error : str := Eval cbv in U " (처리 오류)".
Definition lit_root : str := Eval cbv in U "root".

(** * The inline-image pattern

    [!\[(.*?)\]\(/wikis/(\d+)/files/(\d+)\)], matched the way the
    backtracking engine of [re] does: the lazy group tries the shortest
    alt text first and grows it by one character that is not a newline;
    the digit groups are greedy, and giving back a digit never helps since
    a digit cannot start [/files/] or be [)]. *)

Section Pattern.
Context (pf : Platform).

Definition digit (c : N) : bool := isdecimal (unicode pf) c.

(* what follows the alt text: ](/wikis/(\d+)/files/(\d+)\) *)
Definition match_tail (s : str) : option (list N * list N * list N) :=
  match after_prefix lit_wikis s with
  | None => None
  | Some s1 =>
      let '(w, s2) := span digit s1 in
      match w with
      | [] => None
      | _ :: _ =>
          match after_prefix lit_files s2 with
          | None => None
          | Some s3 =>
              let '(f, s4) := span digit s3 in
              match f with
              | [] => None
              | _ :: _ =>
                  match after_prefix lit_close s4 with
                  | None => None
                  | Some rest => Some (w, f, rest)
                  end
              end
          end
      end
  end.

(* (.*?) and the rest of the pattern *)
Fixpoint match_alt (s : str) : option (list N * list N * list N * list N) :=
  match match_tail s with
  | Some (w, f, rest) => Some ([], w, f, rest)
  | None =>
      match s with
      | [] => None
      | c :: s' =>
          if (c =? 10)%N then None
          else
            match match_alt s' with
            | Some (alt, w, f, rest) => Some (c :: alt, w, f, rest)
            | None => None
            end
      end
  end.

(* pattern.match(s): alt text, wiki id, file id and what follows the match *)
Definition match_here (s : str) : option (list N * list N * list N * list N) :=
  match after_prefix lit_bang_bracket s with
  | Some s' => match_alt s'
  | None => None
  end.

(* the text of a match *)
Definition markup (alt w f : str) : str :=
  lit_bang_bracket ++ alt ++ lit_wikis ++ w ++ lit_files ++ f ++ lit_close.

Lemma after_prefix_app (p s r : list N) :
  after_prefix p s = Some r -> s = p ++ r.
Proof.
  revert s. induction p as [|a p IH]; intros [|b s] H; simpl in H;
    try discriminate; try (injection H as <-; reflexivity).
  destruct (N.eqb_spec a b) as [->|]; [|discriminate].
  simpl. f_equal. apply IH, H.
Qed.

Lemma span_app (f : N -> bool) (s a b : list N) :
  span f s = (a, b) -> s = a ++ b.
Proof.
  revert a b. induction s as [|c s IH]; intros a b H; simpl in H.
  - injection H as <- <-. reflexivity.
  - destruct (f c).
    + destruct (span f s) as [a' b']. injection H as <- <-.
      simpl. f_equal. apply IH. reflexivity.
    + injection H as <- <-. reflexivity.
Qed.

Lemma match_tail_app (s w f rest : list N) :
  match_tail s = Some (w, f, rest) ->
  s = lit_wikis ++ w ++ lit_files ++ f ++ lit_close ++ rest.
Proof.
  unfold match_tail. intros H.
  destruct (after_prefix lit_wikis s) as [s1|] eqn:E1; [|discriminate].
  destruct (span digit s1) as [w' s2] eqn:E2.
  destruct w' as [|d w']; [discriminate|].
  destruct (after_prefix lit_files s2) as [s3|] eqn:E3; [|discriminate].
  destruct (span digit s3) as [f' s4] eqn:E4.
  destruct f' as [|d' f']; [discriminate|].
  destruct (after_prefix lit_close s4) as [r|] eqn:E5; [|discriminate].
  injection H as <- <- <-.
  apply after_prefix_app in E1, E3, E5. apply span_app in E2, E4.
  subst. reflexivity.
Qed.

Lemma match_alt_eq (s : list N) :
  match_alt s =
  match match_tail s with
  | Some (w, f, rest) => Some ([], w, f, rest)
  | None =>
      match s with
      | [] => None
      | c :: s' =>
          if (c =? 10)%N then None
          else
            match match_alt s' with
            | Some (alt, w, f, rest) => Some (c :: alt, w, f, rest)
            | None => None
            end
      end
  end.
Proof. destruct s; reflexivity. Qed.

Lemma match_alt_app (s alt w f rest : list N) :
  match_alt s = Some (alt, w, f, rest) ->
  s = alt ++ lit_wikis ++ w ++ lit_files ++ f ++ lit_close ++ rest.
Proof.
  revert alt. induction s as [|c s IH]; intros alt H; rewrite match_alt_eq in H.
  - destruct (match_tail []) as [[[w' f'] r']|] eqn:E; [|discriminate].
    injection H as <- <- <- <-. apply match_tail_app in E. exact E.
  - destruct (match_tail (c :: s)) as [[[w' f'] r']|] eqn:E.
    + injection H as <- <- <- <-. apply match_tail_app in E. exact E.
    + destruct (c =? 10)%N; [discriminate|].
      destruct (match_alt s) as [[[[alt' w'] f'] r']|] eqn:E'; [|discriminate].
      injection H as <- <- <- <-. simpl. f_equal. apply IH. reflexivity.
Qed.

Lemma match_here_app (s alt w f rest : list N) :
  match_here s = Some (alt, w, f, rest) -> s = markup alt w f ++ rest.
Proof.
  unfold match_here, markup. intros H.
  destruct (after_prefix lit_bang_bracket s) as [s'|] eqn:E; [|discriminate].
  apply after_prefix_app in E. apply match_alt_app in H. subst.
  rewrite <- !app_assoc. reflexivity.
Qed.

Lemma match_here_shorter (s alt w f rest : list N) :
  match_here s = Some (alt, w, f, rest) -> (length rest < length s)%nat.
Proof.
  intros H. apply match_here_app in H. subst.
  unfold markup. rewrite !length_app. simpl. lia.
Qed.

(** What [re.sub] sees of the text, from left to right: the characters
    outside the matches, and the matches with their three groups. *)
Inductive token :=
| Lit (c : N)
| Img (alt wiki_id file_id : list N).

Definition inspect {A : Type} (x : A) : {y : A | x = y} := exist _ x eq_refl.

Equations? scan (s : list N) : list token by wf (length s) lt :=
  scan [] := [];
  scan (c :: s') with inspect (match_here (c :: s')) := {
    | exist _ (Some (alt, w, f, rest)) E => Img alt w f :: scan rest;
    | exist _ None _ => Lit c :: scan s' }.
Proof.
  apply match_here_shorter in E. simpl in E. exact E.
Qed.

Lemma scan_cases (s : list N) :
  scan s =
  match s with
  | [] => []
  | c :: s' =>
      match match_here s with
      | Some (alt, w, f, rest) => Img alt w f :: scan rest
      | None => Lit c :: scan s'
      end
  end.
Proof.
  apply (scan_elim (fun s r =>
    r = match s with
        | [] => []
        | c :: s' =>
            match match_here s with
            | Some (alt, w, f, rest) => Img alt w f :: scan rest
            | None => Lit c :: scan s'
            end
        end)).
  - reflexivity.
  - intros c s' alt w f rest E _ _. rewrite E. reflexivity.
  - intros c s' E _ _. rewrite E. reflexivity.
Qed.
End Pattern.


(** * Pages, files and the world around a run *)

Record Page := {
  page_id : list N;
  page_subject : list N;
  page_parent : option (list N)
}.

Record FileDesc := {
  file_id : list N;
  file_name : list N;
  file_size : Z
}.

(* the "result" of GET /wikis/{wiki_id}/pages/{page_id} *)
Record PageContent := {
  body_content : list N;
  body_mimeType : list N;
  createdAt : list N;
  content_files : list FileDesc
}.

(* the dict written to metadata.json *)
Record Metadata := {
  meta_id : list N;
  meta_subject : list N;
  meta_mimeType : list N;
  meta_createdAt : list N;
  meta_parentPageId : option (list N);
  meta_attachments : list FileDesc
}.

Inductive file_data :=
| Text (s : list N)
| Json (m : Metadata)
| Blob (file : list N).

(** What the run does to the outside, in the order it does it. *)
Inductive event :=
| ApiGetPages (parentPageId : option (list N))
| ApiGetPageContent (page : list N)
| MakeDirs (path : list N)
| DownloadFile (file name : list N) (is_inline : bool)
| WriteFile (path : list N) (data : file_data)
| LogTotal (n : Z).

Inductive exn :=
| HTTPError (status : Z)
| NoRootPage
| DownloaderError.

Inductive response (A : Type) :=
| Reply (a : A)
| Failure (e : exn).
Arguments Reply {A} a.
Arguments Failure {A} e.

Inductive download_result :=
| Fetched     (* a path is returned and the file is there *)
| NoFile      (* None is returned, or the file is not there *)
| Crashed.    (* an exception leaves download_file or the move after it *)

(** The collaborators: the API server, the clock and the browser session
    behind the downloader, and the directory the script is installed in.
    The clock and the downloader answer by the number of the call. *)
Record Env := {
  srv_pages : option (list N) -> response (list Page);
  srv_page_content : list N -> response PageContent;
  strftime_now : nat -> list N;
  browser : nat -> download_result;
  script_dir : list N                (* SCRIPT_DIR *)
}.

Record Manager := {
  page_limit : Z;
  project_code : list N;
  backup_dir : list N
}.

Record Run := {
  page_counter : PageCounter;
  downloader : bool;                 (* self.downloader is not None *)
  dirs : gset (list N);
  files : gmap (list N) file_data;
  trace : list event;
  clock : nat;                       (* readings of the clock so far *)
  fetches : nat                      (* calls of download_file so far *)
}.

Definition start (mgr : Manager) : Run :=
  {| page_counter := PageCounter_init (page_limit mgr);
     downloader := false;
     dirs := {[ backup_dir mgr ]};
     files := ∅;
     trace := [];
     clock := 0;
     fetches := 0 |}.

(** * Effects: state, exceptions, and fuel for the recursion *)

Inductive outcome (A : Type) :=
| Ok (a : A)
| Raise (e : exn)
| OutOfFuel.
Arguments Ok {A} a.
Arguments Raise {A} e.
Arguments OutOfFuel {A}.

Definition M (A : Type) : Type := Run -> outcome A * Run.

Definition ret {A} (a : A) : M A := fun s => (Ok a, s).

Definition bind {A B} (m : M A) (k : A -> M B) : M B :=
  fun s =>
    match m s with
    | (Ok a, s') => k a s'
    | (Raise e, s') => (Raise e, s')
    | (OutOfFuel, s') => (OutOfFuel, s')
    end.

Definition raise {A} (e : exn) : M A := fun s => (Raise e, s).

(* try: m  except Exception as e: h e *)
Definition try_except {A} (m : M A) (h : exn -> M A) : M A :=
  fun s =>
    match m s with
    | (Raise e, s') => h e s'
    | r => r
    end.

Notation "'let*' x ':=' c1 'in' c2" := (bind c1 (fun x => c2))
  (at level 10, x name, c1 at level 100, c2 at level 200).

Definition emit (e : event) : M unit :=
  fun s =>
    (Ok tt,
     {| page_counter := page_counter s; downloader := downloader s;
        dirs := dirs s; files := files s; trace := trace s ++ [e];
        clock := clock s; fetches := fetches s |}).

(** The file system is a set of directories and a map from paths to what
    was written there; making a directory and writing a file always succeed.
    What can fail are the calls to the server and the downloads. *)

(* os.makedirs(path, exist_ok=True) *)
Definition makedirs (path : list N) : M unit :=
  fun s =>
    (Ok tt,
     {| page_counter := page_counter s; downloader := downloader s;
        dirs := {[ path ]} ∪ dirs s; files := files s;
        trace := trace s ++ [MakeDirs path];
        clock := clock s; fetches := fetches s |}).

(* with open(path, "w") as f: f.write(...) *)
Definition write_file (path : list N) (data : file_data) : M unit :=
  fun s =>
    (Ok tt,
     {| page_counter := page_counter s; downloader := downloader s;
        dirs := dirs s; files := <[ path := data ]> (files s);
        trace := trace s ++ [WriteFile path data];
        clock := clock s; fetches := fetches s |}).

(* shutil.move(downloaded_file, target_path) *)
Definition move_download (target : list N) (file : list N) : M unit :=
  fun s =>
    (Ok tt,
     {| page_counter := page_counter s; downloader := downloader s;
        dirs := dirs s; files := <[ target := Blob file ]> (files s);
        trace := trace s;
        clock := clock s; fetches := fetches s |}).

(* self.downloader = ... *)
Definition set_downloader : M unit :=
  fun s =>
    (Ok tt,
     {| page_counter := page_counter s; downloader := true;
        dirs := dirs s; files := files s; trace := trace s;
        clock := clock s; fetches := fetches s |}).

Definition with_counter {A} (f : PageCounter -> A * PageCounter) : M A :=
  fun s =>
    let '(a, pc) := f (page_counter s) in
    (Ok a,
     {| page_counter := pc; downloader := downloader s;
        dirs := dirs s; files := files s; trace := trace s;
        clock := clock s; fetches := fetches s |}).

Definition read_counter : M PageCounter := fun s => (Ok (page_counter s), s).

Fixpoint mapM {A B} (f : A -> M B) (l : list A) : M (list B) :=
  match l with
  | [] => ret []
  | x :: l' =>
      let* y := f x in
      let* ys := mapM f l' in
      ret (y :: ys)
  end.

(** * The backup manager *)

Section Program.
Context (pf : Platform) (env : Env) (mgr : Manager).

Definition join : list N -> list N -> list N := os_path_join pf.
Definition splitext (p : str) : list N * list N :=
  _splitext p (os_sep pf) (os_altsep pf) 46%N.

(* c in (...) *)
Definition one_of (cs : list N) (c : N) : bool := existsb (N.eqb c) cs.

(* c if c.isalnum() or c in (' ', '-', '_') else '_' *)
Definition safe_subject_char (c : N) : N :=
  if isalnum (unicode pf) c || one_of [32; 45; 95]%N c then c else 95%N.

(* c if c.isalnum() or c in ('-', '_') else '_' *)
Definition safe_name_char (c : N) : N :=
  if isalnum (unicode pf) c || one_of [45; 95]%N c then c else 95%N.

Fixpoint lstrip (s : list N) : list N :=
  match s with
  | [] => []
  | c :: r => if isspace (unicode pf) c then lstrip r else s
  end.

(* s.strip() *)
Definition strip (s : str) : str := rev (lstrip (rev (lstrip s))).

(** ** DoorayAPIClient *)

Definition get_pages (parent_page_id : option (list N)) : M (list Page) :=
  (* params = {"parentPageId": parent_page_id} if parent_page_id else {} *)
  let params :=
    match parent_page_id with
    | Some (c :: p) => Some (c :: p)
    | _ => None
    end in
  let* _ := emit (ApiGetPages params) in
  match srv_pages env params with
  | Reply pages => ret pages
  | Failure e => raise e
  end.

Definition get_page_content (page : str) : M PageContent :=
  let* _ := emit (ApiGetPageContent page) in
  match srv_page_content env page with
  | Reply c => ret c
  | Failure e => raise e
  end.

(** ** The clock and the downloader *)

(* SeleniumDownloader.__init__: os.path.join(SCRIPT_DIR, 'downloads') *)
Definition downloads_dir : list N := join (script_dir env) (U "downloads").

(* SeleniumDownloader(self.config): its __init__ makes the downloads
   directory and prepares the options of Chrome; the browser is attached
   to by download_file *)
Definition SeleniumDownloader_init : M unit :=
  let* _ := makedirs downloads_dir in
  set_downloader.

(* if self.downloader is None: self.downloader = SeleniumDownloader(self.config) *)
Definition ensure_downloader : M unit :=
  fun s => if downloader s then (Ok tt, s) else SeleniumDownloader_init s.

(* datetime.now().strftime('%Y%m%d_%H%M%S_%f') *)
Definition now : M (list N) :=
  fun s =>
    (Ok (strftime_now env (clock s)),
     {| page_counter := page_counter s; downloader := downloader s;
        dirs := dirs s; files := files s; trace := trace s;
        clock := S (clock s); fetches := fetches s |}).

(* self.downloader.download_file(...) and the test
   [downloaded_file and os.path.exists(downloaded_file)] after it *)
Definition download_file (file name : str) (is_inline : bool) : M bool :=
  fun s =>
    let s' :=
      {| page_counter := page_counter s; downloader := downloader s;
         dirs := dirs s; files := files s;
         trace := trace s ++ [DownloadFile file name is_inline];
         clock := clock s; fetches := S (fetches s) |} in
    match browser env (fetches s) with
    | Fetched => (Ok true, s')
    | NoFile => (Ok false, s')
    | Crashed => (Raise DownloaderError, s')
    end.

(** ** _create_numbered_dir *)

Definition safe_subject (subject : str) : str := List.map safe_subject_char subject.

Definition dir_name (subject : str) (number : Z) : str :=
  format_02d number ++ 32%N :: safe_subject subject.

Definition _create_numbered_dir (base_path subject : str) (number : Z) : M (list N) :=
  let full_path := join base_path (dir_name subject number) in
  let* _ := makedirs full_path in
  ret full_path.

(** ** File names of downloads *)

(* f"{base_name}_{timestamp}{ext}", base_name sanitised *)
Definition unique_filename (original_name timestamp : str) : str :=
  let '(base_name, ext) := splitext original_name in
  List.map safe_name_char base_name ++ 95%N :: timestamp ++ ext.

(** ** _process_attachments *)

Definition attachment_line (dir : str) (file : FileDesc) : M (list N) :=
  let size := lit_size ++ str_of_Z (file_size file) ++ lit_bytes in
  try_except
    (let original_name := file_name file in
     let* timestamp := now in
     let unique := unique_filename original_name timestamp in
     let target_path := join dir unique in
     let* there := download_file (file_id file) unique false in
     if there then
       let* _ := move_download target_path (file_id file) in
       ret (U "- [" ++ original_name ++ lit_attachments_link ++ unique
              ++ lit_close ++ size)
     else
       ret (U "- " ++ original_name ++ lit_att_download_failed ++ size))
    (fun _ => ret (U "- " ++ file_name file ++ lit_att_processing_error ++ size)).

Definition _process_attachments (files : list FileDesc) (page_path : str)
  : M (list (list N)) :=
  match files with
  | [] => ret []
  | _ :: _ =>
      let attachments_dir := join page_path (U "attachments") in
      let* _ := makedirs attachments_dir in
      let* _ := ensure_downloader in
      mapM (attachment_line attachments_dir) files
  end.

(** ** _process_inline_images *)

Definition image_link (alt_text unique : str) : str :=
  lit_bang_bracket ++ alt_text ++ lit_images_link ++ unique ++ lit_close.

Definition download_failed_marker (alt_text wiki_id file : str) : str :=
  lit_bang_bracket ++ alt_text ++ lit_download_failed ++ wiki_id
    ++ lit_file_id ++ file ++ lit_close.

Definition processing_error_marker (alt_text wiki_id file : str) : str :=
  lit_bang_bracket ++ alt_text ++ lit_processing_error ++ wiki_id
    ++ lit_file_id ++ file ++ lit_close.

Definition original_filename (alt_text file : str) : str :=
  match strip alt_text with
  | [] => lit_image_ ++ file ++ lit_png
  | c :: r => c :: r
  end.

Definition replace_image (images_dir alt_text wiki_id file : str) : M (list N) :=
  let* timestamp := now in
  let unique := unique_filename (original_filename alt_text file) timestamp in
  try_except
    (let* _ := ensure_downloader in
     let target_path := join images_dir unique in
     let* there := download_file file unique true in
     if there then
       let* _ := move_download target_path file in
       ret (image_link alt_text unique)
     else
       ret (download_failed_marker alt_text wiki_id file))
    (fun _ => ret (processing_error_marker alt_text wiki_id file)).

(* re.sub(pattern, repl, content), on the tokens of the content *)
Fixpoint re_sub (repl : list N -> list N -> list N -> M (list N)) (ts : list token)
  : M (list N) :=
  match ts with
  | [] => ret []
  | Lit c :: ts' =>
      let* rest := re_sub repl ts' in
      ret (c :: rest)
  | Img alt w f :: ts' =>
      let* piece := repl alt w f in
      let* rest := re_sub repl ts' in
      ret (piece ++ rest)
  end.

Definition _process_inline_images (content page_path : str) : M (list N) :=
  let images_dir := join page_path (U "images") in
  let* _ := makedirs images_dir in
  re_sub (replace_image images_dir) (scan pf content).

(** ** _save_page *)

Definition _save_page (page_data : Page) (content_data : PageContent) (page_path : str)
  : M unit :=
  let files := content_files content_data in
  let title := page_subject page_data in
  let content := U "# " ++ title ++ 10%N :: 10%N :: body_content content_data in
  let* content := _process_inline_images content page_path in
  let* attachment_links := _process_attachments files page_path in
  let content :=
    match attachment_links with
    | [] => content
    | _ :: _ => content ++ lit_attachments_heading ++ concat attachment_links
    end in
  let metadata :=
    {| meta_id := page_id page_data;
       meta_subject := title;
       meta_mimeType := body_mimeType content_data;
       meta_createdAt := createdAt content_data;
       meta_parentPageId := page_parent page_data;
       meta_attachments := files |} in
  let* _ := write_file (join page_path (U "metadata.json")) (Json metadata) in
  write_file (join page_path (U "content.md")) (Text content).

(** ** backup_recursive and backup

    The recursion follows the tree the server describes, which need not
    be finite: the depth of the recursion is bounded by [fuel]. *)

(* parent_page_id or 'root' *)
Definition counter_key (parent_page_id : option (list N)) : list N :=
  match parent_page_id with
  | Some (c :: p) => c :: p
  | _ => lit_root
  end.

(* for page in pages["result"]: ...; [recur] is backup_recursive itself *)
Fixpoint each_page (recur : option (list N) -> list N -> M unit)
         (parent_page_id : option (list N)) (base_path : list N)
         (pages : list Page) : M unit :=
  match pages with
  | [] => ret tt
  | page :: more =>
      let* within := with_counter increment in
      if negb within then ret tt
      else
        let* current_number :=
          with_counter (get_next_number (counter_key parent_page_id)) in
        let* page_path :=
          _create_numbered_dir base_path (page_subject page) current_number in
        let* page_content := get_page_content (page_id page) in
        let* _ := _save_page page page_content page_path in
        let* _ := recur (Some (page_id page)) page_path in
        each_page recur parent_page_id base_path more
  end.

Fixpoint backup_recursive (fuel : nat) (parent_page_id : option (list N))
         (base_path : list N) {struct fuel} : M unit :=
  match fuel with
  | O => fun s => (OutOfFuel, s)
  | S fuel' =>
      let* pc := read_counter in
      if (limit pc <=? count pc) && negb (limit pc =? -1) then ret tt
      else
        let* pages := get_pages parent_page_id in
        each_page (backup_recursive fuel') parent_page_id base_path pages
  end.

Definition backup (fuel : nat) : M unit :=
  let* root_pages := get_pages None in
  match root_pages with
  | [] => raise NoRootPage
  | root_page :: _ =>
      let* root_content := get_page_content (page_id root_page) in
      let* root_path := _create_numbered_dir (backup_dir mgr) (project_code mgr) 1 in
      let* _ := with_counter increment in
      let* _ := with_counter (get_next_number lit_root) in
      let* _ := _save_page root_page root_content root_path in
      let* _ := backup_recursive fuel (Some (page_id root_page)) root_path in
      let* pc := read_counter in
      emit (LogTotal (count pc))
  end.
End Program.

(** * Reading a trace *)

Definition api_calls (t : list event) : list event :=
  List.filter (fun e => match e with
                        | ApiGetPages _ | ApiGetPageContent _ => true
                        | _ => false
                        end) t.

(* the pages whose metadata.json was written, with the file's path *)
Fixpoint saved_pages (t : list event) : list (list N * list N) :=
  match t with
  | [] => []
  | WriteFile path (Json m) :: t' => (meta_id m, path) :: saved_pages t'
  | _ :: t' => saved_pages t'
  end.

(* the content.md files written *)
Fixpoint written_contents (t : list event) : list (list N * list N) :=
  match t with
  | [] => []
  | WriteFile path (Text s) :: t' => (path, s) :: written_contents t'
  | _ :: t' => written_contents t'
  end.

Fixpoint reported_totals (t : list event) : list Z :=
  match t with
  | [] => []
  | LogTotal n :: t' => n :: reported_totals t'
  | _ :: t' => reported_totals t'
  end.

(* the suffixes of a text, the places where a match can start *)
Fixpoint tails (s : list N) : list (list N) :=
  match s with
  | [] => [[]]
  | c :: s' => s :: tails s'
  end.

(** * Vocabulary of the properties *)

(* c.isalnum() or c in (' ', '-', '_') *)
Definition allowed (pf : Platform) (c : N) : bool :=
  isalnum (unicode pf) c || one_of [32; 45; 95]%N c.

(** The pattern, declaratively: [![alt](/wikis/w/files/f)] with an alt
    text without newline and two non-empty runs of decimal digits. *)
Definition inline_image (pf : Platform) (m : list N) : Prop :=
  exists alt w f : list N,
    Forall (fun c => c <> 10%N) alt /\
    w <> [] /\ Forall (fun c => digit pf c = true) w /\
    f <> [] /\ Forall (fun c => digit pf c = true) f /\
    m = markup alt w f.





Definition is_inline_download (e : event) : Prop :=
  match e with
  | DownloadFile _ _ true => True
  | _ => False
  end.

Definition is_attachment_download (e : event) : Prop :=
  match e with
  | DownloadFile _ _ false => True
  | _ => False
  end.

(* what a download event asks for *)
Definition download_of (e : event) : option (list N) :=
  match e with
  | DownloadFile f _ _ => Some f
  | _ => None
  end.

Definition is_media_event (e : event) : Prop :=
  match e with
  | MakeDirs _ | DownloadFile _ _ _ => True
  | _ => False
  end.

(* the name under which the image of a match is stored, when the clock
   reads [t] *)
Definition image_name (pf : Platform) (env : Env) (alt f : list N) (t : nat) : list N :=
  unique_filename pf (original_filename pf alt f) (strftime_now env t).

(** The pieces the rewriter puts in place of the tokens of a text: [k]
    downloads and [t] readings of the clock have happened before. *)
Inductive rewritten (pf : Platform) (env : Env)
  : nat -> nat -> list token -> list (list N) -> Prop :=
| rewritten_nil k t : rewritten pf env k t [] []
| rewritten_lit k t c ts ps :
    rewritten pf env k t ts ps ->
    rewritten pf env k t (Lit c :: ts) ([c] :: ps)
| rewritten_fetched k t alt w f ts ps :
    browser env k = Fetched ->
    rewritten pf env (S k) (S t) ts ps ->
    rewritten pf env k t (Img alt w f :: ts)
              (image_link alt (image_name pf env alt f t) :: ps)
| rewritten_no_file k t alt w f ts ps :
    browser env k = NoFile ->
    rewritten pf env (S k) (S t) ts ps ->
    rewritten pf env k t (Img alt w f :: ts) (download_failed_marker alt w f :: ps)
| rewritten_crashed k t alt w f ts ps :
    browser env k = Crashed ->
    rewritten pf env (S k) (S t) ts ps ->
    rewritten pf env k t (Img alt w f :: ts) (processing_error_marker alt w f :: ps).

(** The downloader is made when it is first needed: what this adds to the
    trace and to the directories, [d] telling whether the run has one
    already. *)
Definition downloader_setup (pf : Platform) (env : Env) (d : bool) : list event :=
  if d then [] else [MakeDirs (downloads_dir pf env)].

Definition setup_dirs (pf : Platform) (env : Env) (d : bool) : gset (list N) :=
  if d then ∅ else {[ downloads_dir pf env ]}.

(* the same before the downloads [dls], the first of which needs the
   downloader *)
Definition setup_before (pf : Platform) (env : Env) (d : bool) (dls : list event)
  : list event :=
  match dls with
  | [] => []
  | _ :: _ => downloader_setup pf env d
  end.

(* whether there is a downloader after the downloads [dls] *)
Definition downloader_after (d : bool) (dls : list event) : bool :=
  match dls with
  | [] => d
  | _ :: _ => true
  end.

Definition attachments_dir (pf : Platform) (page_path : list N) : list N :=
  join pf page_path (U "attachments").
Definition images_dir (pf : Platform) (page_path : list N) : list N :=
  join pf page_path (U "images").

(* the text of content.md before the rewriter runs over it *)
Definition heading_and_body (page_data : Page) (content_data : PageContent) : list N :=
  U "# " ++ page_subject page_data ++ 10%N :: 10%N :: body_content content_data.

Definition metadata_of (page_data : Page) (content_data : PageContent) : Metadata :=
  {| meta_id := page_id page_data;
     meta_subject := page_subject page_data;
     meta_mimeType := body_mimeType content_data;
     meta_createdAt := createdAt content_data;
     meta_parentPageId := page_parent page_data;
     meta_attachments := content_files content_data |}.

(* the two files that end the writing of a page *)
Definition page_files (pf : Platform) (page_data : Page) (content_data : PageContent)
           (page_path text : list N) : list event :=
  [WriteFile (join pf page_path (U "metadata.json"))
             (Json (metadata_of page_data content_data));
   WriteFile (join pf page_path (U "content.md")) (Text text)].

(* what get_pages sends as parentPageId *)
Definition api_param (parent_page_id : option (list N)) : option (list N) :=
  match parent_page_id with
  | Some (c :: p) => Some (c :: p)
  | _ => None
  end.

(* the number of pages written so far *)
Definition pages_written (s : Run) : Z := Z.of_nat (length (saved_pages (trace s))).

(** What a stretch of the walk, from [s] to [s'] with outcome [r], does to
    the counter and to the pages written. *)
Definition walk_ok (s : Run) (r : outcome unit) (s' : Run) : Prop :=
  limit (page_counter s') = limit (page_counter s) /\
  reported_totals (trace s') = reported_totals (trace s) /\
  pages_written s <= pages_written s' /\
  pages_written s' - pages_written s
  <= count (page_counter s') - count (page_counter s) /\
  (limit (page_counter s) <> -1 ->
   pages_written s <= count (page_counter s) ->
   pages_written s' = pages_written s \/ pages_written s' <= limit (page_counter s)) /\
  (limit (page_counter s) = -1 -> r = Ok tt ->
   pages_written s' - pages_written s
   = count (page_counter s') - count (page_counter s)).

(** * A small wiki for the examples

    [Home] is the only top-level page; its children are [Design/Notes] and
    [Minutes], and [Design/Notes] has two children of its own. *)

Definition page_A : Page :=
  {| page_id := U "100"; page_subject := U "Home"; page_parent := None |}.
Definition page_B : Page :=
  {| page_id := U "200"; page_subject := U "Design/Notes"; page_parent := Some (U "100") |}.
Definition page_C : Page :=
  {| page_id := U "300"; page_subject := U "Minutes"; page_parent := Some (U "100") |}.
Definition page_D : Page :=
  {| page_id := U "400"; page_subject := U "Draft"; page_parent := Some (U "200") |}.
Definition page_E : Page :=
  {| page_id := U "500"; page_subject := U "Review"; page_parent := Some (U "200") |}.

Definition sample_content (page : list N) : PageContent :=
  if decide (page = U "100") then
    {| body_content := U "see ![diagram](/wikis/10/files/20)";
       body_mimeType := U "text/x-markdown";
       createdAt := U "2024-01-01T12:00:00+09:00";
       content_files := [] |}
  else if decide (page = U "200") then
    {| body_content := U "notes";
       body_mimeType := U "text/x-markdown";
       createdAt := U "2024-01-02T09:30:00+09:00";
       content_files :=
         [ {| file_id := U "9001"; file_name := U "spec v1.pdf"; file_size := 2048 |} ] |}
  else
    {| body_content := U "";
       body_mimeType := U "text/x-markdown";
       createdAt := U "2024-01-03T10:00:00+09:00";
       content_files := [] |}.

Definition sample_env : Env :=
  {| srv_pages := fun parent =>
       Reply (if decide (parent = None) then [page_A]
              else if decide (parent = Some (U "100")) then [page_B; page_C]
              else if decide (parent = Some (U "200")) then [page_D; page_E]
              else []);
     srv_page_content := fun page => Reply (sample_content page);
     strftime_now := fun k => U "20240101_120000_00000" ++ str_of_N (N.of_nat k);
     browser := fun k => match k with
                         | 0%nat => NoFile
                         | 1%nat => Fetched
                         | _ => Crashed
                         end;
     script_dir := U "/app" |}.

(* a page whose title is itself an inline image *)
Definition page_logo : Page :=
  {| page_id := U "600"; page_subject := U "![logo](/wikis/1/files/2)";
     page_parent := Some (U "100") |}.

Definition content_logo : PageContent :=
  {| body_content := U "text";
     body_mimeType := U "text/x-markdown";
     createdAt := U "2024-01-04T08:00:00+09:00";
     content_files := [] |}.

Definition sample_mgr (lim : Z) : Manager :=
  {| page_limit := lim; project_code := U "PRJ";
     backup_dir := U "/backups/20240101_120000" |}.

(** * A wiki as a finite tree

    The pages the server describes, when they form a finite tree: a page,
    what the server returns as its content, and the subtrees of its children
    in the order the server lists them. *)

#[warnings="-register-all"] Inductive tree :=
| Node (page : Page) (content : PageContent) (children : list tree).

Definition root_page (t : tree) : Page :=
  match t with Node p _ _ => p end.

Definition subtrees (t : tree) : list tree :=
  match t with Node _ _ ts => ts end.

(* the pages of a tree, a page before its children, children in order *)
Fixpoint preorder (t : tree) : list Page :=
  match t with
  | Node p _ ts => p :: concat (List.map preorder ts)
  end.

Definition preorder_forest (ts : list tree) : list Page :=
  concat (List.map preorder ts).

(* the number of nested calls of backup_recursive the tree asks for *)
Fixpoint depth (t : tree) : nat :=
  match t with
  | Node _ _ ts => S (list_max (List.map depth ts))
  end.

(** The server answers as the tree says: for every page of the tree, the
    children listed are the roots of its subtrees and the content is the one
    of the tree.  Page ids are not empty. *)
Fixpoint serves (env : Env) (t : tree) : Prop :=
  match t with
  | Node p c ts =>
      page_id p <> [] /\
      srv_pages env (Some (page_id p)) = Reply (List.map root_page ts) /\
      srv_page_content env (page_id p) = Reply c /\
      (fix all (ts : list tree) : Prop :=
         match ts with
         | [] => True
         | t :: r => serves env t /\ all r
         end) ts
  end.

(* what the quota leaves room for: nothing to say when it is unlimited *)
Definition room (pc : PageCounter) : option nat :=
  if limit pc =? -1 then None else Some (Z.to_nat (limit pc - count pc)).

Definition take_room {A : Type} (r : option nat) (l : list A) : list A :=
  match r with
  | None => l
  | Some q => take q l
  end.

(* the pages a run writes, of the pages in the order of the walk *)
Definition quota_prefix {A : Type} (lim : Z) (l : list A) : list A :=
  if lim =? -1 then l else take (Z.to_nat (Z.max 1 lim)) l.

(** A stretch of the walk over the pages [P], from [s] to [s']: the pages
    written are those of [P] the quota had room for, in order. *)
Definition walked (P : list Page) (s s' : Run) : Prop :=
  limit (page_counter s') = limit (page_counter s) /\
  List.map fst (saved_pages (trace s'))
  = List.map fst (saved_pages (trace s))
      ++ List.map page_id (take_room (room (page_counter s)) P) /\
  match room (page_counter s) with
  | None => count (page_counter s') = count (page_counter s) + Z.of_nat (length P)
  | Some q =>
      if (length P <=? q)%nat
      then count (page_counter s') = count (page_counter s) + Z.of_nat (length P)
      else limit (page_counter s) <= count (page_counter s')
  end.

(* the sample wiki as a tree *)
Definition sample_tree : tree :=
  Node page_A (sample_content (U "100"))
    [ Node page_B (sample_content (U "200"))
        [ Node page_D (sample_content (U "400")) [];
          Node page_E (sample_content (U "500")) [] ];
      Node page_C (sample_content (U "300")) [] ].

(** * The requests of a run *)

(* the pages whose content was asked of the server, in order *)
Fixpoint content_requests (t : list event) : list (list N) :=
  match t with
  | [] => []
  | ApiGetPageContent p :: t' => p :: content_requests t'
  | _ :: t' => content_requests t'
  end.

(* the parentPageId of the page lists asked of the server, in order *)
Fixpoint list_requests (t : list event) : list (option (list N)) :=
  match t with
  | [] => []
  | ApiGetPages p :: t' => p :: list_requests t'
  | _ :: t' => list_requests t'
  end.

(* the server answers some request with the error [e] *)
Definition server_failure (env : Env) (e : exn) : Prop :=
  (exists p, srv_pages env p = Failure e) \/
  (exists p, srv_page_content env p = Failure e).

(** What the events [evs] of a stretch of the walk with outcome [r] ask of
    the server: the content of the pages written, and of one more when the
    stretch fails there; the children of some of the pages written, after
    the list requests [head]. *)
Definition requests_ok (env : Env) (r : outcome unit) (evs : list event)
           (head : list (option (list N))) : Prop :=
  (exists extra,
      content_requests evs = List.map fst (saved_pages evs) ++ extra /\
      (length extra <= 1)%nat /\
      (r = Ok tt -> extra = [])) /\
  (exists l,
      sublist l (List.map fst (saved_pages evs)) /\
      list_requests evs = head ++ List.map (fun p => api_param (Some p)) l) /\
  (forall e, r = Raise e -> server_failure env e).

(** * What the downloads cannot change *)

(* the same server, with another clock and another browser *)
Definition with_browser (env : Env) (clk : nat -> list N)
           (brw : nat -> download_result) : Env :=
  {| srv_pages := srv_pages env;
     srv_page_content := srv_page_content env;
     strftime_now := clk;
     browser := brw;
     script_dir := script_dir env |}.

(* a trace without its downloads and without the text of content.md *)
Definition skeleton (t : list event) : list event :=
  flat_map (fun e => match e with
                     | DownloadFile _ _ _ => []
                     | WriteFile path (Text _) => [WriteFile path (Text [])]
                     | _ => [e]
                     end) t.

Definition same_walk (s1 s2 : Run) : Prop :=
  page_counter s1 = page_counter s2 /\
  downloader s1 = downloader s2 /\
  dirs s1 = dirs s2 /\
  skeleton (trace s1) = skeleton (trace s2).

(* two computations that do the same from states with the same walk *)
Definition agree {A : Type} (m1 m2 : M A) : Prop :=
  forall s1 s2, same_walk s1 s2 ->
    (m1 s1).1 = (m2 s2).1 /\ same_walk (m1 s1).2 (m2 s2).2.

(* two computations that both return, with whatever results, and do the
   same from states with the same walk *)
Definition alike {A B : Type} (m1 : M A) (m2 : M B) : Prop :=
  forall s1 s2, same_walk s1 s2 ->
    exists a b s1' s2',
      m1 s1 = (Ok a, s1') /\ m2 s2 = (Ok b, s2') /\ same_walk s1' s2'.

(** * Names on disk *)

(* c is os.sep or os.altsep *)
Definition is_sep (pf : Platform) (c : N) : bool :=
  (c =? os_sep pf)%N
  || match os_altsep pf with
     | Some a => (c =? a)%N
     | None => false
     end.

(** * The attachment lines *)

(* the line of one attachment, by the answer of the browser to the [k]-th
   download, the clock being read for the [t]-th time *)
Definition attachment_entry (pf : Platform) (env : Env) (file : FileDesc) (k t : nat)
  : list N :=
  let size := lit_size ++ str_of_Z (file_size file) ++ lit_bytes in
  match browser env k with
  | Fetched =>
      U "- [" ++ file_name file ++ lit_attachments_link
        ++ unique_filename pf (file_name file) (strftime_now env t) ++ lit_close ++ size
  | NoFile => U "- " ++ file_name file ++ lit_att_download_failed ++ size
  | Crashed => U "- " ++ file_name file ++ lit_att_processing_error ++ size
  end.

Fixpoint attachment_entries (pf : Platform) (env : Env) (files : list FileDesc)
         (k t : nat) : list (list N) :=
  match files with
  | [] => []
  | file :: more =>
      attachment_entry pf env file k t :: attachment_entries pf env more (S k) (S t)
  end.

(** * DoorayAPIClient.get_projects *)

(* a value of the query string *)
Inductive pvalue :=
| PStr (s : list N)
| PInt (z : Z).

(* the wiki of a project: the key may be missing, and so may the id in it *)
Record Project := {
  proj_id : list N;
  proj_code : list N;
  proj_wiki : option (option (list N))
}.

(* the JSON body of an answer to GET /projects *)
Record ProjectsPage := {
  pp_result : option (list Project);
  pp_totalCount : option Z
}.

(* the server of the project API: the answer to a request, by the number
   of requests made before it and the query string *)
Definition projects_server : Type :=
  nat -> gmap (list N) pvalue -> response ProjectsPage.

(* {"state": "active", "size": 20}, then default_params.update(params) *)
Definition default_params (params : option (gmap (list N) pvalue))
  : gmap (list N) pvalue :=
  let defaults : gmap (list N) pvalue :=
    <[ U "state" := PStr (U "active") ]> (<[ U "size" := PInt 20 ]> ∅) in
  match params with
  | Some p => p ∪ defaults
  | None => defaults
  end.

(* while True: ...; [sent] are the query strings of the requests made *)
Fixpoint get_projects_loop (srv : projects_server) (fuel : nat)
         (default_params : gmap (list N) pvalue) (all_projects : list Project)
         (page : Z) (sent : list (gmap (list N) pvalue)) {struct fuel}
  : outcome (list Project) * list (gmap (list N) pvalue) :=
  match fuel with
  | O => (OutOfFuel, sent)
  | S fuel' =>
      let default_params := <[ U "page" := PInt page ]> default_params in
      let sent' := sent ++ [default_params] in
      match srv (length sent) default_params with
      | Failure e => (Raise e, sent')
      | Reply result =>
          match pp_result result with
          | None | Some [] => (Ok all_projects, sent')
          | Some (p :: ps) =>
              let all_projects := all_projects ++ p :: ps in
              let total_count := default 0 (pp_totalCount result) in
              if total_count <=? Z.of_nat (length all_projects)
              then (Ok all_projects, sent')
              else get_projects_loop srv fuel' default_params all_projects
                     (page + 1) sent'
          end
      end
  end.

Definition get_projects (srv : projects_server) (fuel : nat)
           (params : option (gmap (list N) pvalue))
  : outcome (list Project) * list (gmap (list N) pvalue) :=
  get_projects_loop srv fuel (default_params params) [] 0 [].

(* the size a request asks for *)
Definition size_of (ps : gmap (list N) pvalue) : Z :=
  match ps !! U "size" with
  | Some (PInt z) => z
  | _ => 0
  end.

(** A server that pages through the projects [L] as the requests ask:
    [size] projects from the [page]-th page on, and the number of all. *)
Definition paging_server (L : list Project) : projects_server :=
  fun _ ps =>
    match ps !! U "page", ps !! U "size" with
    | Some (PInt page), Some (PInt size) =>
        Reply {| pp_result :=
                   Some (take (Z.to_nat size) (drop (Z.to_nat (page * size)) L));
                 pp_totalCount := Some (Z.of_nat (length L)) |}
    | _, _ => Failure (HTTPError 400)
    end.

(* the query string of the [k]-th request *)
Definition request_of (params : option (gmap (list N) pvalue)) (k : nat)
  : gmap (list N) pvalue :=
  <[ U "page" := PInt (Z.of_nat k) ]> (default_params params).

Definition sample_project (k : N) (wiki : option (option (list N))) : Project :=
  {| proj_id := str_of_N (1000 + k); proj_code := U "P" ++ str_of_N k;
     proj_wiki := wiki |}.

Definition sample_projects : list Project :=
  [ sample_project 1 (Some (Some (U "11")));
    sample_project 2 None;
    sample_project 3 (Some (Some (U "13")));
    sample_project 4 (Some None);
    sample_project 5 (Some (Some (U "15"))) ].

(* a server that gives the projects in one page and no totalCount *)
Definition countless_server (projects : list Project) : projects_server :=
  fun _ _ => Reply {| pp_result := Some projects; pp_totalCount := None |}.

(* the caller asks for pages of two *)
Definition size_two : option (gmap (list N) pvalue) :=
  Some (<[ U "size" := PInt 2 ]> ∅).

(** * SeleniumDownloader

    The desktop the downloader works on: whether Chrome can be attached to,
    what the Downloads folder lists each time it is listed, whether the
    browser loads a URL, which element [list(new_files)[0]] is, whether a
    path exists and whether a removal or a move succeeds. *)

Record Desktop := {
  chrome_connects : bool;
  listdir_downloads : nat -> option (gset (list N));
  driver_get : list N -> bool;
  first_of : gset (list N) -> list N;
  path_exists : list N -> bool;
  remove_succeeds : list N -> bool;
  move_succeeds : list N -> list N -> bool
}.

(* config.domain, config.wiki_id, self.download_dir and ~\Downloads *)
Record DownloaderConfig := {
  domain : list N;
  wiki_id : list N;
  download_dir : list N;
  downloads_path : list N
}.

Inductive action :=
| Visit (url : list N)
| Sleep
| Remove (path : list N)
| Move (src dst : list N).

Record Downloader := {
  driver : bool;                  (* self.driver is not None *)
  listed : nat;                   (* listings of Downloads so far *)
  actions : list action
}.

(* s.endswith(suffix) *)
Definition endswith (s suffix : list N) : bool :=
  match after_prefix (rev suffix) (rev s) with
  | Some _ => true
  | None => false
  end.

Module SeleniumDownloader.
Section Methods.
Context (pf : Platform) (w : Desktop) (cfg : DownloaderConfig).

Definition act (a : action) (d : Downloader) : Downloader :=
  {| driver := driver d; listed := listed d; actions := actions d ++ [a] |}.

(* set(os.listdir(downloads_path)) *)
Definition listdir (d : Downloader) : option (gset (list N)) * Downloader :=
  (listdir_downloads w (listed d),
   {| driver := driver d; listed := S (listed d); actions := actions d |}).

Definition start (d : Downloader) : outcome unit * Downloader :=
  if driver d then (Ok tt, d)
  else if chrome_connects w
       then (Ok tt, {| driver := true; listed := listed d; actions := actions d |})
       else (Raise DownloaderError, d).

Definition file_url (file_id : list N) (is_inline : bool) : list N :=
  if is_inline
  then domain cfg ++ U "/wikis/" ++ wiki_id cfg ++ U "/files/" ++ file_id
         ++ U "?disposition=attachment"
  else domain cfg ++ U "/page-files/" ++ file_id ++ U "?disposition=attachment".

(* new_file.endswith('.crdownload') or new_file.endswith('.tmp') *)
Definition unfinished (new_file : list N) : bool :=
  endswith new_file (U ".crdownload") || endswith new_file (U ".tmp").

(* for _ in range(rounds): ...; return None -- None also when an exception
   is caught *)
Fixpoint wait_for_download (before_files : gset (list N)) (file_name : list N)
         (rounds : nat) (d : Downloader) : option (list N) * Downloader :=
  match rounds with
  | O => (None, d)
  | S rounds' =>
      match listdir d with
      | (None, d1) => (None, d1)
      | (Some current_files, d1) =>
          let new_files := current_files ∖ before_files in
          if decide (new_files = ∅)
          then wait_for_download before_files file_name rounds' (act Sleep d1)
          else
            let new_file := first_of w new_files in
            if unfinished new_file
            then wait_for_download before_files file_name rounds' (act Sleep d1)
            else
              let downloaded_file := join pf (downloads_path cfg) new_file in
              let target_path := join pf (download_dir cfg) file_name in
              let removal :=
                if path_exists w target_path
                then Some (remove_succeeds w target_path)
                else None in
              match removal with
              | Some false => (None, d1)
              | _ =>
                  let d2 := match removal with
                            | Some _ => act (Remove target_path) d1
                            | None => d1
                            end in
                  if move_succeeds w downloaded_file target_path
                  then (Some target_path, act (Move downloaded_file target_path) d2)
                  else (None, d2)
              end
      end
  end.

Definition download_file (file_id file_name : list N) (is_inline : bool)
           (d : Downloader) : outcome (option (list N)) * Downloader :=
  match start d with
  | (Raise e, d0) => (Raise e, d0)
  | (OutOfFuel, d0) => (OutOfFuel, d0)
  | (Ok _, d0) =>
      match listdir d0 with
      | (None, d1) => (Ok None, d1)
      | (Some before_files, d1) =>
          let url := file_url file_id is_inline in
          if driver_get w url
          then
            let '(r, d2) := wait_for_download before_files file_name 10 (act (Visit url) d1) in
            (Ok r, d2)
          else (Ok None, d1)
      end
  end.

(* self.driver = None *)
Definition close (d : Downloader) : Downloader :=
  {| driver := false; listed := listed d; actions := actions d |}.
End Methods.
End SeleniumDownloader.

(* the number of times the downloader slept *)
Definition sleeps (acts : list action) : nat :=
  length (List.filter (fun a => match a with Sleep => true | _ => false end) acts).

(* the moves of the downloader *)
Definition moves (acts : list action) : list (list N * list N) :=
  flat_map (fun a => match a with Move s t => [(s, t)] | _ => [] end) acts.

(* the URLs the browser was sent to *)
Definition visits (acts : list action) : list (list N) :=
  flat_map (fun a => match a with Visit u => [u] | _ => [] end) acts.

(* list(new_files)[0], for one order of the elements *)
Definition first_element (S : gset (list N)) : list N :=
  default [] (head (elements S)).


(* a desktop where nothing is ever downloaded *)
Definition idle_desktop : Desktop :=
  {| chrome_connects := true;
     listdir_downloads := fun _ => Some {[ U "old.txt" ]};
     driver_get := fun _ => true;
     first_of := first_element;
     path_exists := fun _ => false;
     remove_succeeds := fun _ => true;
     move_succeeds := fun _ _ => true |}.

Definition sample_downloader_config : DownloaderConfig :=
  {| domain := U "https://example.dooray.com"; wiki_id := U "10";
     download_dir := U "/app/downloads"; downloads_path := U "/home/me/Downloads" |}.

Definition connected : Downloader :=
  {| driver := true; listed := 0; actions := [] |}.

(** * select_projects

    The terminal gives the lines the user types: the [k]-th call of
    [input()] returns a line, or raises EOFError when there is none.
    [str.lower] and [int] are those of the interpreter. *)

#[global] Instance pvalue_eq_dec : EqDecision pvalue.
Proof. solve_decision. Defined.

#[global] Instance Project_eq_dec : EqDecision Project.
Proof. solve_decision. Defined.

(* "wiki" in p and p["wiki"].get("id") *)
Definition has_wiki (p : Project) : bool :=
  match proj_wiki p with
  | Some (Some (_ :: _)) => true
  | _ => false
  end.

(* s.split(",") *)
Fixpoint split_commas (s : list N) : list (list N) :=
  match s with
  | [] => [[]]
  | c :: r =>
      if (c =? 44)%N then [] :: split_commas r
      else match split_commas r with
           | [] => [[c]]
           | w :: ws => (c :: w) :: ws
           end
  end.

Section SelectProjects.
Context (pf : Platform) (lower : list N -> list N) (int : list N -> option Z)
        (input : nat -> option (list N)).

(* for num in choice.split(","): ... *)
Fixpoint pick_numbers (projects : list Project) (nums : list (list N))
         (selected_projects : list Project) : list Project :=
  match nums with
  | [] => selected_projects
  | num :: more =>
      match int (strip pf num) with
      | None => pick_numbers projects more selected_projects      (* ValueError *)
      | Some idx =>
          if (1 <=? idx) && (idx <=? Z.of_nat (length projects))
          then
            match projects !! Z.to_nat (idx - 1) with
            | Some project =>
                if negb (has_wiki project)
                then pick_numbers projects more selected_projects
                else if decide (project ∈ selected_projects)
                     then pick_numbers projects more selected_projects
                     else pick_numbers projects more (selected_projects ++ [project])
            | None => pick_numbers projects more selected_projects
            end
          else pick_numbers projects more selected_projects
      end
  end.

(* while True: ...; [reads] calls of input() have been made; the result is
   None when the fuel runs out *)
Fixpoint select_loop (projects : list Project) (fuel : nat) (reads : nat)
         (selected_projects : list Project) {struct fuel} : option (list Project) :=
  match fuel with
  | O => None
  | S fuel' =>
      match input reads with
      | None => select_loop projects fuel' (S reads) selected_projects
      | Some line =>
          let choice := lower (strip pf line) in
          if decide (choice = U "0") then Some selected_projects
          else
            let all := bool_decide (choice = U "a") || bool_decide (choice = U "all") in
            let selected_projects :=
              if all then List.filter has_wiki projects
              else pick_numbers projects (split_commas choice) selected_projects in
            match selected_projects with
            | [] => select_loop projects fuel' (S reads) []
            | _ :: _ =>
                match input (S reads) with
                | None => select_loop projects fuel' (S (S reads)) selected_projects
                | Some confirm =>
                    if decide (lower confirm = U "y") then Some selected_projects
                    else select_loop projects fuel' (S (S reads)) []
                end
            end
      end
  end.

(* [config] is None when load_config raises *)
Definition select_projects (config : option unit) (srv : projects_server) (fuel : nat)
  : option (list Project) :=
  match config with
  | None => Some []
  | Some _ =>
      match get_projects srv fuel None with
      | (Ok [], _) => Some []
      | (Ok (p :: ps), _) => select_loop (p :: ps) fuel 0 []
      | (Raise _, _) => Some []
      | (OutOfFuel, _) => None
      end
  end.
End SelectProjects.

(* lower and int on the ASCII letters and digits the examples use *)
Definition ascii_lower (s : list N) : list N :=
  List.map (fun c => if between 65 90 c then (c + 32)%N else c) s.

Definition ascii_int (s : list N) : option Z :=
  match s with
  | [] => None
  | _ :: _ => if forallb ascii_decimal s then Some (int_of_digits s) else None
  end.

(* the user types "1, 3,1", then "Y" *)
Definition sample_input (k : nat) : option (list N) :=
  match k with
  | 0%nat => Some (U " 1, 3,1 ")
  | 1%nat => Some (U "Y")
  | _ => None
  end.

(** * The directories of a wiki *)

(* the ids of the pages of a forest, in the order of the walk *)
Definition ids_forest (ts : list tree) : list (list N) :=
  List.map page_id (preorder_forest ts).

(* the directory of every page of a tree whose own directory is [dir]: the
   [k]-th child of a page is in the directory named by [k] and its title
   under the directory of the page *)
Fixpoint layout (pf : Platform) (dir : list N) (t : tree) : list (list N * list N) :=
  match t with
  | Node p _ ts =>
      (page_id p, dir)
      :: (fix children (ts : list tree) (k : Z) : list (list N * list N) :=
            match ts with
            | [] => []
            | c :: more =>
                layout pf (join pf dir (dir_name pf (page_subject (root_page c)) k)) c
                  ++ children more (k + 1)
            end) ts 1
  end.

(* the children [ts] of a page in [dir], the first of them numbered [k] *)
Fixpoint layout_forest (pf : Platform) (dir : list N) (k : Z) (ts : list tree)
  : list (list N * list N) :=
  match ts with
  | [] => []
  | c :: more =>
      layout pf (join pf dir (dir_name pf (page_subject (root_page c)) k)) c
        ++ layout_forest pf dir (k + 1) more
  end.

(* the directory of the root page: named by 1 and the project code *)
Definition root_path (pf : Platform) (mgr : Manager) : list N :=
  join pf (backup_dir mgr) (dir_name pf (project_code mgr) 1).

(* the directories of a run over the wiki [t] *)
Definition run_layout (pf : Platform) (mgr : Manager) (t : tree)
  : list (list N * list N) :=
  (page_id (root_page t), root_path pf mgr)
  :: layout_forest pf (root_path pf mgr) 1 (subtrees t).

(* the metadata.json of a page in its directory *)
Definition metadata_path (pf : Platform) (entry : list N * list N) : list N * list N :=
  (entry.1, join pf entry.2 (U "metadata.json")).

(** A stretch of the walk over the pages [P] with their directories: as
    [walked], with the paths, and the numbering of the children of the pages
    outside [keys] left as it was. *)
Definition laid_out (pf : Platform) (P : list (list N * list N)) (keys : list (list N))
           (s s' : Run) : Prop :=
  limit (page_counter s') = limit (page_counter s) /\
  saved_pages (trace s')
  = saved_pages (trace s)
      ++ List.map (metadata_path pf) (take_room (room (page_counter s)) P) /\
  match room (page_counter s) with
  | None => count (page_counter s') = count (page_counter s) + Z.of_nat (length P)
  | Some q =>
      if (length P <=? q)%nat
      then count (page_counter s') = count (page_counter s) + Z.of_nat (length P)
      else limit (page_counter s) <= count (page_counter s')
  end /\
  (forall q, q ∉ keys ->
     level_counters (page_counter s') !! q = level_counters (page_counter s) !! q).

(* a path that does not end in a slash *)
Definition ends_in_name (d : list N) : Prop :=
  exists d0 c, d = d0 ++ [c] /\ c <> 47%N.

(* a name: not empty and without slash *)
Definition plain_name (x : list N) : Prop :=
  x <> [] /\ Forall (fun c => c <> 47%N) x.

(* nothing, or something that starts with a slash *)
Definition below (r : list N) : Prop :=
  r = [] \/ exists r', r = 47%N :: r'.

(** * Wikis on which the walk does not end *)

(* a server on which the page [p] is the only top-level page and its own
   only child *)
Definition looping_env (p : Page) (c : PageContent) : Env :=
  {| srv_pages := fun _ => Reply [p];
     srv_page_content := fun _ => Reply c;
     strftime_now := fun _ => [];
     browser := fun _ => NoFile;
     script_dir := U "/app" |}.

(** * main

    The wikis the program can reach: the server, clock and browser met when
    the wiki with a given id is backed up, and the directory that
    [_create_backup_dir] makes for the [k]-th manager. *)

Record Site := {
  wiki_env : list N -> Env;
  backup_dir_of : nat -> list N
}.

(* how the loop over the selected projects ends *)
Inductive ending :=
| AllDone
| MissingWiki (project : Project)                    (* project['wiki']['id'] raises *)
| RunFailed (project : Project) (r : outcome unit).  (* backup() raises *)

(* WikiBackupManager(config, project['code']) *)
Definition manager_of (site : Site) (lim : Z) (k : nat) (project : Project) : Manager :=
  {| page_limit := lim; project_code := proj_code project;
     backup_dir := backup_dir_of site k |}.

Section Main.
Context (pf : Platform) (site : Site).

(* for project in selected_projects: ...; the runs made, in order *)
Fixpoint backup_projects (lim : Z) (fuel : nat) (k : nat) (projects : list Project)
  : list (Project * Run) * ending :=
  match projects with
  | [] => ([], AllDone)
  | project :: more =>
      match proj_wiki project with
      | Some (Some wiki) =>
          let mgr := manager_of site lim k project in
          match backup pf (wiki_env site wiki) mgr fuel (start mgr) with
          | (Ok _, s) =>
              let '(runs, e) := backup_projects lim fuel (S k) more in
              ((project, s) :: runs, e)
          | (r, s) => ([(project, s)], RunFailed project r)
          end
      | _ => ([], MissingWiki project)
      end
  end.

(* what main does: None when the selection never ends; [config] is the
   page_limit of the configuration, None when load_config raises *)
Definition main (lower : list N -> list N) (int : list N -> option Z)
           (input : nat -> option (list N)) (config : option Z)
           (srv : projects_server) (fuel : nat)
  : option (option (list (Project * Run) * ending)) :=
  match select_projects pf lower int input
          (match config with Some _ => Some tt | None => None end) srv fuel with
  | None => None
  | Some [] => Some None                   (* nothing selected *)
  | Some (p :: ps) =>
      match config with
      | None => Some None
      | Some lim => Some (Some (backup_projects lim fuel 0 (p :: ps)))
      end
  end.
End Main.

(* every wiki is the sample wiki *)
Definition sample_site : Site :=
  {| wiki_env := fun _ => sample_env;
     backup_dir_of := fun k => U "/backups/20240101_12000" ++ str_of_N (N.of_nat k) |}.

(** * Properties of the counter *)

Lemma increment_count pc : count (increment pc).2 = count pc + 1.
Proof. reflexivity. Qed.

Lemma increment_true pc :
  (increment pc).1 = true <-> limit pc = -1 \/ count pc + 1 <= limit pc.
Proof.
  unfold increment; simpl.
  rewrite orb_true_iff, Z.eqb_eq, Z.leb_le. tauto.
Qed.

Lemma run_increments_from (n : nat) (pc : PageCounter) :
  0 <= limit pc -> 0 <= count pc ->
  advances (run_calls (replicate n Increment) pc).1
  = replicate (Nat.min n (Z.to_nat (limit pc - count pc))) true
    ++ replicate (n - Z.to_nat (limit pc - count pc)) false.
Proof.
  revert pc. induction n as [|n IH]; intros pc Hl Hc; [reflexivity|].
  cbn [replicate run_calls].
  destruct (increment pc) as [b pc1] eqn:E.
  assert (Hb : b = (increment pc).1) by (rewrite E; reflexivity).
  assert (Hpc : pc1 = (increment pc).2) by (rewrite E; reflexivity).
  specialize (IH pc1).
  destruct (run_calls (replicate n Increment) pc1) as [rs pc2] eqn:E2.
  cbn [fst advances] in *.
  assert (Hl1 : limit pc1 = limit pc) by (subst pc1; reflexivity).
  assert (Hc1 : count pc1 = count pc + 1) by (subst pc1; reflexivity).
  rewrite IH by lia. rewrite Hl1, Hc1.
  destruct (Z_le_gt_dec (count pc + 1) (limit pc)) as [Hle|Hgt].
  - assert (b = true) as -> by (rewrite Hb; apply increment_true; lia).
    replace (Z.to_nat (limit pc - count pc))
      with (S (Z.to_nat (limit pc - (count pc + 1)))) by lia.
    reflexivity.
  - assert (b = false) as ->.
    { rewrite Hb. apply not_true_is_false. rewrite increment_true. lia. }
    replace (Z.to_nat (limit pc - (count pc + 1))) with 0%nat by lia.
    replace (Z.to_nat (limit pc - count pc)) with 0%nat by lia.
    rewrite Nat.min_0_r, !Nat.sub_0_r. reflexivity.
Qed.

(** C3: a call of [increment] adds exactly one to the count, touches nothing
    else, and answers true exactly when the limit is the unlimited sentinel
    -1 or the new count is within the limit; so on a fresh counter with a
    limit L >= 0 the first L calls answer true and all later ones false. *)
Theorem increment_within_quota :
  (forall pc,
      count (increment pc).2 = count pc + 1 /\
      limit (increment pc).2 = limit pc /\
      level_counters (increment pc).2 = level_counters pc /\
      ((increment pc).1 = true <-> limit pc = -1 \/ count (increment pc).2 <= limit pc)) /\
  (forall (L : Z) (n : nat),
      0 <= L ->
      advances (run_calls (replicate n Increment) (PageCounter_init L)).1
      = replicate (Nat.min n (Z.to_nat L)) true ++ replicate (n - Z.to_nat L) false).
Proof.
  split.
  - intros pc. repeat split; try reflexivity; apply increment_true.
  - intros L n HL.
    rewrite run_increments_from by (simpl; lia).
    simpl. rewrite Z.sub_0_r. reflexivity.
Qed.

Lemma increment_within_quota_witness :
  0 <= 2 /\
  advances (run_calls (replicate 5 Increment) (PageCounter_init 2)).1
  = [true; true; false; false; false].
Proof.
  split; [lia|].
  exact (proj2 increment_within_quota 2 5%nat ltac:(lia)).
Defined.

Lemma run_numbers_from (cs : list call) (k : list N) (pc : PageCounter) :
  numbers_of k (run_calls cs pc).1
  = List.map (fun i => default 0 (level_counters pc !! k) + Z.of_nat i)
             (seq 1 (asked k cs)).
Proof.
  revert pc. induction cs as [|c cs IH]; intros pc; [reflexivity|].
  destruct c as [|k']; cbn [run_calls asked].
  - destruct (increment pc) as [b pc1] eqn:E.
    specialize (IH pc1).
    destruct (run_calls cs pc1) as [rs pc2].
    cbn [fst numbers_of] in *. rewrite IH.
    injection E as _ <-. reflexivity.
  - destruct (get_next_number k' pc) as [n pc1] eqn:E.
    specialize (IH pc1).
    destruct (run_calls cs pc1) as [rs pc2].
    cbn [fst numbers_of] in *. rewrite IH.
    unfold get_next_number in E. injection E as <- <-. cbn [level_counters].
    destruct (decide (k' = k)) as [->|Hne].
    + rewrite lookup_insert_eq. cbn [seq List.map default].
      rewrite <- (seq_shift _ 1), List.map_map.
      assert (Hhd : forall (a b : Z) (l l' : list Z), a = b -> l = l' -> a :: l = b :: l')
        by (intros; subst; reflexivity).
      apply Hhd; [simpl; lia|].
      apply List.map_ext. intros i. simpl. lia.
    + rewrite lookup_insert_ne by done. reflexivity.
Qed.

(** C4: on a fresh counter, whatever the history of calls, the numbers
    handed out for one parent key are 1, 2, 3, ... in this order, none of them
    twice; a call for one key leaves the counters of all other keys as they
    were, so two distinct keys both start at 1. *)
Theorem sibling_numbers_contiguous :
  (forall (cs : list call) (lim : Z) (k : list N),
      numbers_of k (run_calls cs (PageCounter_init lim)).1
      = List.map Z.of_nat (seq 1 (asked k cs)) /\
      NoDup (numbers_of k (run_calls cs (PageCounter_init lim)).1)) /\
  (forall (k k' : list N) (pc : PageCounter),
      k <> k' ->
      level_counters (get_next_number k pc).2 !! k' = level_counters pc !! k' /\
      (run_calls [NextNumber k; NextNumber k'] (PageCounter_init (limit pc))).1
      = [Number k 1; Number k' 1]).
Proof.
  split.
  - intros cs lim k.
    assert (E : numbers_of k (run_calls cs (PageCounter_init lim)).1
                = List.map Z.of_nat (seq 1 (asked k cs))).
    { rewrite run_numbers_from. cbn [PageCounter_init level_counters].
      rewrite lookup_empty. apply List.map_ext. intros i. simpl. lia. }
    split; [exact E|].
    rewrite E. apply NoDup_fmap_2; [intros a b; lia|apply NoDup_ListNoDup, seq_NoDup].
  - intros k k' pc Hne. split.
    + unfold get_next_number. cbn [snd level_counters].
      apply lookup_insert_ne. exact Hne.
    + unfold run_calls, get_next_number, PageCounter_init.
      cbn [level_counters count limit fst snd].
      rewrite lookup_insert_ne, lookup_empty by exact Hne.
      reflexivity.
Qed.

Lemma sibling_numbers_contiguous_witness :
  U "root" <> U "42" /\
  level_counters (get_next_number (U "root") (PageCounter_init 5)).2 !! U "42" = None.
Proof.
  assert (H : U "root" <> U "42") by (vm_compute; discriminate).
  split; [exact H|].
  exact (proj1 (proj2 sibling_numbers_contiguous (U "root") (U "42") (PageCounter_init 5) H)).
Defined.

Example numbering_interleaved :
  (run_calls [NextNumber (U "a"); NextNumber (U "b"); Increment;
              NextNumber (U "a"); NextNumber (U "b"); NextNumber (U "a")]
             (PageCounter_init 10)).1
  = [Number (U "a") 1; Number (U "b") 1; Advanced true;
     Number (U "a") 2; Number (U "b") 2; Number (U "a") 3].
Proof. vm_compute. reflexivity. Qed.

(** * Properties of the directory names *)

Lemma uint_chars_digits (d : Decimal.uint) :
  Forall (fun c => ascii_decimal c = true) (uint_chars d).
Proof. induction d; simpl; constructor; auto. Qed.

Lemma chars_uint_uint_chars (d : Decimal.uint) : chars_uint (uint_chars d) = d.
Proof. induction d; simpl; try rewrite IHd; reflexivity. Qed.

Lemma int_of_digits_str_of_N (n : N) : int_of_digits (str_of_N n) = Z.of_N n.
Proof.
  unfold int_of_digits, str_of_N.
  rewrite chars_uint_uint_chars, DecimalN.Unsigned.of_to. reflexivity.
Qed.

Lemma str_of_N_nonempty (n : N) : (1 <= length (str_of_N n))%nat.
Proof.
  unfold str_of_N. destruct n as [|p]; simpl; [lia|].
  pose proof (DecimalPos.Unsigned.to_uint_nonnil p) as H.
  destruct (Pos.to_uint p); [congruence| simpl; lia ..].
Qed.

Lemma format_02d_nonneg (z : Z) :
  0 <= z ->
  (2 <= length (format_02d z))%nat /\
  Forall (fun c => ascii_decimal c = true) (format_02d z) /\
  int_of_digits (format_02d z) = z.
Proof.
  intros Hz. unfold format_02d.
  destruct (Z.ltb_spec z 0) as [?|_]; [lia|].
  pose proof (str_of_N_nonempty (Z.to_N z)) as Hlen.
  pose proof (uint_chars_digits (N.to_uint (Z.to_N z))) as Hd.
  pose proof (int_of_digits_str_of_N (Z.to_N z)) as Hv.
  rewrite Z2N.id in Hv by exact Hz.
  fold (str_of_N (Z.to_N z)) in Hd.
  destruct (Nat.ltb_spec (length (str_of_N (Z.to_N z))) 2).
  - repeat split.
    + simpl. lia.
    + constructor; [reflexivity|exact Hd].
    + exact Hv.
  - repeat split; assumption.
Qed.

Lemma format_02d_chars (z : Z) :
  Forall (fun c => ascii_decimal c = true \/ c = 45%N) (format_02d z).
Proof.
  assert (Hd : forall n, Forall (fun c => ascii_decimal c = true \/ c = 45%N) (str_of_N n)).
  { intros n. eapply Forall_impl; [apply uint_chars_digits|]. simpl. auto. }
  unfold format_02d. destruct (z <? 0).
  - constructor; [right; reflexivity|apply Hd].
  - destruct (length (str_of_N (Z.to_N z)) <? 2)%nat; [constructor|]; auto.
Qed.

Section Naming.
Context (pf : Platform).

Lemma ascii_isalnum (c : N) :
  (c < 128)%N -> isalnum (unicode pf) c = ascii_alpha c || ascii_decimal c.
Proof.
  intros Hc. unfold isalnum, isalpha, isdecimal, isdigit, isnumeric.
  apply N.ltb_lt in Hc. rewrite Hc.
  destruct (ascii_alpha c), (ascii_decimal c); reflexivity.
Qed.

Lemma allowed_not_separator (c : N) :
  allowed pf c = true -> c <> 47%N /\ c <> 92%N /\ c <> 58%N.
Proof.
  intros H. repeat split; intros ->; vm_compute in H; discriminate.
Qed.

Lemma safe_subject_char_allowed (c : N) : allowed pf (safe_subject_char pf c) = true.
Proof.
  unfold safe_subject_char. fold (allowed pf c).
  destruct (allowed pf c) eqn:E; [exact E|].
  unfold allowed. apply orb_true_iff. right. reflexivity.
Qed.

Lemma digit_allowed (c : N) : ascii_decimal c = true \/ c = 45%N -> allowed pf c = true.
Proof.
  intros [H| ->].
  - unfold allowed. apply orb_true_iff. left.
    assert (c < 128)%N.
    { unfold ascii_decimal, between in H. apply andb_true_iff in H as [_ H].
      apply N.leb_le in H. lia. }
    rewrite ascii_isalnum by assumption. rewrite H. apply orb_true_r.
  - unfold allowed. apply orb_true_iff. right. reflexivity.
Qed.

(** C7: the directory name is the number in the format 02d, a space and
    the title with each character that is not alphanumeric, a space, '-'
    or '_' replaced by '_'; for a number that is not negative the format is
    at least two decimal digits that read back as the number; every
    character of the name is alphanumeric, a space, '-' or '_', and none is
    a slash, a backslash or a colon. *)
Theorem dir_name_safe (subject : list N) (number : Z) :
  dir_name pf subject number
  = format_02d number ++ 32%N :: List.map (fun c => if allowed pf c then c else 95%N) subject /\
  (0 <= number ->
   (2 <= length (format_02d number))%nat /\
   Forall (fun c => ascii_decimal c = true) (format_02d number) /\
   int_of_digits (format_02d number) = number) /\
  Forall (fun c => allowed pf c = true) (dir_name pf subject number) /\
  Forall (fun c => c <> 47%N /\ c <> 92%N /\ c <> 58%N) (dir_name pf subject number).
Proof.
  assert (Hall : Forall (fun c => allowed pf c = true) (dir_name pf subject number)).
  { unfold dir_name, safe_subject. apply Forall_app. split.
    - eapply Forall_impl; [apply format_02d_chars|]. apply digit_allowed.
    - constructor; [reflexivity|].
      induction subject as [|c subject IH]; simpl; constructor;
        [apply safe_subject_char_allowed|exact IH]. }
  split; [reflexivity|]. split; [apply format_02d_nonneg|]. split; [exact Hall|].
  eapply Forall_impl; [exact Hall|]. apply allowed_not_separator.
Qed.
End Naming.

Lemma dir_name_safe_witness :
  0 <= 7 /\
  dir_name (posix sample_db) (U "a/b: c\d") 7 = U "07 a_b_ c_d" /\
  int_of_digits (format_02d 7) = 7.
Proof.
  split; [lia|]. split; [vm_compute; reflexivity|].
  exact (proj2 (proj2 (proj1 (proj2 (dir_name_safe (posix sample_db) (U "a/b: c\d") 7))
                             ltac:(lia)))).
Defined.

Example dir_name_unicode :
  dir_name (posix sample_db) (U "회의록 (2024/01) – v2") 12 = U "12 회의록 _2024_01_ _ v2".
Proof. vm_compute. reflexivity. Qed.

(** * Properties of the inline-image pattern *)

Section PatternFacts.
Context (pf : Platform).

Lemma span_all (f : N -> bool) (s a b : list N) :
  span f s = (a, b) -> Forall (fun c => f c = true) a.
Proof.
  revert a b. induction s as [|c s IH]; intros a b H; simpl in H.
  - injection H as <- <-. constructor.
  - destruct (f c) eqn:E.
    + destruct (span f s) as [a' b']. injection H as <- <-.
      constructor; [exact E|]. eapply IH. reflexivity.
    + injection H as <- <-. constructor.
Qed.

Lemma match_tail_groups (s w f rest : list N) :
  match_tail pf s = Some (w, f, rest) ->
  w <> [] /\ Forall (fun c => digit pf c = true) w /\
  f <> [] /\ Forall (fun c => digit pf c = true) f.
Proof.
  unfold match_tail. intros H.
  destruct (after_prefix lit_wikis s) as [s1|]; [|discriminate].
  destruct (span (digit pf) s1) as [w' s2] eqn:E2.
  destruct w' as [|d w']; [discriminate|].
  destruct (after_prefix lit_files s2) as [s3|]; [|discriminate].
  destruct (span (digit pf) s3) as [f' s4] eqn:E4.
  destruct f' as [|d' f']; [discriminate|].
  destruct (after_prefix lit_close s4) as [r|]; [|discriminate].
  injection H as <- <- <-.
  apply span_all in E2, E4. repeat split; try discriminate; assumption.
Qed.

Lemma match_alt_groups (s alt w f rest : list N) :
  match_alt pf s = Some (alt, w, f, rest) ->
  Forall (fun c => c <> 10%N) alt /\
  w <> [] /\ Forall (fun c => digit pf c = true) w /\
  f <> [] /\ Forall (fun c => digit pf c = true) f.
Proof.
  revert alt. induction s as [|c s IH]; intros alt H; rewrite match_alt_eq in H.
  - destruct (match_tail pf []) as [[[w' f'] r']|] eqn:E; [|discriminate].
    injection H as <- <- <- <-. split; [constructor|].
    eapply match_tail_groups, E.
  - destruct (match_tail pf (c :: s)) as [[[w' f'] r']|] eqn:E.
    + injection H as <- <- <- <-. split; [constructor|].
      eapply match_tail_groups, E.
    + destruct (N.eqb_spec c 10) as [|Hc]; [discriminate|].
      destruct (match_alt pf s) as [[[[alt' w'] f'] r']|] eqn:E'; [|discriminate].
      injection H as <- <- <- <-.
      destruct (IH alt' eq_refl) as (Halt & Hrest).
      split; [constructor; assumption|exact Hrest].
Qed.

(** What the matcher finds is an instance of the pattern, followed by the
    rest of the text. *)
Lemma match_here_groups (s alt w f rest : list N) :
  match_here pf s = Some (alt, w, f, rest) ->
  Forall (fun c => c <> 10%N) alt /\
  w <> [] /\ Forall (fun c => digit pf c = true) w /\
  f <> [] /\ Forall (fun c => digit pf c = true) f.
Proof.
  unfold match_here. intros H.
  destruct (after_prefix lit_bang_bracket s) as [s'|]; [|discriminate].
  eapply match_alt_groups, H.
Qed.

Lemma match_here_sound (s alt w f rest : list N) :
  match_here pf s = Some (alt, w, f, rest) ->
  s = markup alt w f ++ rest /\ inline_image pf (markup alt w f).
Proof.
  intros H. split; [apply (match_here_app pf), H|].
  apply match_here_groups in H as (? & ? & ? & ? & ?).
  exists alt, w, f. repeat split; assumption.
Qed.

Lemma after_prefix_here (p r : list N) : after_prefix p (p ++ r) = Some r.
Proof.
  induction p as [|a p IH]; simpl; [destruct r; reflexivity|].
  rewrite N.eqb_refl. exact IH.
Qed.

Lemma span_run (f : N -> bool) (a b : list N) :
  Forall (fun c => f c = true) a ->
  match b with [] => True | c :: _ => f c = false end ->
  span f (a ++ b) = (a, b).
Proof.
  intros Ha Hb. induction Ha as [|c a Hc _ IH]; simpl.
  - destruct b as [|c b]; [reflexivity|]. simpl. rewrite Hb. reflexivity.
  - rewrite Hc, IH. reflexivity.
Qed.

Lemma match_tail_complete (w f rest : list N) :
  w <> [] -> Forall (fun c => digit pf c = true) w ->
  f <> [] -> Forall (fun c => digit pf c = true) f ->
  match_tail pf (lit_wikis ++ w ++ lit_files ++ f ++ lit_close ++ rest)
  = Some (w, f, rest).
Proof.
  intros Hw Hdw Hf Hdf. unfold match_tail.
  rewrite after_prefix_here.
  rewrite (span_run _ w) by (assumption || reflexivity).
  destruct w as [|d w]; [congruence|].
  rewrite after_prefix_here.
  rewrite (span_run _ f) by (assumption || reflexivity).
  destruct f as [|d' f]; [congruence|].
  rewrite after_prefix_here. reflexivity.
Qed.

(** Conversely, where an instance of the pattern starts, the matcher
    finds a match. *)
Lemma match_here_complete (m rest : list N) :
  inline_image pf m -> is_Some (match_here pf (m ++ rest)).
Proof.
  intros (alt & w & f & Halt & Hw & Hdw & Hf & Hdf & ->).
  unfold match_here, markup. rewrite <- app_assoc, after_prefix_here.
  rewrite <- !app_assoc.
  induction Halt as [|c alt Hc _ IH]; cbn [app]; rewrite match_alt_eq.
  - rewrite match_tail_complete by assumption. eexists; reflexivity.
  - destruct (match_tail pf _) as [[[w' f'] r']|]; [eexists; reflexivity|].
    apply N.eqb_neq in Hc. rewrite Hc.
    destruct IH as [[[[alt' w'] f'] r'] ->]. eexists; reflexivity.
Qed.








Lemma scan_no_match (s : list N) :
  (forall pre s', s = pre ++ s' -> match_here pf s' = None) ->
  scan pf s = List.map Lit s.
Proof.
  induction s as [|c s IH]; intros H; rewrite scan_cases; [reflexivity|].
  rewrite (H [] (c :: s) eq_refl). simpl. f_equal.
  apply IH. intros pre s' ->. apply (H (c :: pre)). reflexivity.
Qed.

Lemma scan_without_images (s : list N) :
  (forall pre m post, s = pre ++ m ++ post -> ~ inline_image pf m) ->
  scan pf s = List.map Lit s.
Proof.
  intros H. apply scan_no_match. intros pre s' ->.
  destruct (match_here pf s') as [[[[alt w] f] rest]|] eqn:E; [|reflexivity].
  apply match_here_sound in E as [-> Him].
  exfalso. exact (H pre _ rest eq_refl Him).
Qed.
End PatternFacts.

(** * Properties of the content rewriter *)

Section Rewriter.
Context (pf : Platform) (env : Env).

Lemma replace_image_run (dir alt w f : list N) (s : Run) :
  exists s',
    replace_image pf env dir alt w f s
    = (Ok match browser env (fetches s) with
          | Fetched => image_link alt (image_name pf env alt f (clock s))
          | NoFile => download_failed_marker alt w f
          | Crashed => processing_error_marker alt w f
          end, s') /\
    page_counter s' = page_counter s /\
    trace s' = trace s ++ downloader_setup pf env (downloader s)
                 ++ [DownloadFile f (image_name pf env alt f (clock s)) true] /\
    clock s' = S (clock s) /\
    fetches s' = S (fetches s) /\
    downloader s' = true /\
    dirs s' = setup_dirs pf env (downloader s) ∪ dirs s.
Proof.
  unfold replace_image, ensure_downloader, SeleniumDownloader_init.
  unfold bind, now, try_except, set_downloader, makedirs, download_file,
    move_download, ret, image_name, downloader_setup, setup_dirs.
  cbn [downloader fetches clock trace dirs page_counter].
  destruct (downloader s) eqn:Ed; cbn [downloader fetches clock trace dirs page_counter];
    destruct (browser env (fetches s));
    cbn [downloader fetches clock trace dirs page_counter];
    eexists; (split; [reflexivity|]); cbn [downloader fetches clock trace dirs page_counter];
    rewrite <- ?app_assoc; try rewrite (left_id_L ∅ (∪)); repeat split; assumption.
Qed.

Lemma setup_before_made (dls : list event) : setup_before pf env true dls = [].
Proof. destruct dls; reflexivity. Qed.

Lemma re_sub_run (dir : list N) (ts : list token) (s : Run) :
  exists pieces s' dls,
    re_sub (replace_image pf env dir) ts s = (Ok (concat pieces), s') /\
    rewritten pf env (fetches s) (clock s) ts pieces /\
    page_counter s' = page_counter s /\
    trace s' = trace s ++ setup_before pf env (downloader s) dls ++ dls /\
    Forall is_inline_download dls /\
    downloader s' = downloader_after (downloader s) dls /\
    dirs s' = match dls with
              | [] => dirs s
              | _ :: _ => setup_dirs pf env (downloader s) ∪ dirs s
              end.
Proof.
  revert s. induction ts as [|[c|alt w f] ts IH]; intros s.
  - exists [], s, []. simpl. rewrite app_nil_r.
    repeat split; constructor.
  - destruct (IH s) as (ps & s' & dls & E & Hr & Hpc & Ht & Hev & Hdl & Hd).
    exists ([c] :: ps), s', dls. simpl. unfold bind. rewrite E.
    repeat split; try assumption. constructor. exact Hr.
  - destruct (replace_image_run dir alt w f s)
      as (s1 & E1 & Hpc1 & Ht1 & Hc1 & Hf1 & Hdl1 & Hd1).
    destruct (IH s1) as (ps & s' & dls & E & Hr & Hpc & Ht & Hev & Hdl & Hd).
    rewrite Hf1, Hc1 in Hr. rewrite Hdl1, setup_before_made in Ht.
    eexists (_ :: ps), s', (_ :: dls). simpl. unfold bind. rewrite E1, E.
    split; [reflexivity|]. split.
    { destruct (browser env (fetches s)) eqn:Eb;
        [apply rewritten_fetched|apply rewritten_no_file|apply rewritten_crashed];
        assumption. }
    split; [congruence|]. split.
    { rewrite Ht, Ht1, <- !app_assoc. reflexivity. }
    split; [constructor; [exact I|exact Hev]|].
    split; [rewrite Hdl, Hdl1; destruct dls; reflexivity|].
    rewrite Hd, Hdl1. destruct dls; [exact Hd1|].
    rewrite Hd1. cbn [setup_dirs]. apply (left_id_L ∅ (∪)).
Qed.

Lemma _process_inline_images_run (content page_path : list N) (s : Run) :
  exists pieces s' dls,
    _process_inline_images pf env content page_path s = (Ok (concat pieces), s') /\
    rewritten pf env (fetches s) (clock s) (scan pf content) pieces /\
    page_counter s' = page_counter s /\
    trace s' = trace s ++ MakeDirs (join pf page_path (U "images"))
                 :: setup_before pf env (downloader s) dls ++ dls /\
    Forall is_inline_download dls /\
    downloader s' = downloader_after (downloader s) dls /\
    dirs s' = match dls with
              | [] => {[ join pf page_path (U "images") ]} ∪ dirs s
              | _ :: _ => setup_dirs pf env (downloader s)
                            ∪ ({[ join pf page_path (U "images") ]} ∪ dirs s)
              end.
Proof.
  unfold _process_inline_images, bind, makedirs.
  match goal with
  | |- context [re_sub ?r ?ts ?s1] =>
      destruct (re_sub_run (join pf page_path (U "images")) ts s1)
        as (ps & s' & dls & E & Hr & Hpc & Ht & Hev & Hdl & Hd)
  end.
  exists ps, s', dls. rewrite E. simpl in *.
  rewrite Ht, <- app_assoc. repeat split; assumption.
Qed.

Lemma rewritten_lits (k t : nat) (s : list N) (ps : list (list N)) :
  rewritten pf env k t (List.map Lit s) ps -> concat ps = s.
Proof.
  revert ps. induction s as [|c s IH]; intros ps H; inversion H; subst; simpl.
  - reflexivity.
  - f_equal. apply IH. assumption.
Qed.

(** C5: on a content no part of which is an instance of the inline-image
    pattern, the rewriter returns the content as it is. *)
Theorem rewrite_without_images_is_identity (content page_path : list N) (s : Run) :
  (forall pre m post, content = pre ++ m ++ post -> ~ inline_image pf m) ->
  (_process_inline_images pf env content page_path s).1 = Ok content.
Proof.
  intros H.
  destruct (_process_inline_images_run content page_path s)
    as (ps & s' & evs & E & Hr & _).
  rewrite (scan_without_images pf content H) in Hr.
  apply rewritten_lits in Hr. rewrite E, Hr. reflexivity.
Qed.

End Rewriter.

Lemma tails_suffix (pre s : list N) : In s (tails (pre ++ s)).
Proof.
  induction pre as [|c pre IH]; simpl.
  - destruct s; simpl; auto.
  - right. exact IH.
Qed.

(** A text has no instance of the pattern as soon as no match starts at any
    of its positions, which can be computed. *)
Lemma no_match_no_image (pf : Platform) (content : list N) :
  forallb (fun s => match match_here pf s with None => true | Some _ => false end)
          (tails content) = true ->
  forall pre m post, content = pre ++ m ++ post -> ~ inline_image pf m.
Proof.
  intros Hc pre m post -> Him.
  rewrite forallb_forall in Hc. specialize (Hc _ (tails_suffix pre (m ++ post))).
  destruct (match_here_complete pf m post Him) as [x Hx].
  rewrite Hx in Hc. discriminate.
Qed.


Lemma rewrite_without_images_is_identity_witness :
  (forall pre m post,
      U "# Home![logo](https://example.com/wikis/1/files/2.png) ok" = pre ++ m ++ post ->
      ~ inline_image (posix sample_db) m) /\
  (_process_inline_images (posix sample_db) sample_env
     (U "# Home![logo](https://example.com/wikis/1/files/2.png) ok")
     (U "/backups/01 PRJ") (start (sample_mgr 5))).1
  = Ok (U "# Home![logo](https://example.com/wikis/1/files/2.png) ok").
Proof.
  assert (H : forall pre m post,
             U "# Home![logo](https://example.com/wikis/1/files/2.png) ok" = pre ++ m ++ post ->
             ~ inline_image (posix sample_db) m)
    by (apply no_match_no_image; vm_compute; reflexivity).
  split; [exact H|].
  exact (rewrite_without_images_is_identity (posix sample_db) sample_env _ _ _ H).
Defined.

(** The examples of the specification: the download of the first image
    returns no file, the second succeeds, the third raises. *)
Example rewrite_three_images :
  (_process_inline_images (posix sample_db) sample_env
     (U "see ![diagram](/wikis/10/files/20), ![a b.png](/wikis/10/files/21) and ![](/wikis/10/files/22).")
     (U "/backups/01 PRJ") (start (sample_mgr 5))).1
  = Ok (U "see ![diagram] (다운로드 실패 - Wiki ID: 10, File ID: 20), ![a b.png](images/a_b_20240101_120000_000001.png) and ![] (처리 오류 - Wiki ID: 10, File ID: 22).").
Proof. vm_compute. reflexivity. Qed.

(** * Properties of the file names of inline images *)

Lemma rfind_absent (c : N) (p : list N) :
  Forall (fun x => x <> c) p -> rfind c p = -1.
Proof.
  induction 1 as [|x p Hx _ IH]; simpl; [reflexivity|].
  rewrite IH. apply N.eqb_neq in Hx. rewrite Hx. reflexivity.
Qed.

Lemma rfind_app (c : N) (a b : list N) :
  0 <= rfind c b -> rfind c (a ++ b) = Z.of_nat (length a) + rfind c b.
Proof.
  intros Hb. induction a as [|x a IH]; simpl rfind; simpl length.
  - simpl. lia.
  - rewrite IH. destruct (Z.leb_spec 0 (Z.of_nat (length a) + rfind c b)); lia.
Qed.

Section ImageNames.
Context (pf : Platform) (env : Env).

Lemma lstrip_blank (s : list N) :
  Forall (fun c => isspace (unicode pf) c = true) s -> lstrip pf s = [].
Proof. induction 1 as [|c s Hc _ IH]; simpl; [|rewrite Hc]; auto. Qed.

Lemma strip_blank (s : list N) :
  Forall (fun c => isspace (unicode pf) c = true) s -> strip pf s = [].
Proof. intros H. unfold strip. rewrite (lstrip_blank s H). reflexivity. Qed.

Lemma digit_plain (c : N) :
  digit pf c = true -> c <> 46%N /\ c <> 47%N /\ c <> 92%N.
Proof. intros H. repeat split; intros ->; vm_compute in H; discriminate. Qed.

Lemma digit_safe (c : N) : digit pf c = true -> safe_name_char pf c = c.
Proof.
  intros H. unfold safe_name_char, isalnum. unfold digit in H. rewrite H.
  rewrite orb_true_r. reflexivity.
Qed.

Lemma digits_safe (f : list N) :
  Forall (fun c => digit pf c = true) f -> List.map (safe_name_char pf) f = f.
Proof.
  induction 1 as [|c f Hc _ IH]; simpl; [reflexivity|].
  rewrite (digit_safe c Hc), IH. reflexivity.
Qed.

Lemma splitext_image (f : list N) :
  Forall (fun c => digit pf c = true) f ->
  splitext pf (lit_image_ ++ f ++ lit_png) = (lit_image_ ++ f, lit_png).
Proof.
  intros Hf.
  assert (Hplain : forall c, c = 47%N \/ c = 92%N ->
                             rfind c (lit_image_ ++ f ++ lit_png) = -1).
  { intros c Hc. apply rfind_absent. rewrite !Forall_app. repeat split.
    - destruct Hc as [-> | ->]; repeat constructor; discriminate.
    - eapply Forall_impl; [exact Hf|]. intros x Hx.
      destruct (digit_plain x Hx) as (_ & ? & ?). destruct Hc as [-> | ->]; assumption.
    - destruct Hc as [-> | ->]; repeat constructor; discriminate. }
  assert (Hdot : rfind 46 (lit_image_ ++ f ++ lit_png)
                 = Z.of_nat (length (lit_image_ ++ f))).
  { rewrite app_assoc, rfind_app; [simpl rfind; lia|simpl; lia]. }
  unfold splitext, _splitext. rewrite Hdot.
  assert (Hsep : match os_altsep pf with
                 | Some a => Z.max (rfind (os_sep pf) (lit_image_ ++ f ++ lit_png))
                                   (rfind a (lit_image_ ++ f ++ lit_png))
                 | None => rfind (os_sep pf) (lit_image_ ++ f ++ lit_png)
                 end = -1).
  { unfold os_sep, os_altsep. destruct (os pf); rewrite ?Hplain by auto; reflexivity. }
  rewrite Hsep.
  destruct (Z.ltb_spec (-1) (Z.of_nat (length (lit_image_ ++ f)))); [|lia].
  unfold slice. rewrite Nat2Z.id. change (Z.to_nat (-1 + 1)) with 0%nat.
  rewrite drop_0, Nat.sub_0_r.
  rewrite (app_assoc lit_image_ f lit_png).
  rewrite take_app_length, drop_app_length. reflexivity.
Qed.

(** C10: for a match whose alt text is empty or all whitespace, the file
    is stored as [image_<file id>_<timestamp>.png]: this is the name the
    downloader is called with, whatever it answers, once it is made, and
    the name in the rewritten link when the download succeeds. *)
Theorem blank_alt_image_name (s alt w f rest dir : list N) (st : Run) :
  match_here pf s = Some (alt, w, f, rest) ->
  Forall (fun c => isspace (unicode pf) c = true) alt ->
  let name := lit_image_ ++ f ++ 95%N :: strftime_now env (clock st) ++ lit_png in
  image_name pf env alt f (clock st) = name /\
  trace (replace_image pf env dir alt w f st).2
  = trace st ++ downloader_setup pf env (downloader st) ++ [DownloadFile f name true] /\
  (browser env (fetches st) = Fetched ->
   (replace_image pf env dir alt w f st).1 = Ok (image_link alt name)).
Proof.
  intros Hm Hblank name.
  apply match_here_groups in Hm as (_ & _ & _ & _ & Hdf).
  assert (Hname : image_name pf env alt f (clock st) = name).
  { unfold image_name, original_filename, unique_filename.
    rewrite (strip_blank alt Hblank), (splitext_image f Hdf).
    rewrite map_app, (digits_safe f Hdf). subst name.
    rewrite <- app_assoc. reflexivity. }
  destruct (replace_image_run pf env dir alt w f st) as (s' & E & _ & Ht & _).
  rewrite E. simpl. rewrite Ht, Hname. split; [reflexivity|].
  split; [reflexivity|]. intros ->. reflexivity.
Qed.
End ImageNames.

Lemma blank_alt_image_name_witness :
  match_here (posix sample_db) (U "![  ](/wikis/10/files/20) tail")
  = Some (U "  ", U "10", U "20", U " tail") /\
  Forall (fun c => isspace sample_db c = true) (U "  ") /\
  image_name (posix sample_db) sample_env (U "  ") (U "20") 0
  = U "image_20_20240101_120000_000000.png".
Proof.
  assert (Hm : match_here (posix sample_db) (U "![  ](/wikis/10/files/20) tail")
               = Some (U "  ", U "10", U "20", U " tail")) by (vm_compute; reflexivity).
  assert (Hb : Forall (fun c => isspace (unicode (posix sample_db)) c = true) (U "  "))
    by (repeat constructor).
  split; [exact Hm|]. split; [exact Hb|].
  exact (proj1 (blank_alt_image_name (posix sample_db) sample_env _ _ _ _ _
                  (U "/backups/01 PRJ/images") (start (sample_mgr 5)) Hm Hb)).
Defined.

(** * Properties of the page writer *)

Lemma setup_is_media (pf : Platform) (env : Env) (d : bool) :
  Forall is_media_event (downloader_setup pf env d).
Proof. destruct d; repeat constructor. Qed.

Lemma setup_before_is_media (pf : Platform) (env : Env) (d : bool) (dls : list event) :
  Forall is_media_event (setup_before pf env d dls).
Proof. destruct dls; [constructor|apply setup_is_media]. Qed.

Lemma inline_is_media (evs : list event) :
  Forall is_inline_download evs -> Forall is_media_event evs.
Proof.
  intros H. eapply Forall_impl; [exact H|].
  intros [| | | f n [|] | |]; simpl; tauto.
Qed.

Lemma attachment_is_media (evs : list event) :
  Forall is_attachment_download evs -> Forall is_media_event evs.
Proof.
  intros H. eapply Forall_impl; [exact H|].
  intros [| | | f n [|] | |]; simpl; tauto.
Qed.

Section PageWriter.
Context (pf : Platform) (env : Env).

Lemma attachment_line_run (dir : list N) (file : FileDesc) (s : Run) :
  exists line s' name,
    attachment_line pf env dir file s = (Ok line, s') /\
    page_counter s' = page_counter s /\
    trace s' = trace s ++ [DownloadFile (file_id file) name false] /\
    downloader s' = downloader s /\
    dirs s' = dirs s.
Proof.
  unfold attachment_line, try_except, bind, now, download_file, move_download, ret.
  simpl. destruct (browser env (fetches s)); simpl;
    do 3 eexists; repeat split.
Qed.

Lemma attachment_lines_run (dir : list N) (files : list FileDesc) (s : Run) :
  exists lines s' evs,
    mapM (attachment_line pf env dir) files s = (Ok lines, s') /\
    length lines = length files /\
    page_counter s' = page_counter s /\
    trace s' = trace s ++ evs /\
    Forall is_attachment_download evs /\
    List.map download_of evs = List.map (fun f => Some (file_id f)) files /\
    downloader s' = downloader s /\
    dirs s' = dirs s.
Proof.
  revert s. induction files as [|file files IH]; intros s.
  - exists [], s, []. simpl. rewrite app_nil_r. repeat split. constructor.
  - destruct (attachment_line_run dir file s)
      as (line & s1 & name & E1 & Hpc1 & Ht1 & Hf1 & Hd1).
    destruct (IH s1) as (lines & s' & evs & E & Hlen & Hpc & Ht & Hev & Hdl & Hf & Hd).
    exists (line :: lines), s', (DownloadFile (file_id file) name false :: evs).
    simpl. unfold bind. rewrite E1, E. simpl.
    split; [reflexivity|]. split; [congruence|]. split; [congruence|].
    split; [rewrite Ht, Ht1, <- app_assoc; reflexivity|].
    split; [constructor; [exact I|exact Hev]|].
    split; [congruence|]. split; congruence.
Qed.

Lemma _process_attachments_run (files : list FileDesc) (page_path : list N) (s : Run) :
  files <> [] ->
  exists lines s' downloads,
    _process_attachments pf env files page_path s = (Ok lines, s') /\
    lines <> [] /\
    page_counter s' = page_counter s /\
    trace s' = trace s ++ MakeDirs (attachments_dir pf page_path)
                 :: downloader_setup pf env (downloader s) ++ downloads /\
    Forall is_attachment_download downloads /\
    List.map download_of downloads = List.map (fun f => Some (file_id f)) files /\
    attachments_dir pf page_path ∈ dirs s'.
Proof.
  intros Hne. destruct files as [|file files]; [congruence|].
  unfold _process_attachments.
  assert (Hmk : exists s1,
             bind (makedirs (join pf page_path (U "attachments")))
                  (fun _ => ensure_downloader pf env) s = (Ok tt, s1) /\
             page_counter s1 = page_counter s /\
             trace s1 = trace s ++ MakeDirs (attachments_dir pf page_path)
                          :: downloader_setup pf env (downloader s) /\
             attachments_dir pf page_path ∈ dirs s1).
  { unfold ensure_downloader, SeleniumDownloader_init.
    unfold bind, makedirs, set_downloader, downloader_setup, attachments_dir.
    cbn [downloader trace dirs page_counter].
    destruct (downloader s); cbn [downloader trace dirs page_counter];
      eexists; (split; [reflexivity|]); cbn [downloader trace dirs page_counter];
      rewrite <- ?app_assoc; (split; [reflexivity|]); (split; [reflexivity|]);
      set_solver. }
  destruct Hmk as (s1 & E1 & Hpc1 & Ht1 & Hd1).
  destruct (attachment_lines_run (attachments_dir pf page_path) (file :: files) s1)
    as (lines & s' & evs & E & Hlen & Hpc & Ht & Hev & Hdl & _ & Hd).
  exists lines, s', evs.
  unfold bind in E1 |- *.
  destruct (makedirs (join pf page_path (U "attachments")) s) as [[[]| |] s0];
    try discriminate.
  rewrite E1. fold (attachments_dir pf page_path). rewrite E.
  split; [reflexivity|]. split; [destruct lines; [discriminate|congruence]|].
  split; [congruence|].
  split; [rewrite Ht, Ht1, <- app_assoc; reflexivity|].
  split; [exact Hev|]. split; [exact Hdl|]. rewrite Hd. exact Hd1.
Qed.

(** One page written: the rewriter, the attachments, then the two files.
    The downloader is made on the way, before the first download of the run
    that needs it. *)
Lemma _save_page_run (page_data : Page) (content_data : PageContent)
      (page_path : list N) (s : Run) :
  exists out s1 lines s' inline downloads,
    _process_inline_images pf env (heading_and_body page_data content_data) page_path s
    = (Ok out, s1) /\
    _save_page pf env page_data content_data page_path s = (Ok tt, s') /\
    page_counter s' = page_counter s /\
    Forall is_inline_download inline /\
    Forall is_attachment_download downloads /\
    List.map download_of downloads
    = List.map (fun f => Some (file_id f)) (content_files content_data) /\
    match content_files content_data with
    | [] =>
        lines = [] /\
        trace s' = trace s ++ MakeDirs (images_dir pf page_path)
                     :: setup_before pf env (downloader s) inline ++ inline
                     ++ page_files pf page_data content_data page_path out /\
        (forall d, d ∈ dirs s' ->
                   d ∈ dirs s \/ d = images_dir pf page_path \/ d = downloads_dir pf env)
    | _ :: _ =>
        lines <> [] /\
        trace s' = trace s ++ MakeDirs (images_dir pf page_path)
                     :: setup_before pf env (downloader s) inline ++ inline
                     ++ MakeDirs (attachments_dir pf page_path)
                     :: downloader_setup pf env (downloader_after (downloader s) inline)
                     ++ downloads
                     ++ page_files pf page_data content_data page_path
                          (out ++ lit_attachments_heading ++ concat lines) /\
        attachments_dir pf page_path ∈ dirs s'
    end.
Proof.
  destruct (_process_inline_images_run pf env (heading_and_body page_data content_data)
              page_path s) as (ps & s1 & evs1 & E1 & _ & Hpc1 & Ht1 & Hev1 & Hdl1 & Hd1).
  exists (concat ps), s1.
  destruct (content_files content_data) as [|file files] eqn:Ef.
  - exists []. eexists. exists evs1, [].
    split; [exact E1|].
    unfold _save_page. fold (heading_and_body page_data content_data).
    unfold bind at 1. rewrite E1. rewrite Ef.
    unfold _process_attachments, bind, ret, write_file. simpl.
    split; [reflexivity|]. split; [exact Hpc1|]. split; [exact Hev1|].
    split; [constructor|]. split; [reflexivity|]. split; [reflexivity|].
    split.
    + cbn [trace]. rewrite Ht1. unfold page_files, metadata_of, images_dir.
      rewrite Ef. repeat (rewrite <- app_assoc || rewrite <- app_comm_cons).
      reflexivity.
    + intros d Hd. cbn [dirs] in Hd. rewrite Hd1 in Hd. unfold images_dir, setup_dirs in *.
      destruct evs1; [|destruct (downloader s)]; set_solver.
  - destruct (_process_attachments_run (file :: files) page_path s1 ltac:(discriminate))
      as (lines & s2 & dl & E2 & Hl & Hpc2 & Ht2 & Hev2 & Hdl2 & Hd2).
    exists lines. eexists. exists evs1, dl.
    split; [exact E1|].
    unfold _save_page. fold (heading_and_body page_data content_data).
    unfold bind at 1. rewrite E1. rewrite Ef.
    unfold bind at 1. rewrite E2.
    unfold bind, ret, write_file. simpl.
    split; [reflexivity|]. split; [simpl; congruence|]. split; [exact Hev1|].
    split; [exact Hev2|]. split; [exact Hdl2|]. split; [exact Hl|].
    split; [|exact Hd2].
    cbn [trace dirs].
    rewrite Ht2, Ht1, Hdl1. unfold page_files, metadata_of, images_dir. rewrite Ef.
    destruct lines as [|l lines]; [congruence|].
    repeat (rewrite <- app_assoc || rewrite <- app_comm_cons). reflexivity.
Qed.

(** What the writing of a page adds to the trace: directories made and
    downloads, then the two files. *)
Lemma _save_page_events (page_data : Page) (content_data : PageContent)
      (page_path : list N) (s : Run) :
  exists s' media text,
    _save_page pf env page_data content_data page_path s = (Ok tt, s') /\
    page_counter s' = page_counter s /\
    trace s' = trace s ++ media
                 ++ page_files pf page_data content_data page_path text /\
    Forall is_media_event media.
Proof.
  destruct (_save_page_run page_data content_data page_path s)
    as (out & s1 & lines & s' & inline & dl & _ & E & Hpc & Hin & Hdl & _ & H).
  exists s'.
  assert (Hm1 : Forall is_media_event
                  (MakeDirs (images_dir pf page_path)
                     :: setup_before pf env (downloader s) inline ++ inline)).
  { constructor; [exact I|]. apply Forall_app. split.
    - apply setup_before_is_media.
    - apply inline_is_media, Hin. }
  destruct (content_files content_data) as [|file files]; destruct H as (_ & Ht & _).
  - exists (MakeDirs (images_dir pf page_path)
              :: setup_before pf env (downloader s) inline ++ inline), out.
    split; [exact E|]. split; [exact Hpc|]. split; [|exact Hm1].
    rewrite Ht. repeat (rewrite <- app_assoc || rewrite <- app_comm_cons). reflexivity.
  - eexists ((MakeDirs (images_dir pf page_path)
                :: setup_before pf env (downloader s) inline ++ inline)
             ++ MakeDirs (attachments_dir pf page_path)
                :: downloader_setup pf env (downloader_after (downloader s) inline)
                ++ dl), _.
    split; [exact E|]. split; [exact Hpc|]. split.
    + rewrite Ht. repeat (rewrite <- app_assoc || rewrite <- app_comm_cons).
      reflexivity.
    + apply Forall_app. split; [exact Hm1|].
      constructor; [exact I|]. apply Forall_app. split.
      * apply setup_is_media.
      * apply attachment_is_media, Hdl.
Qed.

(** C8, as the code has it: on a file system that lets the directories
    be made and the files be written, a page is written without raising;
    when it has attachments, the directory [attachments] is made after the
    inline images and before the first attachment is asked from the
    downloader, and it is there when the page is written; when it has no
    attachments, no such directory is made.  In both cases the downloads
    directory is made with the downloader, before the first download of the
    run that needs it. *)
Theorem attachments_dir_made_for_files (page_data : Page) (content_data : PageContent)
        (page_path : list N) (s : Run) :
  exists s' inline downloads text,
    _save_page pf env page_data content_data page_path s = (Ok tt, s') /\
    Forall is_inline_download inline /\
    Forall is_attachment_download downloads /\
    List.map download_of downloads
    = List.map (fun f => Some (file_id f)) (content_files content_data) /\
    (content_files content_data <> [] ->
     trace s' = trace s ++ MakeDirs (images_dir pf page_path)
                  :: setup_before pf env (downloader s) inline ++ inline
                  ++ MakeDirs (attachments_dir pf page_path)
                  :: downloader_setup pf env (downloader_after (downloader s) inline)
                  ++ downloads
                  ++ page_files pf page_data content_data page_path text /\
     attachments_dir pf page_path ∈ dirs s') /\
    (content_files content_data = [] ->
     trace s' = trace s ++ MakeDirs (images_dir pf page_path)
                  :: setup_before pf env (downloader s) inline ++ inline
                  ++ page_files pf page_data content_data page_path text /\
     (attachments_dir pf page_path ∈ dirs s' ->
      attachments_dir pf page_path ∈ dirs s
      \/ attachments_dir pf page_path = images_dir pf page_path
      \/ attachments_dir pf page_path = downloads_dir pf env)).
Proof.
  destruct (_save_page_run page_data content_data page_path s)
    as (out & s1 & lines & s' & inline & dl & _ & E & _ & Hin & Hdl & Hids & H).
  exists s', inline, dl.
  destruct (content_files content_data) as [|file files].
  - destruct H as (_ & Ht & Hd). exists out.
    split; [exact E|]. split; [exact Hin|]. split; [exact Hdl|]. split; [exact Hids|].
    split; [congruence|]. intros _. split; [exact Ht|]. apply Hd.
  - destruct H as (_ & Ht & Hd). eexists.
    split; [exact E|]. split; [exact Hin|]. split; [exact Hdl|]. split; [exact Hids|].
    split; [|discriminate]. intros _. split; [exact Ht|exact Hd].
Qed.

Lemma written_contents_app (a b : list event) :
  written_contents (a ++ b) = written_contents a ++ written_contents b.
Proof.
  induction a as [|e a IH]; [reflexivity|].
  destruct e as [| | | | p [t|m|f] |]; simpl; rewrite IH; reflexivity.
Qed.

Lemma written_contents_media (evs : list event) :
  Forall is_media_event evs -> written_contents evs = [].
Proof.
  induction 1 as [|e evs He _ IH]; [reflexivity|].
  destruct e; simpl in *; try contradiction; exact IH.
Qed.

(** Without attachments the text written to content.md is what the
    rewriter returns for the heading line followed by the body. *)
Lemma content_without_files (page_data : Page)
        (content_data : PageContent) (page_path : list N) (s : Run) :
  content_files content_data = [] ->
  exists out s1 s',
    _process_inline_images pf env
      (U "# " ++ page_subject page_data ++ 10%N :: 10%N :: body_content content_data)
      page_path s = (Ok out, s1) /\
    _save_page pf env page_data content_data page_path s = (Ok tt, s') /\
    written_contents (trace s')
    = written_contents (trace s) ++ [(join pf page_path (U "content.md"), out)].
Proof.
  intros Hf.
  destruct (_save_page_run page_data content_data page_path s)
    as (out & s1 & lines & s' & inline & dl & E1 & E & _ & Hin & _ & _ & H).
  rewrite Hf in H. destruct H as (_ & Ht & _).
  exists out, s1, s'. split; [exact E1|]. split; [exact E|].
  rewrite Ht, written_contents_app. f_equal.
  change (MakeDirs (images_dir pf page_path)
            :: setup_before pf env (downloader s) inline ++ inline
            ++ page_files pf page_data content_data page_path out)
    with ([MakeDirs (images_dir pf page_path)]
            ++ setup_before pf env (downloader s) inline ++ inline
            ++ page_files pf page_data content_data page_path out).
  rewrite !written_contents_app.
  rewrite (written_contents_media (setup_before pf env (downloader s) inline))
    by apply setup_before_is_media.
  rewrite (written_contents_media inline) by (apply inline_is_media, Hin).
  reflexivity.
Qed.
End PageWriter.

(** The home page of the sample wiki has no attachments: after it is
    written there is no [attachments] directory. *)
Lemma attachments_dir_missing_without_files :
  content_files (sample_content (U "100")) = [] /\
  attachments_dir (posix sample_db) (U "/backups/20240101_120000/01 PRJ")
  ∉ dirs (_save_page (posix sample_db) sample_env page_A (sample_content (U "100"))
            (U "/backups/20240101_120000/01 PRJ") (start (sample_mgr 5))).2.
Proof.
  split; [reflexivity|].
  vm_compute. intros H. discriminate H.
Qed.

Lemma attachments_dir_made_for_files_witness :
  content_files (sample_content (U "200")) <> [] /\
  exists s',
    _save_page (posix sample_db) sample_env page_B (sample_content (U "200"))
      (U "/backups/20240101_120000/01 PRJ/01 Design_Notes") (start (sample_mgr 5))
    = (Ok tt, s') /\
    U "/backups/20240101_120000/01 PRJ/01 Design_Notes/attachments" ∈ dirs s'.
Proof.
  assert (H : content_files (sample_content (U "200")) <> []) by discriminate.
  split; [exact H|].
  destruct (attachments_dir_made_for_files (posix sample_db) sample_env page_B
              (sample_content (U "200"))
              (U "/backups/20240101_120000/01 PRJ/01 Design_Notes")
              (start (sample_mgr 5)))
    as (s' & inline & dl & text & E & _ & _ & _ & Hsome & _).
  exists s'. split; [exact E|]. exact (proj2 (Hsome H)).
Defined.

(** A page whose title is an inline image: the heading line of content.md
    is not the title any more, while the body alone would come back from the
    rewriter as it is. *)
Lemma heading_is_rewritten_too :
  content_files content_logo = [] /\
  written_contents
    (trace (_save_page (posix sample_db) sample_env page_logo content_logo
              (U "/backups/01 PRJ/03 logo") (start (sample_mgr 5))).2)
  = [(U "/backups/01 PRJ/03 logo/content.md",
      U "# ![logo] (다운로드 실패 - Wiki ID: 1, File ID: 2)" ++ 10%N :: 10%N :: U "text")] /\
  (_process_inline_images (posix sample_db) sample_env (body_content content_logo)
     (U "/backups/01 PRJ/03 logo") (start (sample_mgr 5))).1 = Ok (U "text") /\
  U "# ![logo] (다운로드 실패 - Wiki ID: 1, File ID: 2)" ++ 10%N :: 10%N :: U "text"
  <> U "# " ++ page_subject page_logo ++ 10%N :: 10%N :: U "text".
Proof.
  split; [reflexivity|]. split; [vm_compute; reflexivity|].
  split; [vm_compute; reflexivity|]. vm_compute. discriminate.
Qed.

(** * Properties of the traversal *)

Lemma api_calls_app (a b : list event) : api_calls (a ++ b) = api_calls a ++ api_calls b.
Proof. apply List.filter_app. Qed.

Lemma saved_pages_app (a b : list event) :
  saved_pages (a ++ b) = saved_pages a ++ saved_pages b.
Proof.
  induction a as [|e a IH]; [reflexivity|].
  destruct e as [| | | | p [t|m|f] |]; simpl; rewrite IH; reflexivity.
Qed.

Lemma api_calls_media (evs : list event) :
  Forall is_media_event evs -> api_calls evs = [].
Proof.
  induction 1 as [|e evs He _ IH]; [reflexivity|].
  destruct e; simpl in *; try contradiction; exact IH.
Qed.

Lemma saved_pages_media (evs : list event) :
  Forall is_media_event evs -> saved_pages evs = [].
Proof.
  induction 1 as [|e evs He _ IH]; [reflexivity|].
  destruct e; simpl in *; try contradiction; exact IH.
Qed.

Lemma bind_ok {A B : Type} (m : M A) (k : A -> M B) (s s' : Run) (a : A) :
  m s = (Ok a, s') -> bind m k s = k a s'.
Proof. intros H. unfold bind. rewrite H. reflexivity. Qed.

Section Traversal.
Context (pf : Platform) (env : Env).

Lemma get_pages_step (parent : option (list N)) (pages : list Page) (s : Run) :
  srv_pages env (api_param parent) = Reply pages ->
  exists s',
    get_pages env parent s = (Ok pages, s') /\
    page_counter s' = page_counter s /\
    trace s' = trace s ++ [ApiGetPages (api_param parent)].
Proof.
  intros H. unfold get_pages, bind, emit. fold (api_param parent). rewrite H.
  eexists. repeat split.
Qed.

Lemma get_page_content_step (page : list N) (c : PageContent) (s : Run) :
  srv_page_content env page = Reply c ->
  exists s',
    get_page_content env page s = (Ok c, s') /\
    page_counter s' = page_counter s /\
    trace s' = trace s ++ [ApiGetPageContent page].
Proof.
  intros H. unfold get_page_content, bind, emit. rewrite H.
  eexists. repeat split.
Qed.

Lemma _create_numbered_dir_step (base subject : list N) (number : Z) (s : Run) :
  exists s',
    _create_numbered_dir pf base subject number s
    = (Ok (join pf base (dir_name pf subject number)), s') /\
    page_counter s' = page_counter s /\
    trace s' = trace s ++ [MakeDirs (join pf base (dir_name pf subject number))].
Proof. unfold _create_numbered_dir, bind, makedirs, ret. eexists. repeat split. Qed.

Lemma with_counter_step {A : Type} (f : PageCounter -> A * PageCounter) (s : Run) :
  exists s',
    with_counter f s = (Ok (f (page_counter s)).1, s') /\
    page_counter s' = (f (page_counter s)).2 /\
    trace s' = trace s.
Proof.
  unfold with_counter. destruct (f (page_counter s)) as [a pc].
  eexists. repeat split.
Qed.

Lemma _save_page_step (page_data : Page) (content_data : PageContent)
      (page_path : list N) (s : Run) :
  exists s' evs,
    _save_page pf env page_data content_data page_path s = (Ok tt, s') /\
    page_counter s' = page_counter s /\
    trace s' = trace s ++ evs /\
    api_calls evs = [] /\
    saved_pages evs = [(page_id page_data, join pf page_path (U "metadata.json"))] /\
    List.map fst (written_contents evs) = [join pf page_path (U "content.md")].
Proof.
  destruct (_save_page_events pf env page_data content_data page_path s)
    as (s' & media & text & E & Hpc & Ht & Hm).
  exists s', (media ++ page_files pf page_data content_data page_path text).
  split; [exact E|]. split; [exact Hpc|]. split; [exact Ht|].
  rewrite api_calls_app, saved_pages_app, written_contents_app.
  rewrite api_calls_media, saved_pages_media, written_contents_media by exact Hm.
  repeat split.
Qed.

(** The guard at the head of backup_recursive. *)
Lemma backup_recursive_closed (fuel : nat) (parent : option (list N))
      (base : list N) (s : Run) :
  limit (page_counter s) <= count (page_counter s) ->
  limit (page_counter s) <> -1 ->
  backup_recursive pf env (S fuel) parent base s = (Ok tt, s).
Proof.
  intros Hle Hne. cbn [backup_recursive]. unfold bind, read_counter.
  apply Z.leb_le in Hle. apply Z.eqb_neq in Hne. rewrite Hle, Hne. reflexivity.
Qed.

Lemma backup_recursive_open (fuel : nat) (parent : option (list N))
      (base : list N) (s : Run) :
  count (page_counter s) < limit (page_counter s) \/ limit (page_counter s) = -1 ->
  backup_recursive pf env (S fuel) parent base s
  = bind (get_pages env parent)
         (each_page pf env (backup_recursive pf env fuel) parent base) s.
Proof.
  intros H. cbn [backup_recursive]. unfold bind at 1. unfold read_counter.
  replace ((limit (page_counter s) <=? count (page_counter s))
           && negb (limit (page_counter s) =? -1)) with false; [reflexivity|].
  symmetry. destruct H as [H|H].
  - apply Z.leb_gt in H. rewrite H. reflexivity.
  - rewrite H, andb_false_r. reflexivity.
Qed.

(** A page the quota refuses ends the loop over its siblings; the count
    has grown all the same. *)
Lemma each_page_refused (recur : option (list N) -> list N -> M unit)
      (parent : option (list N)) (base : list N) (page : Page) (more : list Page)
      (s : Run) :
  (increment (page_counter s)).1 = false ->
  exists s',
    each_page pf env recur parent base (page :: more) s = (Ok tt, s') /\
    page_counter s' = (increment (page_counter s)).2 /\
    trace s' = trace s.
Proof.
  intros H. cbn [each_page].
  destruct (with_counter_step increment s) as (s1 & E1 & P1 & T1).
  rewrite (bind_ok _ _ _ _ _ E1), H. exists s1. repeat split; assumption.
Qed.

(** A page within the quota is numbered, written, and its children are
    walked before the next sibling. *)
Lemma each_page_accepted (recur : option (list N) -> list N -> M unit)
      (parent : option (list N)) (base : list N) (page : Page) (more : list Page)
      (c : PageContent) (s : Run) :
  (increment (page_counter s)).1 = true ->
  srv_page_content env (page_id page) = Reply c ->
  exists s' evs path,
    each_page pf env recur parent base (page :: more) s
    = bind (recur (Some (page_id page)) path)
           (fun _ => each_page pf env recur parent base more) s' /\
    page_counter s'
    = (get_next_number (counter_key parent) (increment (page_counter s)).2).2 /\
    trace s' = trace s ++ evs /\
    api_calls evs = [ApiGetPageContent (page_id page)] /\
    List.map fst (saved_pages evs) = [page_id page] /\
    length (written_contents evs) = 1%nat.
Proof.
  intros H Hc. cbn [each_page].
  destruct (with_counter_step increment s) as (s1 & E1 & P1 & T1).
  rewrite (bind_ok _ _ _ _ _ E1), H. cbn [negb].
  destruct (with_counter_step (get_next_number (counter_key parent)) s1)
    as (s2 & E2 & P2 & T2).
  rewrite (bind_ok _ _ _ _ _ E2).
  destruct (_create_numbered_dir_step base (page_subject page)
              (get_next_number (counter_key parent) (page_counter s1)).1 s2)
    as (s3 & E3 & P3 & T3).
  rewrite (bind_ok _ _ _ _ _ E3).
  destruct (get_page_content_step _ _ s3 Hc) as (s4 & E4 & P4 & T4).
  rewrite (bind_ok _ _ _ _ _ E4).
  match goal with
  | |- context [_save_page pf env page c ?p] =>
      destruct (_save_page_step page c p s4) as (s5 & evs & E5 & P5 & T5 & Ha & Hs & Hw);
      rewrite (bind_ok _ _ _ _ _ E5);
      exists s5, ([MakeDirs p; ApiGetPageContent (page_id page)] ++ evs), p
  end.
  split; [reflexivity|]. split; [congruence|].
  split; [rewrite T5, T4, T3, T2, T1, <- !app_assoc; reflexivity|].
  rewrite api_calls_app, saved_pages_app, written_contents_app, Ha, Hs.
  simpl. rewrite <- (length_map fst), Hw. repeat split.
Qed.
End Traversal.

Section QuotaTwo.
Context (pf : Platform) (env : Env) (mgr : Manager).
Context (A B C : Page) (roots : list Page) (cA cB : PageContent).

End QuotaTwo.


(** C2: on the sample wiki with limit 2 the home page and its first child
    are written and the run reports three pages; with limit 3, three pages
    are written and the run reports five. *)
Theorem reported_total_exceeds_pages_written :
  let run2 := backup (posix sample_db) sample_env (sample_mgr 2) 5 (start (sample_mgr 2)) in
  let run3 := backup (posix sample_db) sample_env (sample_mgr 3) 5 (start (sample_mgr 3)) in
  run2.1 = Ok tt /\
  List.map fst (saved_pages (trace run2.2)) = [U "100"; U "200"] /\
  List.map fst (written_contents (trace run2.2))
  = [U "/backups/20240101_120000/01 PRJ/content.md";
     U "/backups/20240101_120000/01 PRJ/01 Design_Notes/content.md"] /\
  reported_totals (trace run2.2) = [3] /\
  run3.1 = Ok tt /\
  List.map fst (saved_pages (trace run3.2)) = [U "100"; U "200"; U "400"] /\
  reported_totals (trace run3.2) = [5].
Proof. vm_compute. repeat split. Qed.

(** * The heading line and the rewriter *)

Lemma newline_free_prefix (m r t x : list N) :
  Forall (fun c => c <> 10%N) m ->
  m ++ r = t ++ 10%N :: x ->
  exists q, t = m ++ q.
Proof.
  intros Hm. revert t. induction Hm as [|c m Hc _ IH]; intros t H.
  - exists t. reflexivity.
  - destruct t as [|c' t]; simpl in H.
    + injection H as -> _. congruence.
    + injection H as -> H. destruct (IH t H) as [q ->]. exists q. reflexivity.
Qed.

Lemma suffix_before_newlines (X pre s : list N) :
  pre ++ s = X ++ [10; 10]%N ->
  (exists t, s = t ++ [10; 10]%N /\ X = pre ++ t) \/ s = [10%N] \/ s = [].
Proof.
  revert pre. induction X as [|x X IH]; intros pre H.
  - destruct pre as [|p [|p' [|p'' pre]]]; simpl in H.
    + left. exists []. split; [exact H|reflexivity].
    + injection H as -> ->. right. left. reflexivity.
    + injection H as -> -> ->. right. right. reflexivity.
    + injection H as _ _ H. destruct pre; discriminate.
  - destruct pre as [|p pre]; simpl in H.
    + left. exists (x :: X). split; [exact H|reflexivity].
    + injection H as -> H. destruct (IH pre H) as [(t & -> & ->)|[->| ->]].
      * left. exists t. split; reflexivity.
      * right. left. reflexivity.
      * right. right. reflexivity.
Qed.

Section Heading.
Context (pf : Platform) (env : Env).

Lemma scan_literal_prefix (h rest : list N) :
  (forall pre s, h = pre ++ s -> s <> [] -> match_here pf (s ++ rest) = None) ->
  scan pf (h ++ rest) = List.map Lit h ++ scan pf rest.
Proof.
  induction h as [|c h IH]; intros H; [reflexivity|].
  rewrite scan_cases. cbn [app].
  change (c :: h ++ rest) with ((c :: h) ++ rest).
  rewrite (H [] (c :: h) eq_refl) by discriminate.
  cbn [List.map app]. f_equal. apply IH.
  intros pre s -> Hs. apply (H (c :: pre)); [reflexivity|exact Hs].
Qed.

Lemma markup_no_newline (alt w f : list N) :
  Forall (fun c => c <> 10%N) alt ->
  Forall (fun c => digit pf c = true) w ->
  Forall (fun c => digit pf c = true) f ->
  Forall (fun c => c <> 10%N) (markup alt w f).
Proof.
  intros Halt Hw Hf.
  assert (Hd : forall l, Forall (fun c => digit pf c = true) l ->
                         Forall (fun c => c <> 10%N) l).
  { intros l Hl. eapply Forall_impl; [exact Hl|].
    intros c Hc ->. vm_compute in Hc. discriminate. }
  unfold markup. rewrite !Forall_app.
  repeat split; auto; repeat constructor; discriminate.
Qed.

(** No match starts in the heading line of a title without inline image:
    a match has no newline in it, so it would lie within the title. *)
Lemma heading_has_no_match (title body pre s : list N) :
  (forall a m b, title = a ++ m ++ b -> ~ inline_image pf m) ->
  U "# " ++ title ++ [10; 10]%N = pre ++ s ->
  s <> [] ->
  match_here pf (s ++ body) = None.
Proof.
  intros Htitle Hsplit Hs.
  destruct (match_here pf (s ++ body)) as [[[[alt w] f] r]|] eqn:E; [|reflexivity].
  exfalso.
  pose proof (match_here_groups pf _ _ _ _ _ E) as (Halt & Hw & Hdw & Hf & Hdf).
  pose proof (match_here_app pf _ _ _ _ _ E) as Happ.
  symmetry in Hsplit. rewrite app_assoc in Hsplit.
  apply suffix_before_newlines in Hsplit as [(t & -> & Hx)|[->| ->]].
  - rewrite <- app_assoc in Happ. cbn [app] in Happ. symmetry in Happ.
    apply newline_free_prefix in Happ as [q ->];
      [|apply markup_no_newline; assumption].
    destruct pre as [|p [|p' pre]].
    + unfold markup in Hx. vm_compute in Hx. discriminate.
    + unfold markup in Hx. vm_compute in Hx. discriminate.
    + change (U "# ") with [35; 32]%N in Hx. cbn [app] in Hx.
      injection Hx as _ _ Hx.
      apply (Htitle pre (markup alt w f) q Hx).
      exists alt, w, f. repeat split; assumption.
  - vm_compute in E. discriminate.
  - congruence.
Qed.

Lemma re_sub_literal_prefix (repl : list N -> list N -> list N -> M (list N))
      (h : list N) (ts : list token) (s : Run) :
  re_sub repl (List.map Lit h ++ ts) s
  = bind (re_sub repl ts) (fun r => ret (h ++ r)) s.
Proof.
  induction h as [|c h IH]; cbn [List.map app re_sub].
  - unfold bind. destruct (re_sub repl ts s) as [[r| |] s']; reflexivity.
  - unfold bind at 1. rewrite IH. unfold bind.
    destruct (re_sub repl ts s) as [[r| |] s']; reflexivity.
Qed.

(** C9, as the code has it: for a page without attachments the text
    written to content.md is what the rewriter returns for the heading
    line followed by the body, with nothing after it; the heading line goes
    through the rewriter together with the body.  When no part of the title
    is an inline image, that text is the heading line, as it is, followed by
    what the rewriter returns for the body alone. *)
Theorem no_attachments_section_without_files (page_data : Page)
        (content_data : PageContent) (page_path : list N) (s : Run) :
  content_files content_data = [] ->
  exists out s1 s',
    _process_inline_images pf env
      (U "# " ++ page_subject page_data ++ 10%N :: 10%N :: body_content content_data)
      page_path s = (Ok out, s1) /\
    _save_page pf env page_data content_data page_path s = (Ok tt, s') /\
    written_contents (trace s')
    = written_contents (trace s) ++ [(join pf page_path (U "content.md"), out)] /\
    ((forall a m b, page_subject page_data = a ++ m ++ b -> ~ inline_image pf m) ->
     exists body_out,
       _process_inline_images pf env (body_content content_data) page_path s
       = (Ok body_out, s1) /\
       out = U "# " ++ page_subject page_data ++ 10%N :: 10%N :: body_out).
Proof.
  intros Hf.
  destruct (content_without_files pf env page_data content_data page_path s Hf)
    as (out & s1 & s' & E1 & E & Hw).
  exists out, s1, s'. split; [exact E1|]. split; [exact E|]. split; [exact Hw|].
  intros Htitle.
  set (title := page_subject page_data) in *.
  set (body := body_content content_data) in *.
  assert (Hscan : scan pf (U "# " ++ title ++ 10%N :: 10%N :: body)
                  = List.map Lit (U "# " ++ title ++ [10; 10]%N) ++ scan pf body).
  { change (U "# " ++ title ++ 10%N :: 10%N :: body)
      with (U "# " ++ title ++ [10; 10]%N ++ body).
    rewrite !app_assoc. rewrite <- (app_assoc (U "# ")).
    apply scan_literal_prefix. intros pre s0 Hsplit Hs0.
    eapply heading_has_no_match; eassumption. }
  unfold _process_inline_images in E1 |- *.
  unfold bind at 1 in E1. unfold bind at 1.
  destruct (makedirs (join pf page_path (U "images")) s) as [[[]| |] s0];
    try discriminate.
  rewrite Hscan, re_sub_literal_prefix in E1. unfold bind in E1.
  destruct (re_sub _ (scan pf body) s0) as [[r| |] s2]; try discriminate.
  injection E1 as <- <-. exists r. split; [reflexivity|].
  rewrite <- !app_assoc. reflexivity.
Qed.
End Heading.

Lemma no_attachments_section_without_files_witness :
  content_files (sample_content (U "100")) = [] /\
  (forall a m b, page_subject page_A = a ++ m ++ b -> ~ inline_image (posix sample_db) m) /\
  exists s',
    _save_page (posix sample_db) sample_env page_A (sample_content (U "100"))
      (U "/backups/01 PRJ") (start (sample_mgr 5)) = (Ok tt, s') /\
    written_contents (trace s')
    = [(U "/backups/01 PRJ/content.md",
        U "# Home" ++ 10%N :: 10%N
          :: U "see ![diagram] (다운로드 실패 - Wiki ID: 10, File ID: 20)")].
Proof.
  assert (Htitle : forall a m b, page_subject page_A = a ++ m ++ b ->
                                 ~ inline_image (posix sample_db) m)
    by (apply no_match_no_image; vm_compute; reflexivity).
  split; [reflexivity|]. split; [exact Htitle|].
  destruct (no_attachments_section_without_files (posix sample_db) sample_env page_A
              (sample_content (U "100")) (U "/backups/01 PRJ") (start (sample_mgr 5))
              eq_refl)
    as (out & s1 & s' & E1 & E & Hw & Hlit).
  exists s'. split; [exact E|]. rewrite Hw.
  destruct (Hlit Htitle) as (body_out & Eb & ->).
  assert (Hb : body_out = U "see ![diagram] (다운로드 실패 - Wiki ID: 10, File ID: 20)").
  { assert (Ok body_out
            = Ok (A:=list N) (U "see ![diagram] (다운로드 실패 - Wiki ID: 10, File ID: 20)"))
      as Heq; [|injection Heq; auto].
    change (Ok body_out) with ((Ok body_out, s1).1). rewrite <- Eb.
    vm_compute. reflexivity. }
  rewrite Hb. vm_compute. reflexivity.
Defined.

(** * The quota, for every wiki *)

Lemma reported_totals_app (a b : list event) :
  reported_totals (a ++ b) = reported_totals a ++ reported_totals b.
Proof.
  induction a as [|e a IH]; [reflexivity|].
  destruct e; simpl; rewrite IH; reflexivity.
Qed.

Lemma reported_totals_media (evs : list event) :
  Forall is_media_event evs -> reported_totals evs = [].
Proof.
  induction 1 as [|e evs He _ IH]; [reflexivity|].
  destruct e; simpl in *; try contradiction; exact IH.
Qed.

Lemma bind_raise {A B : Type} (m : M A) (k : A -> M B) (s s' : Run) (e : exn) :
  m s = (Raise e, s') -> bind m k s = (Raise e, s').
Proof. intros H. unfold bind. rewrite H. reflexivity. Qed.

Lemma bind_out_of_fuel {A B : Type} (m : M A) (k : A -> M B) (s s' : Run) :
  m s = (OutOfFuel, s') -> bind m k s = (OutOfFuel, s').
Proof. intros H. unfold bind. rewrite H. reflexivity. Qed.

Section Quota.
Context (pf : Platform) (env : Env).

Lemma walk_ok_refl (s : Run) (r : outcome unit) : walk_ok s r s.
Proof. unfold walk_ok. repeat split; intros; lia || auto. Qed.

Lemma walk_ok_trans (s s1 s2 : Run) (r : outcome unit) :
walk_ok s (Ok tt) s1 -> walk_ok s1 r s2 -> walk_ok s r s2.
Proof.
unfold walk_ok. intros (L1 & R1 & M1 & D1 & B1 & X1) (L2 & R2 & M2 & D2 & B2 & X2).
rewrite L1 in *.
split; [congruence|]. split; [congruence|]. split; [lia|]. split; [lia|]. split.
- intros Hl Hw. specialize (B1 Hl Hw).
  assert (Hw1 : pages_written s1 <= count (page_counter s1)) by lia.
  specialize (B2 Hl Hw1). lia.
- intros Hl Hr. specialize (X1 Hl eq_refl). specialize (X2 Hl Hr). lia.
Qed.

Lemma walk_ok_same (s0 s : Run) (r : outcome unit) (s' : Run) :
page_counter s = page_counter s0 ->
saved_pages (trace s) = saved_pages (trace s0) ->
reported_totals (trace s) = reported_totals (trace s0) ->
walk_ok s r s' -> walk_ok s0 r s'.
Proof.
unfold walk_ok, pages_written. intros -> -> ->. tauto.
Qed.

Lemma get_pages_any (parent : option (list N)) (s : Run) :
exists r s',
  get_pages env parent s = (r, s') /\
  r <> OutOfFuel /\
  page_counter s' = page_counter s /\
  saved_pages (trace s') = saved_pages (trace s) /\
  reported_totals (trace s') = reported_totals (trace s).
Proof.
unfold get_pages, bind, emit, ret, raise.
destruct (srv_pages env _); do 2 eexists; (split; [reflexivity|]);
  cbn [page_counter trace]; rewrite saved_pages_app, reported_totals_app;
  simpl; rewrite !app_nil_r; repeat split; discriminate.
Qed.

Lemma get_page_content_any (page : list N) (s : Run) :
exists r s',
  get_page_content env page s = (r, s') /\
  r <> OutOfFuel /\
  page_counter s' = page_counter s /\
  saved_pages (trace s') = saved_pages (trace s) /\
  reported_totals (trace s') = reported_totals (trace s).
Proof.
unfold get_page_content, bind, emit, ret, raise.
destruct (srv_page_content env _); do 2 eexists; (split; [reflexivity|]);
  cbn [page_counter trace]; rewrite saved_pages_app, reported_totals_app;
  simpl; rewrite !app_nil_r; repeat split; discriminate.
Qed.

Lemma _save_page_counts (page_data : Page) (content_data : PageContent)
    (page_path : list N) (s : Run) :
exists s',
  _save_page pf env page_data content_data page_path s = (Ok tt, s') /\
  page_counter s' = page_counter s /\
  pages_written s' = pages_written s + 1 /\
  reported_totals (trace s') = reported_totals (trace s).
Proof.
destruct (_save_page_events pf env page_data content_data page_path s)
  as (s' & media & text & E & Hpc & Ht & Hm).
exists s'. split; [exact E|]. split; [exact Hpc|].
unfold pages_written.
rewrite Ht, !saved_pages_app, !reported_totals_app.
rewrite (saved_pages_media _ Hm), (reported_totals_media _ Hm).
simpl. rewrite !length_app, !app_nil_r. simpl. split; [lia|reflexivity].
Qed.

Lemma each_page_walk (recur : option (list N) -> list N -> M unit)
    (parent : option (list N)) (base : list N) (pages : list Page) :
(forall p b s0, walk_ok s0 (recur p b s0).1 (recur p b s0).2) ->
forall s, walk_ok s (each_page pf env recur parent base pages s).1
                    (each_page pf env recur parent base pages s).2.
Proof.
intros Hrec. induction pages as [|page more IH]; intros s.
- apply walk_ok_refl.
- cbn [each_page].
  destruct (with_counter_step increment s) as (s1 & E1 & P1 & T1).
  rewrite (bind_ok _ _ _ _ _ E1).
  destruct (increment (page_counter s)).1 eqn:Hin; cbn [negb].
  + (* within the quota *)
    destruct (with_counter_step (get_next_number (counter_key parent)) s1)
      as (s2 & E2 & P2 & T2).
    rewrite (bind_ok _ _ _ _ _ E2).
    match goal with
    | |- context [_create_numbered_dir pf base ?subj ?n] =>
        destruct (_create_numbered_dir_step pf base subj n s2) as (s3 & E3 & P3 & T3)
    end.
    rewrite (bind_ok _ _ _ _ _ E3).
    destruct (get_page_content_any (page_id page) s3)
      as (r4 & s4 & E4 & Hr4 & P4 & S4 & R4).
    assert (Hpc4 : page_counter s4
                   = (get_next_number (counter_key parent) (increment (page_counter s)).2).2)
      by congruence.
    assert (Hs4 : pages_written s4 = pages_written s).
    { unfold pages_written. rewrite S4, T3, T2, T1, saved_pages_app, app_nil_r.
      reflexivity. }
    assert (Hr4' : reported_totals (trace s4) = reported_totals (trace s)).
    { rewrite R4, T3, T2, T1, reported_totals_app, app_nil_r. reflexivity. }
    destruct r4 as [c|e|]; [|rewrite (bind_raise _ _ _ _ _ E4); cbn [fst snd]|congruence].
    * rewrite (bind_ok _ _ _ _ _ E4).
      destruct (_save_page_counts page c
                  (join pf base (dir_name pf (page_subject page)
                     (get_next_number (counter_key parent) (page_counter s1)).1)) s4)
        as (s5 & E5 & P5 & W5 & R5).
      rewrite (bind_ok _ _ _ _ _ E5).
      assert (Hstep : walk_ok s (Ok tt) s5).
      { unfold walk_ok. rewrite P5, Hpc4, W5, Hs4, R5, Hr4'. cbn.
        repeat split; try lia.
        intros Hl Hw. right. apply increment_true in Hin. lia. }
      pose proof (Hrec (Some (page_id page))
                    (join pf base (dir_name pf (page_subject page)
                       (get_next_number (counter_key parent) (page_counter s1)).1)) s5)
        as Hkids.
      destruct (recur _ _ s5) as [r6 s6] eqn:E6. cbn [fst snd] in Hkids.
      destruct r6 as [[]|e|].
      -- rewrite (bind_ok _ _ _ _ _ E6).
         eapply walk_ok_trans; [exact Hstep|].
         eapply walk_ok_trans; [exact Hkids|]. apply IH.
      -- rewrite (bind_raise _ _ _ _ _ E6).
         eapply walk_ok_trans; [exact Hstep|exact Hkids].
      -- rewrite (bind_out_of_fuel _ _ _ _ E6).
         eapply walk_ok_trans; [exact Hstep|exact Hkids].
    * unfold walk_ok. rewrite Hpc4, Hs4, Hr4'. cbn.
      repeat split; intros; try lia; try discriminate.
  + (* refused *)
    unfold ret. cbn [fst snd]. unfold walk_ok, pages_written. rewrite P1, T1. cbn.
    split; [reflexivity|]. split; [reflexivity|]. split; [lia|]. split; [lia|]. split.
    * intros; left; reflexivity.
    * intros Hl _. exfalso.
      assert ((increment (page_counter s)).1 = true)
        by (apply increment_true; left; exact Hl).
      congruence.
Qed.

Lemma backup_recursive_walk (fuel : nat) :
forall parent base s,
  walk_ok s (backup_recursive pf env fuel parent base s).1
            (backup_recursive pf env fuel parent base s).2.
Proof.
induction fuel as [|fuel IH]; intros parent base s.
- apply walk_ok_refl.
- destruct (Z_lt_le_dec (count (page_counter s)) (limit (page_counter s)))
    as [Hlt|Hle]; [|destruct (Z.eq_dec (limit (page_counter s)) (-1)) as [Hu|Hb]].
  3: { rewrite backup_recursive_closed by assumption. apply walk_ok_refl. }
  all: rewrite backup_recursive_open by (auto; lia).
  all: destruct (get_pages_any parent s) as (r & s1 & E & Hr & P & S1 & R1).
  all: destruct r as [pages|e|]; [| |congruence].
  all: try (rewrite (bind_ok _ _ _ _ _ E);
            eapply walk_ok_same; [exact P|exact S1|exact R1|];
            apply each_page_walk; intros p b s0; apply IH).
  all: rewrite (bind_raise _ _ _ _ _ E); cbn [fst snd];
    eapply walk_ok_same; [exact P|exact S1|exact R1|]; apply walk_ok_refl.
Qed.
End Quota.

Section QuotaOfARun.
Context (pf : Platform) (env : Env) (mgr : Manager).

Lemma backup_summary (fuel : nat) :
exists r s',
  backup pf env mgr fuel (start mgr) = (r, s') /\
  pages_written s' <= count (page_counter s') /\
  (page_limit mgr <> -1 -> pages_written s' <= Z.max 1 (page_limit mgr)) /\
  (r = Ok tt ->
   reported_totals (trace s') = [count (page_counter s')] /\
   (page_limit mgr = -1 -> count (page_counter s') = pages_written s')).
Proof.
unfold backup.
destruct (get_pages_any env None (start mgr)) as (r1 & s1 & E1 & _ & P1 & S1 & R1).
assert (H1 : pages_written s1 = 0 /\ count (page_counter s1) = 0)
  by (unfold pages_written; rewrite S1, P1; split; reflexivity).
destruct r1 as [[|root_page more]|e|].
- rewrite (bind_ok _ _ _ _ _ E1). unfold raise.
  do 2 eexists. split; [reflexivity|]. repeat split; try lia; discriminate.
- rewrite (bind_ok _ _ _ _ _ E1).
  destruct (get_page_content_any env (page_id root_page) s1)
    as (r2 & s2 & E2 & Hr2 & P2 & S2 & R2).
  assert (H2 : pages_written s2 = 0 /\ count (page_counter s2) = 0)
    by (unfold pages_written in *; rewrite S2, P2; exact H1).
  destruct r2 as [root_content|e|]; [| |congruence].
  + rewrite (bind_ok _ _ _ _ _ E2).
    destruct (_create_numbered_dir_step pf (backup_dir mgr) (project_code mgr) 1 s2)
      as (s3 & E3 & P3 & T3).
    rewrite (bind_ok _ _ _ _ _ E3).
    destruct (with_counter_step increment s3) as (s4 & E4 & P4 & T4).
    rewrite (bind_ok _ _ _ _ _ E4).
    destruct (with_counter_step (get_next_number lit_root) s4) as (s5 & E5 & P5 & T5).
    rewrite (bind_ok _ _ _ _ _ E5).
    match goal with
    | |- context [_save_page pf env root_page root_content ?p] =>
        set (root_path := p);
        destruct (_save_page_counts pf env root_page root_content root_path s5)
          as (s6 & E6 & P6 & W6 & R6)
    end.
    rewrite (bind_ok _ _ _ _ _ E6).
    assert (Hpc6 : count (page_counter s6) = 1 /\
                   limit (page_counter s6) = page_limit mgr).
    { rewrite P6, P5, P4, P3, P2, P1. split; reflexivity. }
    assert (Hw6 : pages_written s6 = 1).
    { rewrite W6. unfold pages_written in *.
      rewrite T5, T4, T3, saved_pages_app, app_nil_r. lia. }
    assert (Hr6 : reported_totals (trace s6) = []).
    { rewrite R6, T5, T4, T3, reported_totals_app, app_nil_r, R2, R1. reflexivity. }
    pose proof (backup_recursive_walk pf env fuel (Some (page_id root_page)) root_path s6)
      as Hwalk.
    destruct (backup_recursive pf env fuel (Some (page_id root_page)) root_path s6)
      as [r7 s7] eqn:E7.
    cbn [fst snd] in Hwalk.
    destruct Hwalk as (L7 & R7 & M7 & D7 & B7 & X7).
    destruct Hpc6 as [Hc6 Hl6]. rewrite Hl6 in *.
    assert (Hbound : page_limit mgr <> -1 -> pages_written s7 <= Z.max 1 (page_limit mgr)).
    { intros Hl. destruct (B7 Hl ltac:(lia)); lia. }
    destruct r7 as [[]|e|].
    * rewrite (bind_ok _ _ _ _ _ E7). unfold bind, read_counter, emit.
      do 2 eexists. split; [reflexivity|].
      unfold pages_written in *. cbn [page_counter trace].
      rewrite saved_pages_app, reported_totals_app, R7, Hr6, app_nil_r.
      split; [lia|]. split; [exact Hbound|]. intros _. split; [reflexivity|].
      intros Hl. specialize (X7 Hl eq_refl). lia.
    * rewrite (bind_raise _ _ _ _ _ E7).
      do 2 eexists. split; [reflexivity|].
      split; [lia|]. split; [exact Hbound|]. discriminate.
    * rewrite (bind_out_of_fuel _ _ _ _ E7).
      do 2 eexists. split; [reflexivity|].
      split; [lia|]. split; [exact Hbound|]. discriminate.
  + rewrite (bind_raise _ _ _ _ _ E2).
    do 2 eexists. split; [reflexivity|]. repeat split; try lia; discriminate.
- rewrite (bind_raise _ _ _ _ _ E1).
  do 2 eexists. split; [reflexivity|]. repeat split; try lia; discriminate.
- rewrite (bind_out_of_fuel _ _ _ _ E1).
  do 2 eexists. split; [reflexivity|]. repeat split; try lia; discriminate.
Qed.

(** X1: whatever the wiki, the contents, the downloader and the outcome of
  the run: no more pages are written than were counted, and with a limit the
  pages written are at most the limit, or the root alone when the limit is
  below one. *)
Theorem pages_written_within_quota (fuel : nat) :
pages_written (backup pf env mgr fuel (start mgr)).2
<= count (page_counter (backup pf env mgr fuel (start mgr)).2) /\
(page_limit mgr <> -1 ->
 pages_written (backup pf env mgr fuel (start mgr)).2 <= Z.max 1 (page_limit mgr)).
Proof.
destruct (backup_summary fuel) as (r & s' & E & Hle & Hq & _).
rewrite E. split; assumption.
Qed.

(** X2: a run that ends without raising reports the count of the counter;
  with the unlimited quota this is the number of pages written. *)
Theorem unlimited_run_reports_pages_written (fuel : nat) :
(backup pf env mgr fuel (start mgr)).1 = Ok tt ->
reported_totals (trace (backup pf env mgr fuel (start mgr)).2)
= [count (page_counter (backup pf env mgr fuel (start mgr)).2)] /\
(page_limit mgr = -1 ->
 reported_totals (trace (backup pf env mgr fuel (start mgr)).2)
 = [pages_written (backup pf env mgr fuel (start mgr)).2]).
Proof.
destruct (backup_summary fuel) as (r & s' & E & _ & _ & Hok).
rewrite E. cbn [fst snd]. intros ->. destruct (Hok eq_refl) as [Hr Hu].
split; [exact Hr|]. intros Hl. rewrite Hr, (Hu Hl). reflexivity.
Qed.
End QuotaOfARun.

Lemma pages_written_within_quota_witness :
  page_limit (sample_mgr 3) <> -1 /\
  pages_written (backup (posix sample_db) sample_env (sample_mgr 3) 5
                   (start (sample_mgr 3))).2 <= 3.
Proof.
  assert (H : page_limit (sample_mgr 3) <> -1) by discriminate.
  split; [exact H|].
  exact (proj2 (pages_written_within_quota (posix sample_db) sample_env (sample_mgr 3) 5) H).
Defined.

Lemma unlimited_run_reports_pages_written_witness :
  (backup (posix sample_db) sample_env (sample_mgr (-1)) 5 (start (sample_mgr (-1)))).1
  = Ok tt /\
  page_limit (sample_mgr (-1)) = -1 /\
  reported_totals (trace (backup (posix sample_db) sample_env (sample_mgr (-1)) 5
                            (start (sample_mgr (-1)))).2)
  = [pages_written (backup (posix sample_db) sample_env (sample_mgr (-1)) 5
                      (start (sample_mgr (-1)))).2].
Proof.
  assert (H : (backup (posix sample_db) sample_env (sample_mgr (-1)) 5
                 (start (sample_mgr (-1)))).1 = Ok tt) by (vm_compute; reflexivity).
  split; [exact H|]. split; [reflexivity|].
  exact (proj2 (unlimited_run_reports_pages_written (posix sample_db) sample_env
                  (sample_mgr (-1)) 5 H) eq_refl).
Defined.

(** * The walk over a finite wiki *)

Lemma serves_children (env : Env) (p : Page) (c : PageContent) (ts : list tree) :
  serves env (Node p c ts) ->
  page_id p <> [] /\
  srv_pages env (Some (page_id p)) = Reply (List.map root_page ts) /\
  srv_page_content env (page_id p) = Reply c /\
  Forall (serves env) ts.
Proof.
  cbn [serves]. intros (H1 & H2 & H3 & H4). repeat split; try assumption.
  clear H2. induction ts as [|t ts IH]; [constructor|].
  destruct H4 as [Ht Hts]. constructor; [exact Ht|exact (IH Hts)].
Qed.

Lemma depth_children (p : Page) (c : PageContent) (ts : list tree) (fuel : nat) :
  (depth (Node p c ts) <= S fuel)%nat -> Forall (fun t => (depth t <= fuel)%nat) ts.
Proof.
  cbn [depth]. intros H. apply le_S_n in H.
  induction ts as [|t ts IH]; [constructor|].
  simpl in H. constructor; [lia|apply IH; lia].
Qed.

Lemma walked_nil (s : Run) : walked [] s s.
Proof.
  unfold walked. split; [reflexivity|]. split.
  - destruct (room (page_counter s)); simpl; rewrite ?take_nil, app_nil_r; reflexivity.
  - destruct (room (page_counter s)); simpl; lia.
Qed.

Lemma walked_app (P1 P2 : list Page) (s s1 s2 : Run) :
  walked P1 s s1 -> walked P2 s1 s2 -> walked (P1 ++ P2) s s2.
Proof.
  unfold walked, room. intros (L1 & S1 & C1) (L2 & S2 & C2).
  rewrite L1 in *. split; [exact L2|].
  destruct (limit (page_counter s) =? -1) eqn:El.
  - cbn [take_room] in *. rewrite S2, S1, map_app, length_app, <- app_assoc.
    split; [reflexivity|lia].
  - cbn [take_room] in *. rewrite length_app.
    destruct (Nat.leb_spec (length P1) (Z.to_nat (limit (page_counter s) - count (page_counter s))))
      as [Hfit|Hover].
    + (* P1 fits *)
      rewrite C1 in *.
      replace (Z.to_nat (limit (page_counter s)
                         - (count (page_counter s) + Z.of_nat (length P1))))
        with (Z.to_nat (limit (page_counter s) - count (page_counter s)) - length P1)%nat
        in * by lia.
      split.
      * rewrite S2, S1, take_app, map_app, <- app_assoc.
        rewrite (take_ge P1) by lia. reflexivity.
      * destruct (Nat.leb_spec (length P2)
                    (Z.to_nat (limit (page_counter s) - count (page_counter s)) - length P1));
          destruct (Nat.leb_spec (length P1 + length P2)
                      (Z.to_nat (limit (page_counter s) - count (page_counter s))));
          lia.
    + (* P1 does not fit *)
      replace (Z.to_nat (limit (page_counter s) - count (page_counter s1))) with 0%nat
        in * by lia.
      split.
      * rewrite S2, S1, take_0, app_nil_r, take_app.
        replace (Z.to_nat (limit (page_counter s) - count (page_counter s)) - length P1)%nat
          with 0%nat by lia.
        rewrite take_0, app_nil_r. reflexivity.
      * destruct (Nat.leb_spec (length P1 + length P2)
                    (Z.to_nat (limit (page_counter s) - count (page_counter s))));
          [lia|].
        destruct (Nat.leb_spec (length P2) 0); lia.
Qed.

Lemma walked_same (P : list Page) (s0 s s' : Run) :
  page_counter s = page_counter s0 ->
  saved_pages (trace s) = saved_pages (trace s0) ->
  walked P s s' -> walked P s0 s'.
Proof. unfold walked. intros -> ->. tauto. Qed.

Section FiniteWiki.
Context (pf : Platform) (env : Env).

(** A page the quota refuses, and all the pages after it. *)
Lemma walked_refused (P : list Page) (s s' : Run) :
  P <> [] ->
  (increment (page_counter s)).1 = false ->
  page_counter s' = (increment (page_counter s)).2 ->
  trace s' = trace s ->
  walked P s s'.
Proof.
  intros HP Hin Hpc Ht.
  assert (Hno : ~ (limit (page_counter s) = -1 \/
                   count (page_counter s) + 1 <= limit (page_counter s)))
    by (rewrite <- increment_true; congruence).
  unfold walked, room. rewrite Hpc, Ht. cbn [increment snd limit count].
  destruct (Z.eqb_spec (limit (page_counter s)) (-1)) as [?|Hl]; [tauto|].
  replace (Z.to_nat (limit (page_counter s) - count (page_counter s))) with 0%nat by lia.
  cbn [take_room]. rewrite take_0, app_nil_r.
  split; [reflexivity|]. split; [reflexivity|].
  destruct P; [congruence|]. simpl. lia.
Qed.

(** One page written, from [s] to [s']. *)
Lemma walked_one (p : Page) (s s' : Run) :
  (increment (page_counter s)).1 = true ->
  limit (page_counter s') = limit (page_counter s) ->
  count (page_counter s') = count (page_counter s) + 1 ->
  List.map fst (saved_pages (trace s')) = List.map fst (saved_pages (trace s)) ++ [page_id p] ->
  walked [p] s s'.
Proof.
  intros Hin Hl Hc Hs. apply increment_true in Hin.
  unfold walked, room. split; [exact Hl|].
  destruct (Z.eqb_spec (limit (page_counter s)) (-1)) as [Hu|Hb]; cbn [take_room].
  - split; [exact Hs|simpl; lia].
  - assert (Hq : (1 <= Z.to_nat (limit (page_counter s) - count (page_counter s)))%nat)
      by lia.
    destruct (Z.to_nat (limit (page_counter s) - count (page_counter s))) as [|q]; [lia|].
    split; [rewrite Hs; simpl; rewrite take_nil; reflexivity|]. simpl. lia.
Qed.

Lemma each_page_forest (fuel : nat) :
  (forall t base s,
      serves env t -> (depth t <= fuel)%nat ->
      exists s',
        backup_recursive pf env fuel (Some (page_id (root_page t))) base s = (Ok tt, s') /\
        walked (preorder_forest (subtrees t)) s s') ->
  forall ts parent base s,
    Forall (serves env) ts ->
    Forall (fun t => (depth t <= fuel)%nat) ts ->
    exists s',
      each_page pf env (backup_recursive pf env fuel) parent base
        (List.map root_page ts) s = (Ok tt, s') /\
      walked (preorder_forest ts) s s'.
Proof.
  intros Hrec ts. induction ts as [|t ts IH]; intros parent base s Hsrv Hdep.
  - exists s. split; [reflexivity|apply walked_nil].
  - apply Forall_cons in Hsrv as [Hsrv_t Hsrv]. apply Forall_cons in Hdep as [Hdep_t Hdep].
    destruct t as [p c kids].
    change (preorder_forest (Node p c kids :: ts))
      with ((p :: preorder_forest kids) ++ preorder_forest ts).
    cbn [List.map root_page].
    destruct (increment (page_counter s)).1 eqn:Hin.
    + destruct (serves_children env p c kids Hsrv_t) as (_ & _ & Hc & _).
      destruct (each_page_accepted pf env (backup_recursive pf env fuel) parent base p
                  (List.map root_page ts) c s Hin Hc)
        as (s1 & evs & path & E & P1 & T1 & _ & S1 & _).
      rewrite E.
      assert (Hone : walked [p] s s1).
      { apply walked_one; [exact Hin|rewrite P1; reflexivity|rewrite P1; reflexivity|].
        rewrite T1, saved_pages_app, map_app, S1. reflexivity. }
      destruct (Hrec (Node p c kids) path s1 Hsrv_t Hdep_t) as (s2 & E2 & W2).
      cbn [root_page subtrees] in E2, W2.
      rewrite (bind_ok _ _ _ _ _ E2).
      destruct (IH parent base s2 Hsrv Hdep) as (s3 & E3 & W3).
      exists s3. split; [exact E3|].
      apply (walked_app _ _ s s2 s3); [|exact W3].
      apply (walked_app [p] _ s s1 s2); assumption.
    + destruct (each_page_refused pf env (backup_recursive pf env fuel) parent base p
                  (List.map root_page ts) s Hin) as (s1 & E & P1 & T1).
      exists s1. split; [exact E|].
      apply walked_refused; [discriminate|exact Hin|exact P1|exact T1].
Qed.

Lemma backup_recursive_tree (fuel : nat) :
  forall t base s,
    serves env t -> (depth t <= fuel)%nat ->
    exists s',
      backup_recursive pf env fuel (Some (page_id (root_page t))) base s = (Ok tt, s') /\
      walked (preorder_forest (subtrees t)) s s'.
Proof.
  induction fuel as [|fuel IH]; intros [p c ts] base s Hsrv Hdep.
  - cbn [depth] in Hdep. lia.
  - cbn [root_page subtrees].
    destruct (serves_children env p c ts Hsrv) as (Hid & Hkids & _ & Hsub).
    destruct (Z_lt_le_dec (count (page_counter s)) (limit (page_counter s)))
      as [Hlt|Hle]; [|destruct (Z.eq_dec (limit (page_counter s)) (-1)) as [Hu|Hb]].
    3: { rewrite backup_recursive_closed by assumption.
         exists s. split; [reflexivity|].
         unfold walked, room. apply Z.eqb_neq in Hb. rewrite Hb.
         replace (Z.to_nat (limit (page_counter s) - count (page_counter s)))
           with 0%nat by lia.
         cbn [take_room]. rewrite take_0, app_nil_r.
         split; [reflexivity|]. split; [reflexivity|].
         destruct (preorder_forest ts); simpl; lia. }
    all: rewrite backup_recursive_open by (auto; lia).
    all: assert (Hparam : srv_pages env (api_param (Some (page_id p)))
                          = Reply (List.map root_page ts))
        by (destruct (page_id p); [congruence|exact Hkids]).
    all: destruct (get_pages_step env (Some (page_id p)) _ s Hparam) as (s1 & E1 & P1 & T1).
    all: rewrite (bind_ok _ _ _ _ _ E1).
    all: destruct (each_page_forest fuel IH ts (Some (page_id p)) base s1 Hsub
                     (depth_children p c ts fuel Hdep)) as (s2 & E2 & W2).
    all: exists s2; split; [exact E2|].
    all: eapply walked_same; [exact P1| |exact W2].
    all: rewrite T1, saved_pages_app, app_nil_r; reflexivity.
Qed.
End FiniteWiki.

Section FiniteWikiRun.
Context (pf : Platform) (env : Env) (mgr : Manager).

Lemma quota_prefix_root (pc : PageCounter) (p : Page) (P : list Page) :
  limit pc = page_limit mgr -> count pc = 1 ->
  quota_prefix (page_limit mgr) (p :: P) = p :: take_room (room pc) P.
Proof.
  intros Hl Hc. unfold quota_prefix, room. rewrite Hl, Hc.
  destruct (page_limit mgr =? -1); [reflexivity|]. cbn [take_room].
  replace (Z.to_nat (Z.max 1 (page_limit mgr)))
    with (S (Z.to_nat (page_limit mgr - 1))) by lia.
  reflexivity.
Qed.

Lemma backup_tree_summary (t : tree) (others : list Page) (fuel : nat) :
  serves env t ->
  srv_pages env None = Reply (root_page t :: others) ->
  (depth t <= fuel)%nat ->
  exists s',
    backup pf env mgr fuel (start mgr) = (Ok tt, s') /\
    List.map fst (saved_pages (trace s'))
    = List.map page_id (quota_prefix (page_limit mgr) (preorder t)) /\
    (page_limit mgr = -1 \/ Z.of_nat (length (preorder t)) <= page_limit mgr ->
     count (page_counter s') = Z.of_nat (length (preorder t))).
Proof.
  intros Hsrv Htop Hdep. unfold backup.
  destruct (get_pages_step env None _ (start mgr) Htop) as (s1 & E1 & P1 & T1).
  rewrite (bind_ok _ _ _ _ _ E1).
  destruct t as [p c ts]. cbn [root_page].
  destruct (serves_children env p c ts Hsrv) as (_ & _ & Hc & _).
  destruct (get_page_content_step env _ _ s1 Hc) as (s2 & E2 & P2 & T2).
  rewrite (bind_ok _ _ _ _ _ E2).
  destruct (_create_numbered_dir_step pf (backup_dir mgr) (project_code mgr) 1 s2)
    as (s3 & E3 & P3 & T3).
  rewrite (bind_ok _ _ _ _ _ E3).
  destruct (with_counter_step increment s3) as (s4 & E4 & P4 & T4).
  rewrite (bind_ok _ _ _ _ _ E4).
  destruct (with_counter_step (get_next_number lit_root) s4) as (s5 & E5 & P5 & T5).
  rewrite (bind_ok _ _ _ _ _ E5).
  match goal with
  | |- context [_save_page pf env p c ?path] =>
      set (root_path := path);
      destruct (_save_page_step pf env p c root_path s5)
        as (s6 & evs & E6 & P6 & T6 & A6 & S6 & _)
  end.
  rewrite (bind_ok _ _ _ _ _ E6).
  destruct (backup_recursive_tree pf env fuel (Node p c ts) root_path s6 Hsrv Hdep)
    as (s7 & E7 & L7 & W7 & C7).
  cbn [root_page subtrees] in E7, W7, C7.
  rewrite (bind_ok _ _ _ _ _ E7). unfold bind, read_counter, emit.
  eexists. split; [reflexivity|]. cbn [trace page_counter].
  assert (Hpc6 : limit (page_counter s6) = page_limit mgr /\ count (page_counter s6) = 1).
  { rewrite P6, P5, P4, P3, P2, P1. split; reflexivity. }
  destruct Hpc6 as [Hl6 Hc6].
  assert (Hs6 : List.map fst (saved_pages (trace s6)) = [page_id p]).
  { rewrite T6, T5, T4, T3, T2, T1, !saved_pages_app, S6. reflexivity. }
  split.
  - rewrite saved_pages_app, app_nil_r, W7, Hs6.
    cbn [preorder]. rewrite (quota_prefix_root (page_counter s6)) by assumption.
    reflexivity.
  - intros Hfit. cbn [preorder length] in Hfit |- *. fold (preorder_forest ts) in Hfit |- *.
    unfold room in C7. rewrite Hl6, Hc6 in C7.
    destruct (Z.eqb_spec (page_limit mgr) (-1)) as [Hu|Hb]; [lia|].
    destruct (Nat.leb_spec (length (preorder_forest ts)) (Z.to_nat (page_limit mgr - 1)));
      lia.
Qed.

(** X3: on a wiki that is a finite tree, with the server answering, a run
    with enough fuel ends without raising and writes the pages in the order
    of the walk, a page before its children and the children in the order
    the server lists them: all of them with the unlimited quota, and with a
    limit the first [max 1 limit] of them. *)
Theorem backup_writes_quota_prefix (t : tree) (others : list Page) (fuel : nat) :
  serves env t ->
  srv_pages env None = Reply (root_page t :: others) ->
  (depth t <= fuel)%nat ->
  (backup pf env mgr fuel (start mgr)).1 = Ok tt /\
  List.map fst (saved_pages (trace (backup pf env mgr fuel (start mgr)).2))
  = List.map page_id (quota_prefix (page_limit mgr) (preorder t)).
Proof.
  intros Hsrv Htop Hdep.
  destruct (backup_tree_summary t others fuel Hsrv Htop Hdep) as (s' & E & Hs & _).
  rewrite E. split; [reflexivity|exact Hs].
Qed.

(** X4: on such a wiki, when the quota is unlimited or not below the number
    of pages, the total the run reports is the number of pages of the wiki,
    and every one of them is written. *)
Theorem fitting_run_reports_wiki_size (t : tree) (others : list Page) (fuel : nat) :
  serves env t ->
  srv_pages env None = Reply (root_page t :: others) ->
  (depth t <= fuel)%nat ->
  page_limit mgr = -1 \/ Z.of_nat (length (preorder t)) <= page_limit mgr ->
  reported_totals (trace (backup pf env mgr fuel (start mgr)).2)
  = [Z.of_nat (length (preorder t))] /\
  pages_written (backup pf env mgr fuel (start mgr)).2 = Z.of_nat (length (preorder t)).
Proof.
  intros Hsrv Htop Hdep Hfit.
  destruct (backup_tree_summary t others fuel Hsrv Htop Hdep) as (s' & E & Hs & Hc).
  destruct (backup_summary pf env mgr fuel) as (r & s2 & E' & _ & _ & Hr).
  rewrite E in E'. injection E' as <- <-. rewrite E. cbn [snd].
  destruct (Hr eq_refl) as [Hrep _]. rewrite Hrep, (Hc Hfit).
  split; [reflexivity|].
  unfold pages_written. rewrite <- (length_map fst), Hs, length_map.
  unfold quota_prefix. destruct (Z.eqb_spec (page_limit mgr) (-1)); [reflexivity|].
  rewrite take_ge by lia. reflexivity.
Qed.
End FiniteWikiRun.

Lemma sample_tree_served : serves sample_env sample_tree.
Proof. cbn. repeat split; discriminate. Qed.

Lemma backup_writes_quota_prefix_witness :
  List.map fst
    (saved_pages (trace (backup (posix sample_db) sample_env (sample_mgr 3) 5
                           (start (sample_mgr 3))).2))
  = List.map page_id (quota_prefix 3 (preorder sample_tree)).
Proof.
  assert (Htop : srv_pages sample_env None = Reply (root_page sample_tree :: []))
    by reflexivity.
  assert (Hdep : (depth sample_tree <= 5)%nat) by (vm_compute; lia).
  exact (proj2 (backup_writes_quota_prefix (posix sample_db) sample_env (sample_mgr 3)
                  sample_tree [] 5 sample_tree_served Htop Hdep)).
Defined.

Lemma fitting_run_reports_wiki_size_witness :
  reported_totals (trace (backup (posix sample_db) sample_env (sample_mgr 5) 5
                            (start (sample_mgr 5))).2)
  = [Z.of_nat (length (preorder sample_tree))].
Proof.
  assert (Htop : srv_pages sample_env None = Reply (root_page sample_tree :: []))
    by reflexivity.
  assert (Hdep : (depth sample_tree <= 5)%nat) by (vm_compute; lia).
  assert (Hfit : page_limit (sample_mgr 5) = -1
                 \/ Z.of_nat (length (preorder sample_tree)) <= page_limit (sample_mgr 5))
    by (right; vm_compute; discriminate).
  exact (proj1 (fitting_run_reports_wiki_size (posix sample_db) sample_env (sample_mgr 5)
                  sample_tree [] 5 sample_tree_served Htop Hdep Hfit)).
Defined.

(** * What a run asks of the server *)

Lemma content_requests_app (a b : list event) :
  content_requests (a ++ b) = content_requests a ++ content_requests b.
Proof.
  induction a as [|e a IH]; [reflexivity|].
  destruct e; simpl; rewrite IH; reflexivity.
Qed.

Lemma list_requests_app (a b : list event) :
  list_requests (a ++ b) = list_requests a ++ list_requests b.
Proof.
  induction a as [|e a IH]; [reflexivity|].
  destruct e; simpl; rewrite IH; reflexivity.
Qed.

Lemma requests_of_api_calls (evs : list event) :
  content_requests (api_calls evs) = content_requests evs /\
  list_requests (api_calls evs) = list_requests evs.
Proof.
  induction evs as [|e evs [IH1 IH2]]; [split; reflexivity|].
  destruct e; simpl; rewrite ?IH1, ?IH2; split; reflexivity.
Qed.

Lemma no_api_calls_no_requests (evs : list event) :
  api_calls evs = [] -> content_requests evs = [] /\ list_requests evs = [].
Proof.
  intros H. destruct (requests_of_api_calls evs) as [H1 H2].
  rewrite <- H1, <- H2, H. split; reflexivity.
Qed.

Lemma api_calls_length (evs : list event) :
  length (api_calls evs)
  = (length (content_requests evs) + length (list_requests evs))%nat.
Proof.
  induction evs as [|e evs IH]; [reflexivity|].
  destruct e; simpl; rewrite ?IH; lia.
Qed.

Section Requests.
Context (pf : Platform) (env : Env).

Lemma get_pages_trace (parent : option (list N)) (s : Run) :
  exists r s',
    get_pages env parent s = (r, s') /\
    page_counter s' = page_counter s /\
    trace s' = trace s ++ [ApiGetPages (api_param parent)] /\
    match r with
    | Ok pages => srv_pages env (api_param parent) = Reply pages
    | Raise e => srv_pages env (api_param parent) = Failure e
    | OutOfFuel => False
    end.
Proof.
  unfold get_pages, bind, emit, ret, raise. fold (api_param parent).
  destruct (srv_pages env (api_param parent)) eqn:E; do 2 eexists;
    (split; [reflexivity|]); repeat split.
Qed.

Lemma get_page_content_trace (page : list N) (s : Run) :
  exists r s',
    get_page_content env page s = (r, s') /\
    page_counter s' = page_counter s /\
    trace s' = trace s ++ [ApiGetPageContent page] /\
    match r with
    | Ok c => srv_page_content env page = Reply c
    | Raise e => srv_page_content env page = Failure e
    | OutOfFuel => False
    end.
Proof.
  unfold get_page_content, bind, emit, ret, raise.
  destruct (srv_page_content env page) eqn:E; do 2 eexists;
    (split; [reflexivity|]); repeat split.
Qed.

Lemma requests_ok_nil (r : outcome unit) :
  (forall e, r <> Raise e) -> requests_ok env r [] [].
Proof.
  intros Hr. unfold requests_ok. split; [|split].
  - exists []. repeat split. simpl. lia.
  - exists []. split; [constructor|reflexivity].
  - intros e He. destruct (Hr e He).
Qed.

Lemma requests_ok_app (r : outcome unit) (evs1 evs2 : list event)
      (head : list (option (list N))) :
  requests_ok env (Ok tt) evs1 head -> requests_ok env r evs2 [] ->
  requests_ok env r (evs1 ++ evs2) head.
Proof.
  intros ((x1 & C1 & _ & X1) & (l1 & S1 & L1) & _) ((x2 & C2 & N2 & X2) & (l2 & S2 & L2) & F2).
  rewrite (X1 eq_refl), app_nil_r in C1.
  unfold requests_ok.
  rewrite content_requests_app, list_requests_app, saved_pages_app, map_app, C1, C2, L1, L2.
  split; [|split; [|exact F2]].
  - exists x2. rewrite app_assoc. repeat split; assumption.
  - exists (l1 ++ l2). split; [apply sublist_app; assumption|].
    cbn [app]. rewrite map_app, app_assoc. reflexivity.
Qed.

(** A page written, then the walk over its children. *)
Lemma requests_ok_page (r : outcome unit) (page : list N) (evs1 evs2 : list event)
      (head : list (option (list N))) :
  content_requests evs1 = [page] ->
  list_requests evs1 = [] ->
  List.map fst (saved_pages evs1) = [page] ->
  head = [] \/ head = [api_param (Some page)] ->
  requests_ok env r evs2 head ->
  requests_ok env r (evs1 ++ evs2) [].
Proof.
  intros C1 L1 S1 Hhead ((x2 & C2 & N2 & X2) & (l2 & S2 & L2) & F2).
  unfold requests_ok.
  rewrite content_requests_app, list_requests_app, saved_pages_app, map_app, C1, L1, S1, C2, L2.
  split; [|split; [|exact F2]].
  - exists x2. repeat split; assumption.
  - destruct Hhead as [-> | ->].
    + exists l2. split; [apply sublist_cons; exact S2|reflexivity].
    + exists (page :: l2). split; [apply sublist_skip; exact S2|reflexivity].
Qed.

Lemma each_page_requests (recur : option (list N) -> list N -> M unit) :
  (forall p b s0,
      exists evs head,
        trace (recur (Some p) b s0).2 = trace s0 ++ evs /\
        (head = [] \/ head = [api_param (Some p)]) /\
        requests_ok env (recur (Some p) b s0).1 evs head) ->
  forall pages parent base s,
    exists evs,
      trace (each_page pf env recur parent base pages s).2 = trace s ++ evs /\
      requests_ok env (each_page pf env recur parent base pages s).1 evs [].
Proof.
  intros Hrec pages. induction pages as [|page more IH]; intros parent base s.
  - exists []. cbn. rewrite app_nil_r. split; [reflexivity|].
    apply requests_ok_nil. discriminate.
  - cbn [each_page].
    destruct (with_counter_step increment s) as (s1 & E1 & P1 & T1).
    rewrite (bind_ok _ _ _ _ _ E1).
    destruct (increment (page_counter s)).1 eqn:Hin; cbn [negb].
    + destruct (with_counter_step (get_next_number (counter_key parent)) s1)
        as (s2 & E2 & P2 & T2).
      rewrite (bind_ok _ _ _ _ _ E2).
      match goal with
      | |- context [_create_numbered_dir pf base ?subj ?n] =>
          destruct (_create_numbered_dir_step pf base subj n s2) as (s3 & E3 & P3 & T3);
          set (path := join pf base (dir_name pf subj n)) in *
      end.
      rewrite (bind_ok _ _ _ _ _ E3).
      destruct (get_page_content_trace (page_id page) s3) as (r4 & s4 & E4 & P4 & T4 & H4).
      destruct r4 as [c|e|]; [| |destruct H4].
      * rewrite (bind_ok _ _ _ _ _ E4).
        destruct (_save_page_step pf env page c path s4)
          as (s5 & evs5 & E5 & P5 & T5 & A5 & S5 & _).
        rewrite (bind_ok _ _ _ _ _ E5).
        destruct (no_api_calls_no_requests evs5 A5) as [C5 L5].
        set (evs1 := [MakeDirs path; ApiGetPageContent (page_id page)] ++ evs5).
        assert (Ht5 : trace s5 = trace s ++ evs1).
        { unfold evs1. rewrite T5, T4, T3, T2, T1, <- !app_assoc. reflexivity. }
        assert (Hc1 : content_requests evs1 = [page_id page])
          by (unfold evs1; rewrite content_requests_app, C5; reflexivity).
        assert (Hl1 : list_requests evs1 = [])
          by (unfold evs1; rewrite list_requests_app, L5; reflexivity).
        assert (Hs1 : List.map fst (saved_pages evs1) = [page_id page])
          by (unfold evs1; rewrite saved_pages_app, S5; reflexivity).
        destruct (Hrec (page_id page) path s5) as (evs6 & head & T6 & Hhead & R6).
        destruct (recur (Some (page_id page)) path s5) as [r6 s6] eqn:E6.
        cbn [fst snd] in T6, R6.
        destruct r6 as [[]|e|].
        -- rewrite (bind_ok _ _ _ _ _ E6).
           destruct (IH parent base s6) as (evs7 & T7 & R7).
           exists ((evs1 ++ evs6) ++ evs7).
           split; [rewrite T7, T6, Ht5, <- !app_assoc; reflexivity|].
           apply requests_ok_app; [|exact R7].
           apply (requests_ok_page _ (page_id page) _ _ head); assumption.
        -- rewrite (bind_raise _ _ _ _ _ E6). cbn [fst snd].
           exists (evs1 ++ evs6).
           split; [rewrite T6, Ht5, <- !app_assoc; reflexivity|].
           apply (requests_ok_page _ (page_id page) _ _ head); assumption.
        -- rewrite (bind_out_of_fuel _ _ _ _ E6). cbn [fst snd].
           exists (evs1 ++ evs6).
           split; [rewrite T6, Ht5, <- !app_assoc; reflexivity|].
           apply (requests_ok_page _ (page_id page) _ _ head); assumption.
      * rewrite (bind_raise _ _ _ _ _ E4). cbn [fst snd].
        exists [MakeDirs path; ApiGetPageContent (page_id page)].
        split; [rewrite T4, T3, T2, T1, <- !app_assoc; reflexivity|].
        unfold requests_ok. cbn. split; [|split].
        -- exists [page_id page]. split; [reflexivity|]. split; [simpl; lia|discriminate].
        -- exists []. split; [constructor|reflexivity].
        -- intros e' [= <-]. right. exists (page_id page). exact H4.
    + unfold ret. cbn [fst snd]. exists [].
      rewrite T1, app_nil_r. split; [reflexivity|].
      apply requests_ok_nil. discriminate.
Qed.

Lemma backup_recursive_requests (fuel : nat) :
  forall parent base s,
    exists evs head,
      trace (backup_recursive pf env fuel parent base s).2 = trace s ++ evs /\
      (head = [] \/ head = [api_param parent]) /\
      requests_ok env (backup_recursive pf env fuel parent base s).1 evs head.
Proof.
  induction fuel as [|fuel IH]; intros parent base s.
  - exists [], []. cbn. rewrite app_nil_r. split; [reflexivity|]. split; [left; reflexivity|].
    apply requests_ok_nil. discriminate.
  - destruct (Z_lt_le_dec (count (page_counter s)) (limit (page_counter s)))
      as [Hlt|Hle]; [|destruct (Z.eq_dec (limit (page_counter s)) (-1)) as [Hu|Hb]].
    3: { rewrite backup_recursive_closed by assumption.
         exists [], []. cbn. rewrite app_nil_r. split; [reflexivity|].
         split; [left; reflexivity|]. apply requests_ok_nil. discriminate. }
    all: rewrite backup_recursive_open by (auto; lia).
    all: destruct (get_pages_trace parent s) as (r1 & s1 & E1 & P1 & T1 & H1).
    all: destruct r1 as [pages|e|]; [| |destruct H1].
    all: try (rewrite (bind_ok _ _ _ _ _ E1);
              destruct (each_page_requests (backup_recursive pf env fuel)
                          (fun p b s0 => IH (Some p) b s0) pages parent base s1)
                as (evs2 & T2 & (CR & (l & SL & LR) & FR));
              exists ([ApiGetPages (api_param parent)] ++ evs2), [api_param parent];
              split; [rewrite T2, T1, <- app_assoc; reflexivity|];
              split; [right; reflexivity|];
              unfold requests_ok;
              rewrite content_requests_app, list_requests_app, saved_pages_app;
              cbn [content_requests list_requests saved_pages app List.map];
              split; [exact CR|]; split; [|exact FR];
              exists l; split; [exact SL|]; rewrite LR; reflexivity).
    all: rewrite (bind_raise _ _ _ _ _ E1); cbn [fst snd].
    all: exists [ApiGetPages (api_param parent)], [api_param parent].
    all: split; [exact T1|]; split; [right; reflexivity|].
    all: unfold requests_ok; cbn; split; [|split].
    all: try (exists []; split; [reflexivity|]; split; [simpl; lia|reflexivity]).
    all: try (exists []; split; [constructor|reflexivity]).
    all: intros e' [= <-]; left; exists (api_param parent); exact H1.
Qed.
End Requests.

Section RequestsOfARun.
Context (pf : Platform) (env : Env) (mgr : Manager).

Lemma backup_requests (fuel : nat) :
  exists r s' extra l,
    backup pf env mgr fuel (start mgr) = (r, s') /\
    content_requests (trace s') = List.map fst (saved_pages (trace s')) ++ extra /\
    (length extra <= 1)%nat /\
    (r = Ok tt -> extra = []) /\
    sublist l (List.map fst (saved_pages (trace s'))) /\
    list_requests (trace s') = None :: List.map (fun p => api_param (Some p)) l /\
    (forall e, r = Raise e -> e = NoRootPage \/ server_failure env e).
Proof.
  unfold backup.
  destruct (get_pages_trace env None (start mgr)) as (r1 & s1 & E1 & P1 & T1 & H1).
  cbn [start trace app api_param] in T1.
  destruct r1 as [[|root_page more]|e|]; [| | |destruct H1].
  - rewrite (bind_ok _ _ _ _ _ E1). unfold raise.
    exists (Raise NoRootPage), s1, [], []. rewrite T1. cbn.
    split; [reflexivity|]. split; [reflexivity|]. split; [lia|].
    split; [reflexivity|]. split; [constructor|]. split; [reflexivity|].
    intros e [= <-]. left. reflexivity.
  - rewrite (bind_ok _ _ _ _ _ E1).
    destruct (get_page_content_trace env (page_id root_page) s1)
      as (r2 & s2 & E2 & P2 & T2 & H2).
    destruct r2 as [root_content|e|]; [| |destruct H2].
    + rewrite (bind_ok _ _ _ _ _ E2).
      destruct (_create_numbered_dir_step pf (backup_dir mgr) (project_code mgr) 1 s2)
        as (s3 & E3 & P3 & T3).
      rewrite (bind_ok _ _ _ _ _ E3).
      destruct (with_counter_step increment s3) as (s4 & E4 & P4 & T4).
      rewrite (bind_ok _ _ _ _ _ E4).
      destruct (with_counter_step (get_next_number lit_root) s4) as (s5 & E5 & P5 & T5).
      rewrite (bind_ok _ _ _ _ _ E5).
      match goal with
      | |- context [_save_page pf env root_page root_content ?p] =>
          set (root_path := p) in *;
          destruct (_save_page_step pf env root_page root_content root_path s5)
            as (s6 & evs6 & E6 & P6 & T6 & A6 & S6 & _)
      end.
      rewrite (bind_ok _ _ _ _ _ E6).
      destruct (no_api_calls_no_requests evs6 A6) as [C6 L6].
      destruct (backup_recursive_requests pf env fuel (Some (page_id root_page)) root_path s6)
        as (evs7 & head & T7 & Hhead & R7).
      destruct (backup_recursive pf env fuel (Some (page_id root_page)) root_path s6)
        as [r7 s7] eqn:E7.
      cbn [fst snd] in T7, R7.
      set (evs1 := [ApiGetPageContent (page_id root_page); MakeDirs root_path] ++ evs6).
      assert (Ht6 : trace s6 = ApiGetPages None :: evs1).
      { unfold evs1. rewrite T6, T5, T4, T3, T2, T1. reflexivity. }
      assert (Hc1 : content_requests evs1 = [page_id root_page])
        by (unfold evs1; rewrite content_requests_app, C6; reflexivity).
      assert (Hl1 : list_requests evs1 = [])
        by (unfold evs1; rewrite list_requests_app, L6; reflexivity).
      assert (Hs1 : List.map fst (saved_pages evs1) = [page_id root_page])
        by (unfold evs1; rewrite saved_pages_app, S6; reflexivity).
      pose proof (requests_ok_page env r7 (page_id root_page) evs1 evs7 head
                    Hc1 Hl1 Hs1 Hhead R7) as ((x & CR & NX & XR) & (l & SL & LR) & FR).
      assert (Ht7 : trace s7 = ApiGetPages None :: (evs1 ++ evs7))
        by (rewrite T7, Ht6; reflexivity).
      destruct r7 as [[]|e|].
      * rewrite (bind_ok _ _ _ _ _ E7). unfold bind, read_counter, emit.
        exists (Ok tt), {| page_counter := page_counter s7; downloader := downloader s7;
                          dirs := dirs s7; files := files s7;
                          trace := trace s7 ++ [LogTotal (count (page_counter s7))];
                          clock := clock s7; fetches := fetches s7 |}, x, l.
        cbn [trace]. rewrite Ht7.
        change (ApiGetPages None :: (evs1 ++ evs7))
          with ([ApiGetPages None] ++ (evs1 ++ evs7)).
        rewrite !content_requests_app, !list_requests_app, !saved_pages_app.
        cbn [content_requests list_requests saved_pages app]. rewrite !app_nil_r.
        rewrite <- content_requests_app, <- list_requests_app, <- saved_pages_app.
        rewrite CR, LR.
        split; [reflexivity|]. split; [reflexivity|]. split; [exact NX|].
        split; [exact XR|]. split; [exact SL|]. split; [reflexivity|]. discriminate.
      * rewrite (bind_raise _ _ _ _ _ E7).
        exists (Raise e), s7, x, l. rewrite Ht7.
        change (ApiGetPages None :: (evs1 ++ evs7))
          with ([ApiGetPages None] ++ (evs1 ++ evs7)).
        rewrite !content_requests_app, !list_requests_app, !saved_pages_app.
        cbn [content_requests list_requests saved_pages app].
        rewrite <- content_requests_app, <- list_requests_app, <- saved_pages_app.
        rewrite CR, LR.
        split; [reflexivity|]. split; [reflexivity|]. split; [exact NX|].
        split; [exact XR|]. split; [exact SL|]. split; [reflexivity|].
        intros e' He'. right. exact (FR e' He').
      * rewrite (bind_out_of_fuel _ _ _ _ E7).
        exists OutOfFuel, s7, x, l. rewrite Ht7.
        change (ApiGetPages None :: (evs1 ++ evs7))
          with ([ApiGetPages None] ++ (evs1 ++ evs7)).
        rewrite !content_requests_app, !list_requests_app, !saved_pages_app.
        cbn [content_requests list_requests saved_pages app].
        rewrite <- content_requests_app, <- list_requests_app, <- saved_pages_app.
        rewrite CR, LR.
        split; [reflexivity|]. split; [reflexivity|]. split; [exact NX|].
        split; [exact XR|]. split; [exact SL|]. split; [reflexivity|]. discriminate.
    + rewrite (bind_raise _ _ _ _ _ E2).
      exists (Raise e), s2, [page_id root_page], []. rewrite T2, T1. cbn.
      split; [reflexivity|]. split; [reflexivity|]. split; [lia|].
      split; [discriminate|]. split; [constructor|]. split; [reflexivity|].
      intros e' [= <-]. right. right. exists (page_id root_page). exact H2.
  - rewrite (bind_raise _ _ _ _ _ E1).
    exists (Raise e), s1, [], []. rewrite T1. cbn.
    split; [reflexivity|]. split; [reflexivity|]. split; [lia|].
    split; [reflexivity|]. split; [constructor|]. split; [reflexivity|].
    intros e' [= <-]. right. left. exists None. exact H1.
Qed.

(** X5: whatever the server, the browser and the outcome: a run asks for
    the list of the top-level pages once, then only for the children of
    pages it has written, in the order it wrote them and at most once for
    each writing; and it asks for the content of the pages it writes, in
    that order, and of at most one page more. *)
Theorem requests_follow_pages_written (fuel : nat) :
  exists extra l,
    content_requests (trace (backup pf env mgr fuel (start mgr)).2)
    = List.map fst (saved_pages (trace (backup pf env mgr fuel (start mgr)).2)) ++ extra /\
    (length extra <= 1)%nat /\
    sublist l (List.map fst (saved_pages (trace (backup pf env mgr fuel (start mgr)).2))) /\
    list_requests (trace (backup pf env mgr fuel (start mgr)).2)
    = None :: List.map (fun p => api_param (Some p)) l.
Proof.
  destruct (backup_requests fuel) as (r & s' & extra & l & E & C & N1 & _ & S & L & _).
  rewrite E. exists extra, l. repeat split; assumption.
Qed.

(** X6: a run with a limit makes at most [2 * max 1 limit + 2] requests to
    the server. *)
Theorem limited_run_bounds_requests (fuel : nat) :
  page_limit mgr <> -1 ->
  Z.of_nat (length (api_calls (trace (backup pf env mgr fuel (start mgr)).2)))
  <= 2 * Z.max 1 (page_limit mgr) + 2.
Proof.
  intros Hl.
  destruct (backup_requests fuel) as (r & s' & extra & l & E & C & N1 & _ & S & L & _).
  destruct (backup_summary pf env mgr fuel) as (r2 & s2 & E' & _ & Hq & _).
  rewrite E in E'. injection E' as <- <-. rewrite E. cbn [snd].
  specialize (Hq Hl). unfold pages_written in Hq.
  rewrite api_calls_length, C, L. cbn [length].
  apply sublist_length in S.
  rewrite length_app, !length_map in *. lia.
Qed.

(** X7: a run that ends without raising has asked for the content of the
    pages it wrote, each when it wrote it, and of no other page. *)
Theorem completed_run_fetches_what_it_writes (fuel : nat) :
  (backup pf env mgr fuel (start mgr)).1 = Ok tt ->
  content_requests (trace (backup pf env mgr fuel (start mgr)).2)
  = List.map fst (saved_pages (trace (backup pf env mgr fuel (start mgr)).2)).
Proof.
  destruct (backup_requests fuel) as (r & s' & extra & l & E & C & _ & X & _).
  rewrite E. cbn [fst snd]. intros ->. rewrite C, (X eq_refl), app_nil_r. reflexivity.
Qed.

End RequestsOfARun.

Lemma limited_run_bounds_requests_witness :
  Z.of_nat (length (api_calls (trace (backup (posix sample_db) sample_env (sample_mgr 2) 5
                                         (start (sample_mgr 2))).2)))
  <= 2 * Z.max 1 2 + 2.
Proof.
  assert (H : page_limit (sample_mgr 2) <> -1) by discriminate.
  exact (limited_run_bounds_requests (posix sample_db) sample_env (sample_mgr 2) 5 H).
Defined.

Lemma completed_run_fetches_what_it_writes_witness :
  content_requests (trace (backup (posix sample_db) sample_env (sample_mgr (-1)) 5
                             (start (sample_mgr (-1)))).2)
  = List.map fst (saved_pages (trace (backup (posix sample_db) sample_env (sample_mgr (-1)) 5
                                        (start (sample_mgr (-1)))).2)).
Proof.
  assert (H : (backup (posix sample_db) sample_env (sample_mgr (-1)) 5
                 (start (sample_mgr (-1)))).1 = Ok tt) by (vm_compute; reflexivity).
  exact (completed_run_fetches_what_it_writes (posix sample_db) sample_env
           (sample_mgr (-1)) 5 H).
Defined.

(** * The walk does not depend on the downloads *)

Lemma skeleton_app (a b : list event) : skeleton (a ++ b) = skeleton a ++ skeleton b.
Proof. apply flat_map_app. Qed.

Lemma agree_ret {A : Type} (a : A) : agree (ret a) (ret a).
Proof. intros s1 s2 H. split; [reflexivity|exact H]. Qed.

Lemma agree_raise {A : Type} (e : exn) : agree (@raise A e) (raise e).
Proof. intros s1 s2 H. split; [reflexivity|exact H]. Qed.

Lemma agree_bind {A B : Type} (m1 m2 : M A) (k1 k2 : A -> M B) :
  agree m1 m2 -> (forall a, agree (k1 a) (k2 a)) -> agree (bind m1 k1) (bind m2 k2).
Proof.
  intros Hm Hk s1 s2 H. unfold bind.
  destruct (Hm s1 s2 H) as [Hr Hs].
  destruct (m1 s1) as [r1 s1'], (m2 s2) as [r2 s2']. cbn [fst snd] in Hr, Hs. subst r2.
  destruct r1 as [a|e|]; [apply Hk; exact Hs| |]; split; [reflexivity|exact Hs|reflexivity|exact Hs].
Qed.

Lemma agree_emit (e : event) : agree (emit e) (emit e).
Proof.
  intros s1 s2 (Hp & Hf & Hd & Ht). unfold emit, same_walk. cbn.
  rewrite !skeleton_app, Ht. repeat split; assumption.
Qed.

Lemma agree_makedirs (path : list N) : agree (makedirs path) (makedirs path).
Proof.
  intros s1 s2 (Hp & Hf & Hd & Ht). unfold makedirs, same_walk. cbn.
  rewrite !skeleton_app, Ht, Hd. repeat split; assumption.
Qed.

Lemma agree_with_counter {A : Type} (f : PageCounter -> A * PageCounter) :
  agree (with_counter f) (with_counter f).
Proof.
  intros s1 s2 (Hp & Hf & Hd & Ht). unfold with_counter, same_walk. rewrite Hp.
  destruct (f (page_counter s2)) as [a pc]. cbn. repeat split; assumption.
Qed.

Lemma alike_ret {A B : Type} (a : A) (b : B) : alike (ret a) (ret b).
Proof.
  intros s1 s2 H. exists a, b, s1, s2.
  split; [reflexivity|]. split; [reflexivity|exact H].
Qed.

Lemma alike_bind {A A' B B' : Type} (m1 : M A) (m2 : M A')
      (k1 : A -> M B) (k2 : A' -> M B') :
  alike m1 m2 -> (forall a a', alike (k1 a) (k2 a')) -> alike (bind m1 k1) (bind m2 k2).
Proof.
  intros Hm Hk s1 s2 H.
  destruct (Hm s1 s2 H) as (a & a' & s1' & s2' & E1 & E2 & H').
  unfold bind. rewrite E1, E2. apply Hk, H'.
Qed.

Lemma alike_makedirs (path : list N) : alike (makedirs path) (makedirs path).
Proof.
  intros s1 s2 (Hp & Hf & Hd & Ht). unfold makedirs.
  do 4 eexists. split; [reflexivity|]. split; [reflexivity|].
  unfold same_walk. cbn. rewrite !skeleton_app, Ht, Hd. repeat split; assumption.
Qed.

(* the text of content.md is not part of the walk *)
Lemma alike_write_file (path : list N) (d1 d2 : file_data) :
  skeleton [WriteFile path d1] = skeleton [WriteFile path d2] ->
  alike (write_file path d1) (write_file path d2).
Proof.
  intros Hsk s1 s2 (Hp & Hf & Hd & Ht). unfold write_file.
  do 4 eexists. split; [reflexivity|]. split; [reflexivity|].
  unfold same_walk. cbn [page_counter downloader dirs trace].
  rewrite !skeleton_app, Ht, Hsk. repeat split; assumption.
Qed.

Lemma agree_read_counter : agree read_counter read_counter.
Proof.
  intros s1 s2 H. unfold read_counter. cbn. split; [|exact H].
  destruct H as [-> _]. reflexivity.
Qed.

Section SameServer.
Context (pf : Platform) (env : Env) (clk : nat -> list N) (brw : nat -> download_result).

Lemma agree_get_pages (parent : option (list N)) :
  agree (get_pages (with_browser env clk brw) parent) (get_pages env parent).
Proof.
  unfold get_pages. apply agree_bind; [apply agree_emit|]. intros _.
  cbn [with_browser srv_pages].
  destruct (srv_pages env _); [apply agree_ret|apply agree_raise].
Qed.

Lemma agree_get_page_content (page : list N) :
  agree (get_page_content (with_browser env clk brw) page) (get_page_content env page).
Proof.
  unfold get_page_content. apply agree_bind; [apply agree_emit|]. intros _.
  cbn [with_browser srv_page_content].
  destruct (srv_page_content env _); [apply agree_ret|apply agree_raise].
Qed.

Lemma agree__create_numbered_dir (base subject : list N) (number : Z) :
  agree (_create_numbered_dir pf base subject number)
        (_create_numbered_dir pf base subject number).
Proof.
  unfold _create_numbered_dir. apply agree_bind; [apply agree_makedirs|].
  intros _. apply agree_ret.
Qed.

(** Whatever the browser and the clock, the writing of a page makes the
    same directories and writes the same two files. *)
Lemma alike_replace_image (dir alt w f : list N) :
  alike (replace_image pf (with_browser env clk brw) dir alt w f)
        (replace_image pf env dir alt w f).
Proof.
  intros s1 s2 (Hp & Hf & Hd & Ht).
  destruct (replace_image_run pf (with_browser env clk brw) dir alt w f s1)
    as (s1' & E1 & P1 & T1 & _ & _ & F1 & D1).
  destruct (replace_image_run pf env dir alt w f s2)
    as (s2' & E2 & P2 & T2 & _ & _ & F2 & D2).
  do 2 eexists. exists s1', s2'. split; [exact E1|]. split; [exact E2|].
  unfold same_walk. rewrite P1, P2, F1, F2, D1, D2, T1, T2, Hf, Hd, Hp.
  rewrite !skeleton_app, Ht.
  split; [reflexivity|]. split; [reflexivity|]. split; reflexivity.
Qed.

Lemma alike_re_sub (dir : list N) (ts : list token) :
  alike (re_sub (replace_image pf (with_browser env clk brw) dir) ts)
        (re_sub (replace_image pf env dir) ts).
Proof.
  induction ts as [|[c|alt w f] ts IH]; cbn [re_sub].
  - apply alike_ret.
  - apply alike_bind; [exact IH|]. intros r r'. apply alike_ret.
  - apply alike_bind; [apply alike_replace_image|]. intros piece piece'.
    apply alike_bind; [exact IH|]. intros r r'. apply alike_ret.
Qed.

Lemma alike__process_inline_images (content page_path : list N) :
  alike (_process_inline_images pf (with_browser env clk brw) content page_path)
        (_process_inline_images pf env content page_path).
Proof.
  unfold _process_inline_images. apply alike_bind; [apply alike_makedirs|].
  intros _ _. apply alike_re_sub.
Qed.

Lemma alike_attachment_line (dir : list N) (file : FileDesc) :
  alike (attachment_line pf (with_browser env clk brw) dir file)
        (attachment_line pf env dir file).
Proof.
  intros s1 s2 (Hp & Hf & Hd & Ht).
  destruct (attachment_line_run pf (with_browser env clk brw) dir file s1)
    as (l1 & s1' & n1 & E1 & P1 & T1 & F1 & D1).
  destruct (attachment_line_run pf env dir file s2)
    as (l2 & s2' & n2 & E2 & P2 & T2 & F2 & D2).
  exists l1, l2, s1', s2'. split; [exact E1|]. split; [exact E2|].
  unfold same_walk. rewrite P1, P2, F1, F2, D1, D2, T1, T2, !skeleton_app, Ht.
  repeat split; assumption.
Qed.

Lemma alike_attachment_lines (dir : list N) (files : list FileDesc) :
  alike (mapM (attachment_line pf (with_browser env clk brw) dir) files)
        (mapM (attachment_line pf env dir) files).
Proof.
  induction files as [|file files IH]; cbn [mapM]; [apply alike_ret|].
  apply alike_bind; [apply alike_attachment_line|]. intros y y'.
  apply alike_bind; [exact IH|]. intros ys ys'. apply alike_ret.
Qed.

Lemma alike_ensure_downloader :
  alike (ensure_downloader pf (with_browser env clk brw)) (ensure_downloader pf env).
Proof.
  intros s1 s2 H. pose proof H as (Hp & Hf & Hd & Ht).
  unfold ensure_downloader. rewrite Hf. destruct (downloader s2) eqn:Ed.
  - exists tt, tt, s1, s2. split; [reflexivity|]. split; [reflexivity|exact H].
  - unfold SeleniumDownloader_init, bind, makedirs, set_downloader.
    do 4 eexists. split; [reflexivity|]. split; [reflexivity|].
    unfold same_walk. cbn [page_counter downloader dirs trace].
    rewrite !skeleton_app, Ht, Hd.
    split; [exact Hp|]. split; [reflexivity|]. split; reflexivity.
Qed.

Lemma alike__process_attachments (files : list FileDesc) (page_path : list N) :
  alike (_process_attachments pf (with_browser env clk brw) files page_path)
        (_process_attachments pf env files page_path).
Proof.
  destruct files as [|file files]; cbn [_process_attachments]; [apply alike_ret|].
  apply alike_bind; [apply alike_makedirs|]. intros _ _.
  apply alike_bind; [apply alike_ensure_downloader|]. intros _ _.
  apply alike_attachment_lines.
Qed.

Lemma alike__save_page (page_data : Page) (content_data : PageContent)
      (page_path : list N) :
  alike (_save_page pf (with_browser env clk brw) page_data content_data page_path)
        (_save_page pf env page_data content_data page_path).
Proof.
  unfold _save_page.
  apply alike_bind; [apply alike__process_inline_images|]. intros content content'.
  apply alike_bind; [apply alike__process_attachments|]. intros links links'.
  apply alike_bind; [apply alike_write_file; reflexivity|]. intros _ _.
  apply alike_write_file. reflexivity.
Qed.

Lemma agree__save_page (page_data : Page) (content_data : PageContent)
      (page_path : list N) :
  agree (_save_page pf (with_browser env clk brw) page_data content_data page_path)
        (_save_page pf env page_data content_data page_path).
Proof.
  intros s1 s2 H.
  destruct (alike__save_page page_data content_data page_path s1 s2 H)
    as ([] & [] & s1' & s2' & E1 & E2 & H').
  rewrite E1, E2. split; [reflexivity|exact H'].
Qed.

Lemma agree_each_page (recur1 recur2 : option (list N) -> list N -> M unit)
      (parent : option (list N)) (base : list N) (pages : list Page) :
  (forall p b, agree (recur1 p b) (recur2 p b)) ->
  agree (each_page pf (with_browser env clk brw) recur1 parent base pages)
        (each_page pf env recur2 parent base pages).
Proof.
  intros Hrec. induction pages as [|page more IH]; [apply agree_ret|].
  cbn [each_page]. apply agree_bind; [apply agree_with_counter|]. intros within.
  destruct (negb within); [apply agree_ret|].
  apply agree_bind; [apply agree_with_counter|]. intros number.
  apply agree_bind; [apply agree__create_numbered_dir|]. intros path.
  apply agree_bind; [apply agree_get_page_content|]. intros c.
  apply agree_bind; [apply agree__save_page|]. intros _.
  apply agree_bind; [apply Hrec|]. intros _. exact IH.
Qed.

Lemma agree_backup_recursive (fuel : nat) :
  forall parent base,
    agree (backup_recursive pf (with_browser env clk brw) fuel parent base)
          (backup_recursive pf env fuel parent base).
Proof.
  induction fuel as [|fuel IH]; intros parent base.
  - intros s1 s2 H. split; [reflexivity|exact H].
  - cbn [backup_recursive]. apply agree_bind; [apply agree_read_counter|]. intros pc.
    destruct ((limit pc <=? count pc) && negb (limit pc =? -1)); [apply agree_ret|].
    apply agree_bind; [apply agree_get_pages|]. intros pages.
    apply agree_each_page. exact IH.
Qed.

Lemma agree_backup (mgr : Manager) (fuel : nat) :
  agree (backup pf (with_browser env clk brw) mgr fuel) (backup pf env mgr fuel).
Proof.
  unfold backup. apply agree_bind; [apply agree_get_pages|]. intros [|root_page more].
  - apply agree_raise.
  - apply agree_bind; [apply agree_get_page_content|]. intros c.
    apply agree_bind; [apply agree__create_numbered_dir|]. intros path.
    apply agree_bind; [apply agree_with_counter|]. intros _.
    apply agree_bind; [apply agree_with_counter|]. intros _.
    apply agree_bind; [apply agree__save_page|]. intros _.
    apply agree_bind; [apply agree_backup_recursive|]. intros _.
    apply agree_bind; [apply agree_read_counter|]. intros pc.
    apply agree_emit.
Qed.

(** X9: with the same server, another browser and another clock change
    neither the outcome of a run, nor the count it ends with, nor the
    directories it makes, nor what it does apart from the downloads and the
    text of the content.md files: the same requests, the same directories
    and the same files with the same metadata, in the same order. *)
Theorem walk_independent_of_downloads (mgr : Manager) (fuel : nat) :
  (backup pf (with_browser env clk brw) mgr fuel (start mgr)).1
  = (backup pf env mgr fuel (start mgr)).1 /\
  page_counter (backup pf (with_browser env clk brw) mgr fuel (start mgr)).2
  = page_counter (backup pf env mgr fuel (start mgr)).2 /\
  dirs (backup pf (with_browser env clk brw) mgr fuel (start mgr)).2
  = dirs (backup pf env mgr fuel (start mgr)).2 /\
  skeleton (trace (backup pf (with_browser env clk brw) mgr fuel (start mgr)).2)
  = skeleton (trace (backup pf env mgr fuel (start mgr)).2).
Proof.
  assert (H0 : same_walk (start mgr) (start mgr))
    by (split; [reflexivity|split; [reflexivity|split; reflexivity]]).
  destruct (agree_backup mgr fuel (start mgr) (start mgr) H0)
    as (Hr & Hp & _ & Hd & Ht).
  split; [exact Hr|]. split; [exact Hp|]. split; [exact Hd|exact Ht].
Qed.
End SameServer.

(** * Names on disk *)

Lemma rfind_negative (c : N) (p : list N) :
  rfind c p < 0 -> Forall (fun x => x <> c) p.
Proof.
  induction p as [|x p IH]; intros H; [constructor|].
  cbn [rfind] in H.
  destruct (Z.leb_spec 0 (rfind c p)) as [?|Hneg]; [lia|].
  destruct (N.eqb_spec x c) as [?|Hx]; [lia|].
  constructor; [exact Hx|apply IH; exact Hneg].
Qed.

Lemma rfind_lower (c : N) (p : list N) : -1 <= rfind c p.
Proof.
  induction p as [|x p IH]; cbn [rfind]; [lia|].
  destruct (Z.leb_spec 0 (rfind c p)); [lia|]. destruct (x =? c)%N; lia.
Qed.

(** Past the last occurrence of a character there is none. *)
Lemma rfind_drop (c : N) (p : list N) (i : nat) :
  rfind c p < Z.of_nat i -> Forall (fun x => x <> c) (drop i p).
Proof.
  revert i. induction p as [|x p IH]; intros i H; [rewrite drop_nil; constructor|].
  destruct i as [|i].
  - apply rfind_negative. exact H.
  - cbn [drop]. apply IH. cbn [rfind] in H. pose proof (rfind_lower c p).
    destruct (Z.leb_spec 0 (rfind c p)); lia.
Qed.

Section FileNames.
Context (pf : Platform).

Lemma safe_name_char_no_sep (c : N) : is_sep pf (safe_name_char pf c) = false.
Proof.
  assert (H : safe_name_char pf c <> 47%N /\ safe_name_char pf c <> 92%N).
  { unfold safe_name_char.
    destruct (isalnum (unicode pf) c || one_of [45; 95]%N c) eqn:E.
    - split; intros ->; vm_compute in E; discriminate.
    - split; discriminate. }
  destruct H as [H1 H2]. unfold is_sep, os_sep, os_altsep.
  apply N.eqb_neq in H1, H2. destruct (os pf); rewrite ?H1, ?H2; reflexivity.
Qed.

Lemma splitext_ext_no_sep (p : list N) :
  Forall (fun c => is_sep pf c = false) (splitext pf p).2.
Proof.
  unfold splitext, _splitext.
  set (sepIndex := match os_altsep pf with
                   | Some a => Z.max (rfind (os_sep pf) p) (rfind a p)
                   | None => rfind (os_sep pf) p
                   end).
  destruct (Z.ltb_spec sepIndex (rfind 46%N p)) as [Hlt|_]; [|constructor].
  destruct (existsb _ _); [|constructor]. cbn [snd].
  pose proof (rfind_lower 46%N p) as Hdot.
  assert (Hs : Forall (fun x => x <> os_sep pf) (drop (Z.to_nat (rfind 46%N p)) p)).
  { apply rfind_drop. pose proof (rfind_lower (os_sep pf) p). unfold sepIndex in Hlt.
    destruct (os_altsep pf); lia. }
  assert (Ha : forall a, os_altsep pf = Some a ->
                         Forall (fun x => x <> a) (drop (Z.to_nat (rfind 46%N p)) p)).
  { intros a Ea. apply rfind_drop. pose proof (rfind_lower a p). unfold sepIndex in Hlt.
    rewrite Ea in Hlt. lia. }
  unfold is_sep.
  induction (drop (Z.to_nat (rfind 46%N p)) p) as [|x l IH]; [constructor|].
  apply Forall_cons in Hs as [Hx Hs].
  constructor.
  - apply N.eqb_neq in Hx. rewrite Hx. cbn [orb].
    destruct (os_altsep pf) as [a|] eqn:Ea; [|reflexivity].
    specialize (Ha a eq_refl). apply Forall_cons in Ha as [Hxa _].
    apply N.eqb_neq. exact Hxa.
  - apply IH; [exact Hs|].
    intros a Ea. specialize (Ha a Ea). apply Forall_cons in Ha as [_ Ha]. exact Ha.
Qed.

(** X10: the name under which a download is stored holds no path separator
    of the platform, whatever the name the server gives the file, as long
    as the time stamp holds none: the file stays in the directory it is
    joined to. *)
Theorem unique_filename_stays_in_directory (original_name timestamp : list N) :
  Forall (fun c => is_sep pf c = false) timestamp ->
  Forall (fun c => is_sep pf c = false) (unique_filename pf original_name timestamp).
Proof.
  intros Hts. unfold unique_filename.
  pose proof (splitext_ext_no_sep original_name) as Hext.
  destruct (splitext pf original_name) as [base_name ext]. cbn [snd] in Hext.
  apply Forall_app. split.
  - induction base_name as [|c l IH]; cbn [List.map]; constructor;
      [apply safe_name_char_no_sep|exact IH].
  - constructor; [|apply Forall_app; split; assumption].
    unfold is_sep, os_sep, os_altsep. destruct (os pf); reflexivity.
Qed.

Lemma digits_then_space (a b x y : list N) :
  Forall (fun c => ascii_decimal c = true) a ->
  Forall (fun c => ascii_decimal c = true) b ->
  a ++ 32%N :: x = b ++ 32%N :: y -> a = b /\ x = y.
Proof.
  intros Ha. revert b. induction Ha as [|c a Hc Ha IH]; intros b Hb E.
  - destruct Hb as [|d b Hd Hb]; cbn [app] in E.
    + injection E as ->. split; reflexivity.
    + injection E as <- _. vm_compute in Hd. discriminate.
  - destruct Hb as [|d b Hd Hb]; cbn [app] in E.
    + injection E as -> _. vm_compute in Hc. discriminate.
    + injection E as -> E. destruct (IH b Hb E) as [-> ->]. split; reflexivity.
Qed.

(** X11: the directory names made for two numbers are the same only if the
    numbers are the same: pages numbered differently never share a
    directory name, even under the same title. *)
Theorem dir_name_determines_number (subject subject' : list N) (number number' : Z) :
  0 <= number -> 0 <= number' ->
  dir_name pf subject number = dir_name pf subject' number' ->
  number = number' /\ safe_subject pf subject = safe_subject pf subject'.
Proof.
  intros Hn Hn' E. unfold dir_name in E.
  destruct (format_02d_nonneg number Hn) as (_ & Hd & Hi).
  destruct (format_02d_nonneg number' Hn') as (_ & Hd' & Hi').
  destruct (digits_then_space _ _ _ _ Hd Hd' E) as [Ef Es].
  split; [|exact Es]. rewrite <- Hi, <- Hi', Ef. reflexivity.
Qed.
End FileNames.

Lemma unique_filename_stays_in_directory_witness :
  Forall (fun c => is_sep (posix sample_db) c = false)
         (unique_filename (posix sample_db) (U "../../etc/passwd.d/x.tar.gz")
            (U "20240101_120000_000001")).
Proof.
  apply (unique_filename_stays_in_directory (posix sample_db)).
  apply List.Forall_forall. intros c Hc. vm_compute in Hc.
  repeat (destruct Hc as [<-|Hc]; [reflexivity|]). destruct Hc.
Defined.

Lemma dir_name_determines_number_witness :
  3 = 3 /\ safe_subject (posix sample_db) (U "a/b") = safe_subject (posix sample_db) (U "a:b").
Proof.
  apply (dir_name_determines_number (posix sample_db) (U "a/b") (U "a:b") 3 3);
    [lia|lia|vm_compute; reflexivity].
Defined.

(** * The attachment lines *)

Section Attachments.
Context (pf : Platform) (env : Env).

Lemma attachment_line_entry (dir : list N) (file : FileDesc) (s : Run) :
  exists s',
    attachment_line pf env dir file s
    = (Ok (attachment_entry pf env file (fetches s) (clock s)), s') /\
    fetches s' = S (fetches s) /\
    clock s' = S (clock s).
Proof.
  unfold attachment_line, attachment_entry, try_except, bind, now, download_file,
    move_download, ret.
  cbn [fetches clock]. destruct (browser env (fetches s)); cbn; eexists; repeat split.
Qed.

Lemma attachment_lines_entries (dir : list N) (files : list FileDesc) (s : Run) :
  (mapM (attachment_line pf env dir) files s).1
  = Ok (attachment_entries pf env files (fetches s) (clock s)).
Proof.
  revert s. induction files as [|file more IH]; intros s; [reflexivity|].
  cbn [mapM attachment_entries].
  destruct (attachment_line_entry dir file s) as (s1 & E1 & F1 & C1).
  rewrite (bind_ok _ _ _ _ _ E1).
  specialize (IH s1). rewrite F1, C1 in IH.
  unfold bind at 1. destruct (mapM _ more s1) as [r s2]. cbn [fst] in IH. subst r.
  reflexivity.
Qed.

(** X12: the attachments of a page never make its writing fail: there is
    one line for each file, in the order of the files, and the line of a
    file is the link, the "download failed" line or the "processing error"
    line according to what the browser did for that file alone. *)
Theorem attachments_listed_whatever_happens (files : list FileDesc)
        (page_path : list N) (s : Run) :
  (_process_attachments pf env files page_path s).1
  = Ok (attachment_entries pf env files (fetches s) (clock s)).
Proof.
  destruct files as [|file more]; [reflexivity|].
  unfold _process_attachments, ensure_downloader, SeleniumDownloader_init.
  unfold bind at 1 2, makedirs. cbn [downloader].
  destruct (downloader s); [|unfold bind at 1, set_downloader];
    rewrite attachment_lines_entries; reflexivity.
Qed.
End Attachments.

(** * The pages of the project list *)

Section Projects.
Context (srv : projects_server).

(** The requests of the loop, whatever the server answers: one for each
    page from the page the loop is at, each with the parameters of the
    call and the number of the page. *)
Lemma get_projects_loop_requests (fuel : nat) :
  forall dp all page sent,
    0 <= page ->
    exists n,
      (get_projects_loop srv fuel dp all page sent).2
      = sent ++ List.map (fun k => <[ U "page" := PInt (page + Z.of_nat k) ]> dp) (seq 0 n).
Proof.
  induction fuel as [|fuel IH]; intros dp all page sent Hp.
  - exists 0%nat. cbn. rewrite app_nil_r. reflexivity.
  - cbn [get_projects_loop].
    assert (H1 : forall r : outcome (list Project),
               exists n, (r, sent ++ [<[ U "page" := PInt page ]> dp]).2
                         = sent ++ List.map (fun k => <[ U "page" := PInt (page + Z.of_nat k) ]> dp)
                                      (seq 0 n)).
    { intros r. exists 1%nat. cbn. rewrite Z.add_0_r. reflexivity. }
    destruct (srv (length sent) _) as [result|e]; [|apply H1].
    destruct (pp_result result) as [[|p ps]|]; [apply H1| |apply H1].
    destruct (_ <=? _); [apply H1|].
    destruct (IH (<[ U "page" := PInt page ]> dp) (all ++ p :: ps) (page + 1)
                (sent ++ [<[ U "page" := PInt page ]> dp]) ltac:(lia)) as (n & E).
    exists (S n). rewrite E. cbn [seq List.map]. rewrite <- app_assoc, Z.add_0_r.
    cbn [app]. do 2 f_equal.
    rewrite <- seq_shift, List.map_map. apply List.map_ext. intros k.
    rewrite insert_insert_eq. do 2 f_equal. lia.
Qed.

(** X13: whatever the server answers, the requests of get_projects ask for
    the pages 0, 1, 2, ... in turn, each with the parameters of the caller
    laid over the defaults; a page number among the caller's parameters is
    overridden. *)
Theorem get_projects_asks_pages_in_turn (fuel : nat)
        (params : option (gmap (list N) pvalue)) :
  exists n,
    (get_projects srv fuel params).2 = List.map (request_of params) (seq 0 n).
Proof.
  unfold get_projects.
  destruct (get_projects_loop_requests fuel (default_params params) [] 0 [] ltac:(lia))
    as (n & E).
  exists n. rewrite E. reflexivity.
Qed.

(** X14: an answer without totalCount ends the loop: the projects of the
    first page are returned and no second page is asked for, whatever the
    number of projects there are. *)
Theorem get_projects_stops_without_total (fuel : nat)
        (params : option (gmap (list N) pvalue)) (projects : list Project) :
  srv 0%nat (request_of params 0)
  = Reply {| pp_result := Some projects; pp_totalCount := None |} ->
  get_projects srv (S fuel) params = (Ok projects, [request_of params 0]).
Proof.
  intros H. unfold get_projects. cbn [get_projects_loop length].
  change (<[ U "page" := PInt 0 ]> (default_params params)) with (request_of params 0).
  rewrite H. cbn [pp_result pp_totalCount default].
  destruct projects as [|p ps]; [reflexivity|].
  cbn [app]. destruct (Z.leb_spec 0 (Z.of_nat (length (p :: ps)))); [reflexivity|lia].
Qed.
End Projects.

Section Paging.
Context (L : list Project) (params : option (gmap (list N) pvalue)).

Lemma paging_server_reply (k : nat) (page : Z) (dp : gmap (list N) pvalue) :
  dp !! U "size" = Some (PInt (size_of dp)) ->
  paging_server L k (<[ U "page" := PInt page ]> dp)
  = Reply {| pp_result :=
               Some (take (Z.to_nat (size_of dp)) (drop (Z.to_nat (page * size_of dp)) L));
             pp_totalCount := Some (Z.of_nat (length L)) |}.
Proof.
  intros Hs. unfold paging_server.
  rewrite lookup_insert_eq, lookup_insert_ne by (vm_compute; discriminate).
  rewrite Hs. reflexivity.
Qed.

Lemma get_projects_loop_paging (fuel : nat) :
  forall (dp : gmap (list N) pvalue) (page : nat) (sent : list (gmap (list N) pvalue)),
    dp !! U "size" = Some (PInt (size_of dp)) ->
    0 < size_of dp ->
    (page * Z.to_nat (size_of dp) < length L \/ page = 0)%nat ->
    (1 <= fuel)%nat ->
    (length L <= (page + fuel) * Z.to_nat (size_of dp))%nat ->
    (get_projects_loop (paging_server L) fuel dp
       (take (page * Z.to_nat (size_of dp)) L) (Z.of_nat page) sent).1 = Ok L.
Proof.
  induction fuel as [|fuel IH]; intros dp page sent Hs Hpos Hpage Hone Hfuel.
  - lia.
  - cbn [get_projects_loop]. rewrite paging_server_reply by exact Hs.
    cbn [pp_result pp_totalCount default].
    set (sz := Z.to_nat (size_of dp)) in *.
    replace (Z.to_nat (Z.of_nat page * size_of dp)) with (page * sz)%nat by lia.
    assert (Hsz : (0 < sz)%nat) by lia.
    destruct (take sz (drop (page * sz) L)) as [|p ps] eqn:Echunk.
    + (* nothing on this page: the list is empty *)
      cbn [fst]. f_equal.
      assert (Hlen : length (take sz (drop (page * sz) L)) = 0%nat)
        by (rewrite Echunk; reflexivity).
      rewrite length_take, length_drop in Hlen.
      apply take_ge. lia.
    + rewrite <- Echunk, take_take_drop. unfold id.
      destruct (Z.leb_spec (Z.of_nat (length L))
                  (Z.of_nat (length (take (page * sz + sz) L)))) as [Hall|Hmore].
      * cbn [fst]. f_equal. apply take_ge. rewrite length_take in Hall. lia.
      * rewrite length_take in Hmore.
        assert (Hs' : <[ U "page" := PInt (Z.of_nat page) ]> dp !! U "size"
                      = Some (PInt (size_of (<[ U "page" := PInt (Z.of_nat page) ]> dp)))).
        { unfold size_of. rewrite lookup_insert_ne by (vm_compute; discriminate).
          rewrite Hs. reflexivity. }
        assert (Esz : size_of (<[ U "page" := PInt (Z.of_nat page) ]> dp) = size_of dp).
        { unfold size_of. rewrite lookup_insert_ne by (vm_compute; discriminate).
          reflexivity. }
        specialize (IH (<[ U "page" := PInt (Z.of_nat page) ]> dp) (S page)
                      (sent ++ [<[ U "page" := PInt (Z.of_nat page) ]> dp]) Hs').
        rewrite Esz in IH. fold sz in IH.
        replace (Z.of_nat page + 1) with (Z.of_nat (S page)) by lia.
        replace (page * sz + sz)%nat with (S page * sz)%nat by lia.
        apply IH; [exact Hpos|left; lia|nia|lia].
Qed.

(** X15: against a server that pages through a list of projects as the
    requests ask, get_projects returns the whole list, in order, for any
    positive page size the parameters ask for; the loop needs no more
    rounds than there are pages: [fuel] rounds are enough as soon as [fuel]
    pages hold the list, and one round for the empty list. *)
Theorem get_projects_collects_all_pages (fuel : nat) :
  default_params params !! U "size" = Some (PInt (size_of (default_params params))) ->
  0 < size_of (default_params params) ->
  (1 <= fuel)%nat ->
  (length L <= fuel * Z.to_nat (size_of (default_params params)))%nat ->
  (get_projects (paging_server L) fuel params).1 = Ok L.
Proof.
  intros Hs Hpos Hone Hfuel. unfold get_projects.
  apply (get_projects_loop_paging fuel (default_params params) 0 []);
    [exact Hs|exact Hpos|right; reflexivity|exact Hone|exact Hfuel].
Qed.
End Paging.

Lemma get_projects_stops_without_total_witness :
  get_projects (countless_server sample_projects) 1 None
  = (Ok sample_projects, [request_of None 0]).
Proof.
  apply (get_projects_stops_without_total (countless_server sample_projects) 0 None
           sample_projects).
  reflexivity.
Defined.

Lemma get_projects_collects_all_pages_witness :
  (get_projects (paging_server sample_projects) 3 size_two).1 = Ok sample_projects.
Proof.
  apply (get_projects_collects_all_pages sample_projects size_two 3).
  - vm_compute. reflexivity.
  - vm_compute. reflexivity.
  - lia.
  - vm_compute. lia.
Defined.

(** * The downloader *)

Lemma sleeps_app (a b : list action) : sleeps (a ++ b) = (sleeps a + sleeps b)%nat.
Proof. unfold sleeps. rewrite List.filter_app, length_app. reflexivity. Qed.

Lemma moves_app (a b : list action) : moves (a ++ b) = moves a ++ moves b.
Proof. apply flat_map_app. Qed.

Lemma visits_app (a b : list action) : visits (a ++ b) = visits a ++ visits b.
Proof. apply flat_map_app. Qed.

Section Polling.
Context (pf : Platform) (w : Desktop) (cfg : DownloaderConfig).

(** What the wait does, whatever the desktop: it only sleeps, removes the
    target and moves one file onto it; a path is returned after fewer
    sleeps than rounds, for the first listing whose chosen new file is
    finished. *)
Lemma wait_for_download_spec (before : gset (list N)) (name : list N) (rounds : nat) :
  forall d,
    exists acts,
      actions (SeleniumDownloader.wait_for_download pf w cfg before name rounds d).2
      = actions d ++ acts /\
      driver (SeleniumDownloader.wait_for_download pf w cfg before name rounds d).2
      = driver d /\
      (listed (SeleniumDownloader.wait_for_download pf w cfg before name rounds d).2
       <= listed d + rounds)%nat /\
      visits acts = [] /\
      (sleeps acts <= rounds)%nat /\
      match (SeleniumDownloader.wait_for_download pf w cfg before name rounds d).1 with
      | Some p =>
          p = join pf (download_dir cfg) name /\
          (sleeps acts < rounds)%nat /\
          exists current,
            listdir_downloads w (listed d + sleeps acts) = Some current /\
            current ∖ before <> ∅ /\
            SeleniumDownloader.unfinished (first_of w (current ∖ before)) = false /\
            moves acts
            = [(join pf (downloads_path cfg) (first_of w (current ∖ before)), p)]
      | None => moves acts = []
      end.
Proof.
  induction rounds as [|rounds IH]; intros d.
  - exists []. cbn. rewrite app_nil_r. repeat split; lia.
  - cbn [SeleniumDownloader.wait_for_download SeleniumDownloader.listdir].
    destruct (listdir_downloads w (listed d)) as [current|] eqn:El.
    2: { exists []. cbn. rewrite app_nil_r. repeat split; lia. }
    set (d1 := {| driver := driver d; listed := S (listed d); actions := actions d |}).
    assert (Hsleep :
      exists acts,
        actions (SeleniumDownloader.wait_for_download pf w cfg before name rounds
                   (SeleniumDownloader.act Sleep d1)).2 = actions d ++ acts /\
        driver (SeleniumDownloader.wait_for_download pf w cfg before name rounds
                  (SeleniumDownloader.act Sleep d1)).2 = driver d /\
        (listed (SeleniumDownloader.wait_for_download pf w cfg before name rounds
                   (SeleniumDownloader.act Sleep d1)).2 <= listed d + S rounds)%nat /\
        visits acts = [] /\
        (sleeps acts <= S rounds)%nat /\
        match (SeleniumDownloader.wait_for_download pf w cfg before name rounds
                 (SeleniumDownloader.act Sleep d1)).1 with
        | Some p =>
            p = join pf (download_dir cfg) name /\
            (sleeps acts < S rounds)%nat /\
            exists current,
              listdir_downloads w (listed d + sleeps acts) = Some current /\
              current ∖ before <> ∅ /\
              SeleniumDownloader.unfinished (first_of w (current ∖ before)) = false /\
              moves acts
              = [(join pf (downloads_path cfg) (first_of w (current ∖ before)), p)]
        | None => moves acts = []
        end).
    { destruct (IH (SeleniumDownloader.act Sleep d1)) as (acts & Ha & Hd & Hl & Hv & Hs & Hr).
      exists (Sleep :: acts). unfold d1 in *.
      cbn [SeleniumDownloader.act actions driver listed] in Ha, Hd, Hl, Hr.
      split; [rewrite Ha, <- app_assoc; reflexivity|]. split; [exact Hd|].
      split; [lia|]. split; [exact Hv|].
      change (Sleep :: acts) with ([Sleep] ++ acts).
      rewrite sleeps_app, moves_app. cbn [sleeps List.filter length moves flat_map app].
      change (length (List.filter _ acts)) with (sleeps acts).
      split; [lia|].
      destruct (SeleniumDownloader.wait_for_download pf w cfg before name rounds _).1
        as [p|]; [|exact Hr].
      destruct Hr as (Hp & Hlt & cur & Hcur & Hne & Hun & Hm).
      split; [exact Hp|]. split; [lia|]. exists cur.
      replace (listed d + (1 + sleeps acts))%nat with (S (listed d) + sleeps acts)%nat by lia.
      split; [exact Hcur|]. split; [exact Hne|]. split; [exact Hun|exact Hm]. }
    destruct (decide (current ∖ before = ∅)) as [Hempty|Hnew]; [exact Hsleep|].
    destruct (SeleniumDownloader.unfinished (first_of w (current ∖ before))) eqn:Hun;
      [exact Hsleep|].
    clear Hsleep.
    destruct (path_exists w (join pf (download_dir cfg) name));
      [destruct (remove_succeeds w (join pf (download_dir cfg) name))|];
      try destruct (move_succeeds w _ _).
    + eexists [Remove _; Move _ _]. cbn. rewrite <- app_assoc.
      split; [reflexivity|]. split; [reflexivity|]. split; [lia|].
      split; [reflexivity|]. split; [lia|]. split; [reflexivity|]. split; [lia|].
      exists current. rewrite Nat.add_0_r. repeat split; assumption.
    + eexists [Remove _]. cbn. repeat split; lia.
    + exists []. cbn. rewrite app_nil_r. repeat split; lia.
    + eexists [Move _ _]. cbn.
      split; [reflexivity|]. split; [reflexivity|]. split; [lia|].
      split; [reflexivity|]. split; [lia|]. split; [reflexivity|]. split; [lia|].
      exists current. rewrite Nat.add_0_r. repeat split; assumption.
    + exists []. cbn. rewrite app_nil_r. repeat split; lia.
Qed.
End Polling.

Section DownloadFile.
Context (pf : Platform) (w : Desktop) (cfg : DownloaderConfig).

Lemma download_file_spec (file_id name : list N) (is_inline : bool) (d : Downloader) :
  exists acts,
    actions (SeleniumDownloader.download_file pf w cfg file_id name is_inline d).2
    = actions d ++ acts /\
    (listed (SeleniumDownloader.download_file pf w cfg file_id name is_inline d).2
     <= listed d + 11)%nat /\
    (sleeps acts <= 10)%nat /\
    (visits acts = [] \/
     visits acts = [SeleniumDownloader.file_url cfg file_id is_inline]) /\
    match (SeleniumDownloader.download_file pf w cfg file_id name is_inline d).1 with
    | Ok (Some p) =>
        p = join pf (download_dir cfg) name /\
        (sleeps acts < 10)%nat /\
        visits acts = [SeleniumDownloader.file_url cfg file_id is_inline] /\
        exists before current,
          listdir_downloads w (listed d) = Some before /\
          listdir_downloads w (S (listed d) + sleeps acts) = Some current /\
          current ∖ before <> ∅ /\
          SeleniumDownloader.unfinished (first_of w (current ∖ before)) = false /\
          moves acts = [(join pf (downloads_path cfg) (first_of w (current ∖ before)), p)]
    | Ok None => moves acts = []
    | Raise e =>
        e = DownloaderError /\ driver d = false /\ chrome_connects w = false /\ acts = []
    | OutOfFuel => False
    end.
Proof.
  unfold SeleniumDownloader.download_file, SeleniumDownloader.start.
  destruct (driver d) eqn:Edrv; [|destruct (chrome_connects w) eqn:Ech].
  3: { exists []. cbn [fst snd actions listed sleeps visits moves List.filter
                        flat_map length].
       rewrite app_nil_r.
       split; [reflexivity|]. split; [lia|]. split; [lia|]. split; [left; reflexivity|].
       split; [reflexivity|]. split; [reflexivity|]. split; reflexivity. }
  all: unfold SeleniumDownloader.listdir; cbn [listed actions driver].
  all: destruct (listdir_downloads w (listed d)) as [before|] eqn:Eb;
    [destruct (driver_get w (SeleniumDownloader.file_url cfg file_id is_inline))|].
  all: try (exists [];
            cbn [fst snd actions listed sleeps visits moves List.filter flat_map length];
            rewrite app_nil_r;
            split; [reflexivity|]; split; [lia|]; split; [lia|];
            split; [left; reflexivity|]; reflexivity).
  all: match goal with
       | |- context [SeleniumDownloader.wait_for_download pf w cfg ?b ?n 10 ?d1] =>
           destruct (wait_for_download_spec pf w cfg b n 10 d1)
             as (acts & Ha & _ & Hl & Hv & Hs & Hr);
           destruct (SeleniumDownloader.wait_for_download pf w cfg b n 10 d1)
             as [r d2]
       end.
  all: cbn [fst snd SeleniumDownloader.act actions listed] in *.
  all: exists (Visit (SeleniumDownloader.file_url cfg file_id is_inline) :: acts).
  all: change (Visit (SeleniumDownloader.file_url cfg file_id is_inline) :: acts)
         with ([Visit (SeleniumDownloader.file_url cfg file_id is_inline)] ++ acts).
  all: rewrite sleeps_app, visits_app, moves_app, Hv.
  all: cbn [sleeps List.filter length visits moves flat_map app Nat.add].
  all: split; [rewrite Ha, <- app_assoc; reflexivity|]; split; [lia|].
  all: split; [exact Hs|]; split; [right; reflexivity|].
  all: destruct r as [p|]; [|exact Hr].
  all: destruct Hr as (Hp & Hlt & cur & Hcur & Hne & Hun & Hm).
  all: split; [exact Hp|]; split; [exact Hlt|]; split; [reflexivity|].
  all: match goal with Hb : listdir_downloads w (listed _) = Some ?b |- _ => exists b, cur end.
  all: split; [reflexivity|]; split; [exact Hcur|]; split; [exact Hne|].
  all: split; [exact Hun|exact Hm].
Qed.


(** X17: whatever the desktop does, one call of download_file lists
    Downloads at most eleven times, sleeps at most ten times, sends the
    browser to at most one URL, the one of the file, and moves at most one
    file; it raises only when Chrome cannot be attached to, before doing
    anything. *)
Theorem download_file_is_bounded (file_id name : list N) (is_inline : bool)
        (d : Downloader) :
  exists acts,
    actions (SeleniumDownloader.download_file pf w cfg file_id name is_inline d).2
    = actions d ++ acts /\
    (listed (SeleniumDownloader.download_file pf w cfg file_id name is_inline d).2
     <= listed d + 11)%nat /\
    (sleeps acts <= 10)%nat /\
    (length (moves acts) <= 1)%nat /\
    (visits acts = [] \/
     visits acts = [SeleniumDownloader.file_url cfg file_id is_inline]) /\
    (forall e,
        (SeleniumDownloader.download_file pf w cfg file_id name is_inline d).1 = Raise e ->
        chrome_connects w = false /\ acts = []).
Proof.
  destruct (download_file_spec file_id name is_inline d) as (acts & Ha & Hl & Hs & Hv & Hr).
  exists acts. split; [exact Ha|]. split; [exact Hl|]. split; [exact Hs|].
  destruct (SeleniumDownloader.download_file pf w cfg file_id name is_inline d).1
    as [[p|]|e|].
  - destruct Hr as (_ & _ & _ & before & cur & _ & _ & _ & _ & Hm). rewrite Hm.
    split; [simpl; lia|]. split; [exact Hv|]. discriminate.
  - rewrite Hr. split; [simpl; lia|]. split; [exact Hv|]. discriminate.
  - destruct Hr as (_ & _ & Hc & ->). split; [simpl; lia|]. split; [exact Hv|].
    intros _ _. split; [exact Hc|reflexivity].
  - destruct Hr.
Qed.

Lemma wait_for_download_gives_up (before : gset (list N)) (name : list N) (rounds : nat) :
  forall d,
    (forall k, (k < rounds)%nat ->
       exists current,
         listdir_downloads w (listed d + k) = Some current /\
         (current ∖ before = ∅ \/
          SeleniumDownloader.unfinished (first_of w (current ∖ before)) = true)) ->
    SeleniumDownloader.wait_for_download pf w cfg before name rounds d
    = (None, {| driver := driver d; listed := listed d + rounds;
                actions := actions d ++ repeat Sleep rounds |}).
Proof.
  induction rounds as [|rounds IH]; intros d H.
  - cbn. rewrite Nat.add_0_r, app_nil_r. destruct d; reflexivity.
  - cbn [SeleniumDownloader.wait_for_download SeleniumDownloader.listdir].
    destruct (H 0%nat ltac:(lia)) as (current & Hc & Hnew).
    rewrite Nat.add_0_r in Hc. rewrite Hc.
    assert (Hnext :
      SeleniumDownloader.wait_for_download pf w cfg before name rounds
        (SeleniumDownloader.act Sleep
           {| driver := driver d; listed := S (listed d); actions := actions d |})
      = (None, {| driver := driver d; listed := listed d + S rounds;
                  actions := actions d ++ repeat Sleep (S rounds) |})).
    { rewrite IH.
      - cbn [SeleniumDownloader.act driver listed actions repeat].
        f_equal. f_equal; [lia|]. rewrite <- app_assoc. reflexivity.
      - intros k Hk. cbn [SeleniumDownloader.act listed].
        destruct (H (S k) ltac:(lia)) as (cur & Hcur & Hn).
        exists cur. split; [|exact Hn].
        rewrite <- Hcur. f_equal. lia. }
    destruct (decide (current ∖ before = ∅)) as [?|Hne]; [exact Hnext|].
    destruct Hnew as [?|Hun]; [contradiction|]. rewrite Hun. exact Hnext.
Qed.

(** X18: when Chrome is attached to and the browser loads the URL, but each
    of the ten listings that follow shows nothing new, or a chosen new file
    that is a partial download, download_file returns None after ten
    sleeps and moves nothing. *)
Theorem download_file_gives_up_after_ten_sleeps (file_id name : list N) (is_inline : bool)
        (d : Downloader) (before : gset (list N)) :
  driver d = true ->
  listdir_downloads w (listed d) = Some before ->
  driver_get w (SeleniumDownloader.file_url cfg file_id is_inline) = true ->
  (forall k, (k < 10)%nat ->
     exists current,
       listdir_downloads w (S (listed d) + k) = Some current /\
       (current ∖ before = ∅ \/
        SeleniumDownloader.unfinished (first_of w (current ∖ before)) = true)) ->
  SeleniumDownloader.download_file pf w cfg file_id name is_inline d
  = (Ok None,
     {| driver := true; listed := listed d + 11;
        actions := actions d
                   ++ Visit (SeleniumDownloader.file_url cfg file_id is_inline)
                   :: repeat Sleep 10 |}).
Proof.
  intros Hdrv Hb Hget Hpoll.
  unfold SeleniumDownloader.download_file, SeleniumDownloader.start,
    SeleniumDownloader.listdir.
  rewrite Hdrv, Hb, Hget.
  rewrite wait_for_download_gives_up.
  - cbn [SeleniumDownloader.act driver listed actions].
    rewrite Hdrv. f_equal. f_equal; [lia|]. rewrite <- app_assoc. reflexivity.
  - intros k Hk. cbn [SeleniumDownloader.act listed]. apply Hpoll. exact Hk.
Qed.
End DownloadFile.



Lemma download_file_gives_up_after_ten_sleeps_witness :
  (SeleniumDownloader.download_file (posix sample_db) idle_desktop
     sample_downloader_config (U "9001") (U "x_1.pdf") true connected).1 = Ok None.
Proof.
  rewrite (download_file_gives_up_after_ten_sleeps (posix sample_db) idle_desktop
             sample_downloader_config (U "9001") (U "x_1.pdf") true connected
             {[ U "old.txt" ]}).
  - reflexivity.
  - reflexivity.
  - reflexivity.
  - reflexivity.
  - intros k _. exists {[ U "old.txt" ]}. split; [reflexivity|].
    left. apply difference_diag_L.
Defined.

(** * The selection of projects *)

Section Selection.
Context (pf : Platform) (lower : list N -> list N) (int : list N -> option Z)
        (input : nat -> option (list N)).





(** X20: once the terminal is at end of file, the loop of select_projects
    does not end: each [input()] raises, the error is printed and the loop
    goes round again, whatever the fuel. *)
Theorem select_loop_spins_at_end_of_file (projects : list Project) (fuel reads : nat)
        (selected : list Project) :
  (forall k, (reads <= k)%nat -> input k = None) ->
  select_loop pf lower int input projects fuel reads selected = None.
Proof.
  revert reads selected. induction fuel as [|fuel IH]; intros reads selected H;
    [reflexivity|].
  cbn [select_loop]. rewrite (H reads) by lia.
  apply IH. intros k Hk. apply H. lia.
Qed.
End Selection.


Lemma select_loop_spins_at_end_of_file_witness :
  select_loop (posix sample_db) ascii_lower ascii_int (fun _ => None)
    sample_projects 1000 0 [] = None.
Proof.
  apply (select_loop_spins_at_end_of_file (posix sample_db) ascii_lower ascii_int
           (fun _ => None) sample_projects 1000 0 []).
  intros k _. reflexivity.
Defined.

(** * The directories of a run *)

Lemma layout_unfold (pf : Platform) (dir : list N) (p : Page) (c : PageContent)
      (ts : list tree) :
  layout pf dir (Node p c ts) = (page_id p, dir) :: layout_forest pf dir 1 ts.
Proof.
  cbn [layout]. f_equal.
  match goal with
  | |- ?f ts 1 = _ => assert (H : forall k, f ts k = layout_forest pf dir k ts)
  end.
  { induction ts as [|t ts IH]; intros k; [reflexivity|].
    cbn [layout_forest]. rewrite <- IH. reflexivity. }
  apply H.
Qed.

(* induction on trees: a property of the children gives it for the page *)
Lemma tree_forall_ind (P : tree -> Prop) :
  (forall p c ts, Forall P ts -> P (Node p c ts)) -> forall t, P t.
Proof.
  intros H t. induction t as [[p c ts] IH] using (induction_ltof1 _ depth).
  apply H. apply List.Forall_forall. intros t Ht. apply IH. unfold ltof. cbn [depth].
  apply Nat.lt_succ_r.
  pose proof (proj1 (list_max_le (List.map depth ts) (list_max (List.map depth ts)))
                (Nat.le_refl _)) as Hall.
  rewrite List.Forall_forall in Hall. apply Hall, in_map, Ht.
Qed.

Lemma layout_length (pf : Platform) (t : tree) :
  forall dir, length (layout pf dir t) = length (preorder t).
Proof.
  induction t as [p c ts IH] using tree_forall_ind.
  intros dir. rewrite layout_unfold. cbn [preorder length]. f_equal.
  generalize 1. induction IH as [|t ts Ht _ IHts]; intros k; [reflexivity|].
  cbn [layout_forest List.map concat]. rewrite !length_app, Ht, IHts. reflexivity.
Qed.

Lemma layout_forest_length (pf : Platform) (dir : list N) (ts : list tree) :
  forall k, length (layout_forest pf dir k ts) = length (preorder_forest ts).
Proof.
  induction ts as [|t ts IH]; intros k; [reflexivity|].
  cbn [layout_forest]. unfold preorder_forest. cbn [List.map concat].
  rewrite !length_app, layout_length. f_equal. apply IH.
Qed.

Section LaidOut.
Context (pf : Platform).

Lemma laid_out_nil (keys : list (list N)) (s : Run) : laid_out pf [] keys s s.
Proof.
  unfold laid_out. split; [reflexivity|]. split; [|split; [|reflexivity]].
  - destruct (room (page_counter s)); simpl; rewrite ?take_nil, app_nil_r; reflexivity.
  - destruct (room (page_counter s)); simpl; lia.
Qed.

Lemma laid_out_keys (P : list (list N * list N)) (keys keys' : list (list N))
      (s s' : Run) :
  (forall q, q ∈ keys -> q ∈ keys') -> laid_out pf P keys s s' -> laid_out pf P keys' s s'.
Proof.
  intros Hsub (L & S & C & F). repeat (split; [assumption|]).
  intros q Hq. apply F. intros Hin. apply Hq, Hsub, Hin.
Qed.

Lemma laid_out_app (P1 P2 : list (list N * list N)) (keys : list (list N))
      (s s1 s2 : Run) :
  laid_out pf P1 keys s s1 -> laid_out pf P2 keys s1 s2 -> laid_out pf (P1 ++ P2) keys s s2.
Proof.
  unfold laid_out, room. intros (L1 & S1 & C1 & F1) (L2 & S2 & C2 & F2).
  rewrite L1 in *. split; [exact L2|].
  assert (HF : forall q, q ∉ keys ->
                 level_counters (page_counter s2) !! q
                 = level_counters (page_counter s) !! q)
    by (intros q Hq; rewrite F2, F1 by exact Hq; reflexivity).
  destruct (limit (page_counter s) =? -1) eqn:El.
  - cbn [take_room] in *. rewrite S2, S1, map_app, length_app, <- app_assoc.
    split; [reflexivity|]. split; [lia|exact HF].
  - cbn [take_room] in *. rewrite length_app.
    destruct (Nat.leb_spec (length P1) (Z.to_nat (limit (page_counter s) - count (page_counter s))))
      as [Hfit|Hover].
    + rewrite C1 in *.
      replace (Z.to_nat (limit (page_counter s)
                         - (count (page_counter s) + Z.of_nat (length P1))))
        with (Z.to_nat (limit (page_counter s) - count (page_counter s)) - length P1)%nat
        in * by lia.
      split; [|split; [|exact HF]].
      * rewrite S2, S1, take_app, map_app, <- app_assoc.
        rewrite (take_ge P1) by lia. reflexivity.
      * destruct (Nat.leb_spec (length P2)
                    (Z.to_nat (limit (page_counter s) - count (page_counter s)) - length P1));
          destruct (Nat.leb_spec (length P1 + length P2)
                      (Z.to_nat (limit (page_counter s) - count (page_counter s))));
          lia.
    + replace (Z.to_nat (limit (page_counter s) - count (page_counter s1))) with 0%nat
        in * by lia.
      split; [|split; [|exact HF]].
      * rewrite S2, S1, take_0, take_app. cbn [List.map]. rewrite app_nil_r.
        replace (Z.to_nat (limit (page_counter s) - count (page_counter s)) - length P1)%nat
          with 0%nat by lia.
        rewrite take_0, app_nil_r. reflexivity.
      * destruct (Nat.leb_spec (length P1 + length P2)
                    (Z.to_nat (limit (page_counter s) - count (page_counter s))));
          [lia|].
        destruct (Nat.leb_spec (length P2) 0); lia.
Qed.

Lemma laid_out_same (P : list (list N * list N)) (keys : list (list N)) (s0 s s' : Run) :
  page_counter s = page_counter s0 ->
  saved_pages (trace s) = saved_pages (trace s0) ->
  laid_out pf P keys s s' -> laid_out pf P keys s0 s'.
Proof. unfold laid_out. intros -> ->. tauto. Qed.

Lemma laid_out_refused (P : list (list N * list N)) (keys : list (list N)) (s s' : Run) :
  P <> [] ->
  (increment (page_counter s)).1 = false ->
  page_counter s' = (increment (page_counter s)).2 ->
  trace s' = trace s ->
  laid_out pf P keys s s'.
Proof.
  intros HP Hin Hpc Ht.
  assert (Hno : ~ (limit (page_counter s) = -1 \/
                   count (page_counter s) + 1 <= limit (page_counter s)))
    by (rewrite <- increment_true; congruence).
  unfold laid_out, room. rewrite Hpc, Ht. cbn [increment snd limit count level_counters].
  destruct (Z.eqb_spec (limit (page_counter s)) (-1)) as [?|Hl]; [tauto|].
  replace (Z.to_nat (limit (page_counter s) - count (page_counter s))) with 0%nat by lia.
  cbn [take_room]. rewrite take_0. cbn [List.map]. rewrite app_nil_r.
  split; [reflexivity|]. split; [reflexivity|]. split; [|reflexivity].
  destruct P; [congruence|]. simpl. lia.
Qed.

(** One page written in [dir], numbered under [key]. *)
Lemma laid_out_one (page dir key : list N) (keys : list (list N)) (s s' : Run) :
  (increment (page_counter s)).1 = true ->
  page_counter s' = (get_next_number key (increment (page_counter s)).2).2 ->
  saved_pages (trace s')
  = saved_pages (trace s) ++ [(page, join pf dir (U "metadata.json"))] ->
  key ∈ keys ->
  laid_out pf [(page, dir)] keys s s'.
Proof.
  intros Hin Hpc Hs Hkey. apply increment_true in Hin.
  unfold laid_out, room. rewrite Hpc.
  cbn [get_next_number increment snd limit count level_counters].
  split; [reflexivity|].
  assert (HF : forall q, q ∉ keys ->
                 <[key := default 0 (level_counters (page_counter s) !! key) + 1]>
                   (level_counters (page_counter s)) !! q
                 = level_counters (page_counter s) !! q).
  { intros q Hq. apply lookup_insert_ne. intros ->. contradiction. }
  destruct (Z.eqb_spec (limit (page_counter s)) (-1)) as [Hu|Hb]; cbn [take_room].
  - split; [exact Hs|]. split; [simpl; lia|exact HF].
  - assert (Hq : (1 <= Z.to_nat (limit (page_counter s) - count (page_counter s)))%nat)
      by lia.
    destruct (Z.to_nat (limit (page_counter s) - count (page_counter s))) as [|q]; [lia|].
    split; [rewrite Hs; simpl; rewrite take_nil; reflexivity|].
    split; [simpl; lia|exact HF].
Qed.
End LaidOut.

Section Layout.
Context (pf : Platform) (env : Env).

Lemma laid_out_closed (P : list (list N * list N)) (keys : list (list N)) (s : Run) :
  limit (page_counter s) <= count (page_counter s) ->
  limit (page_counter s) <> -1 ->
  laid_out pf P keys s s.
Proof.
  intros Hle Hb. unfold laid_out, room. apply Z.eqb_neq in Hb. rewrite Hb.
  replace (Z.to_nat (limit (page_counter s) - count (page_counter s))) with 0%nat by lia.
  cbn [take_room]. rewrite take_0. cbn [List.map]. rewrite app_nil_r.
  split; [reflexivity|]. split; [reflexivity|]. split; [|reflexivity].
  destruct P; simpl; lia.
Qed.

(** A page within the quota: its number, its directory and the state the
    walk over its children starts from. *)
Lemma each_page_accepted_at (recur : option (list N) -> list N -> M unit)
      (parent : option (list N)) (base : list N) (page : Page) (more : list Page)
      (c : PageContent) (s : Run) :
  (increment (page_counter s)).1 = true ->
  srv_page_content env (page_id page) = Reply c ->
  exists s',
    each_page pf env recur parent base (page :: more) s
    = bind (recur (Some (page_id page))
              (join pf base
                 (dir_name pf (page_subject page)
                    (get_next_number (counter_key parent)
                       (increment (page_counter s)).2).1)))
           (fun _ => each_page pf env recur parent base more) s' /\
    page_counter s'
    = (get_next_number (counter_key parent) (increment (page_counter s)).2).2 /\
    saved_pages (trace s')
    = saved_pages (trace s)
        ++ [(page_id page,
             join pf (join pf base
                        (dir_name pf (page_subject page)
                           (get_next_number (counter_key parent)
                              (increment (page_counter s)).2).1))
                  (U "metadata.json"))].
Proof.
  intros H Hc. cbn [each_page].
  destruct (with_counter_step increment s) as (s1 & E1 & P1 & T1).
  rewrite (bind_ok _ _ _ _ _ E1), H. cbn [negb].
  destruct (with_counter_step (get_next_number (counter_key parent)) s1)
    as (s2 & E2 & P2 & T2).
  rewrite (bind_ok _ _ _ _ _ E2). rewrite P1 in *.
  destruct (_create_numbered_dir_step pf base (page_subject page)
              (get_next_number (counter_key parent) (increment (page_counter s)).2).1 s2)
    as (s3 & E3 & P3 & T3).
  rewrite (bind_ok _ _ _ _ _ E3).
  destruct (get_page_content_step env _ _ s3 Hc) as (s4 & E4 & P4 & T4).
  rewrite (bind_ok _ _ _ _ _ E4).
  match goal with
  | |- context [_save_page pf env page c ?p] =>
      destruct (_save_page_step pf env page c p s4) as (s5 & evs & E5 & P5 & T5 & _ & Hs & _);
      rewrite (bind_ok _ _ _ _ _ E5)
  end.
  exists s5. split; [reflexivity|]. split; [congruence|].
  rewrite T5, T4, T3, T2, T1, !saved_pages_app, Hs. cbn [saved_pages].
  rewrite !app_nil_r. reflexivity.
Qed.

Lemma each_page_layout (fuel : nat) :
  (forall t base s,
      serves env t -> (depth t <= fuel)%nat ->
      NoDup (List.map page_id (preorder t)) ->
      (forall q, q ∈ List.map page_id (preorder t) ->
                 level_counters (page_counter s) !! q = None) ->
      exists s',
        backup_recursive pf env fuel (Some (page_id (root_page t))) base s = (Ok tt, s') /\
        laid_out pf (layout_forest pf base 1 (subtrees t))
                 (List.map page_id (preorder t)) s s') ->
  forall ts K base k s,
    Forall (serves env) ts ->
    Forall (fun t => (depth t <= fuel)%nat) ts ->
    K <> [] ->
    NoDup (ids_forest ts) ->
    K ∉ ids_forest ts ->
    (forall q, q ∈ ids_forest ts -> level_counters (page_counter s) !! q = None) ->
    default 0 (level_counters (page_counter s) !! K) = k - 1 ->
    exists s',
      each_page pf env (backup_recursive pf env fuel) (Some K) base
        (List.map root_page ts) s = (Ok tt, s') /\
      laid_out pf (layout_forest pf base k ts) (K :: ids_forest ts) s s'.
Proof.
  intros Hrec ts. induction ts as [|t ts IH]; intros K base k s Hsrv Hdep HK Hnd HKout Hnew Hk.
  - exists s. split; [reflexivity|apply laid_out_nil].
  - apply Forall_cons in Hsrv as [Hsrv_t Hsrv]. apply Forall_cons in Hdep as [Hdep_t Hdep].
    assert (Hids : ids_forest (t :: ts) = List.map page_id (preorder t) ++ ids_forest ts).
    { unfold ids_forest, preorder_forest. cbn [List.map concat]. apply map_app. }
    rewrite Hids in Hnd, HKout, Hnew |- *.
    apply NoDup_app in Hnd as (Hnd_t & Hdisj & Hnd_ts).
    assert (Hkey : counter_key (Some K) = K) by (destruct K; [congruence|reflexivity]).
    destruct t as [p c kids]. cbn [List.map root_page layout_forest].
    rewrite layout_unfold.
    destruct (increment (page_counter s)).1 eqn:Hin.
    + destruct (serves_children env p c kids Hsrv_t) as (_ & _ & Hc & _).
      destruct (each_page_accepted_at (backup_recursive pf env fuel) (Some K) base p
                  (List.map root_page ts) c s Hin Hc) as (s1 & E & P1 & S1).
      rewrite E. clear E. rewrite Hkey in *.
      assert (Hnum : (get_next_number K (increment (page_counter s)).2).1 = k)
        by (cbn [get_next_number increment fst snd level_counters]; lia).
      rewrite Hnum in *.
      set (dir := join pf base (dir_name pf (page_subject p) k)) in *.
      assert (Hlc1 : level_counters (page_counter s1)
                     = <[K := k]> (level_counters (page_counter s))).
      { rewrite P1. cbn [get_next_number increment snd level_counters]. f_equal. lia. }
      assert (Hone : laid_out pf [(page_id p, dir)] (K :: List.map page_id
                                   (preorder (Node p c kids)) ++ ids_forest ts) s s1).
      { apply (laid_out_one pf (page_id p) dir K); [exact Hin|exact P1|exact S1|left]. }
      assert (HKt : K ∉ List.map page_id (preorder (Node p c kids)))
        by (intros Hin'; apply HKout, elem_of_app; left; exact Hin').
      assert (HKts : K ∉ ids_forest ts)
        by (intros Hin'; apply HKout, elem_of_app; right; exact Hin').
      destruct (Hrec (Node p c kids) dir s1 Hsrv_t Hdep_t Hnd_t) as (s2 & E2 & W2).
      { intros q Hq. rewrite Hlc1, lookup_insert_ne by (intros ->; contradiction).
        apply Hnew, elem_of_app. left. exact Hq. }
      cbn [root_page subtrees] in E2, W2.
      rewrite (bind_ok _ _ _ _ _ E2).
      destruct (IH K base (k + 1) s2 Hsrv Hdep HK Hnd_ts HKts) as (s3 & E3 & W3).
      { intros q Hq. destruct W2 as (_ & _ & _ & F2).
        rewrite F2 by (intros Hq'; exact (Hdisj q Hq' Hq)).
        rewrite Hlc1, lookup_insert_ne by (intros ->; contradiction).
        apply Hnew, elem_of_app. right. exact Hq. }
      { destruct W2 as (_ & _ & _ & F2). rewrite F2 by exact HKt.
        rewrite Hlc1, lookup_insert_eq. cbn. lia. }
      exists s3. split; [exact E3|].
      change ((page_id p, dir) :: layout_forest pf dir 1 kids)
        with ([(page_id p, dir)] ++ layout_forest pf dir 1 kids).
      apply (laid_out_app pf _ _ _ s s2 s3).
      * apply (laid_out_app pf _ _ _ s s1 s2); [exact Hone|].
        eapply laid_out_keys; [|exact W2].
        intros q Hq. right. apply elem_of_app. left. exact Hq.
      * eapply laid_out_keys; [|exact W3].
        intros q Hq. apply elem_of_cons in Hq as [->|Hq]; [left|].
        right. apply elem_of_app. right. exact Hq.
    + destruct (each_page_refused pf env (backup_recursive pf env fuel) (Some K) base p
                  (List.map root_page ts) s Hin) as (s1 & E & P1 & T1).
      exists s1. split; [exact E|].
      apply laid_out_refused; [discriminate|exact Hin|exact P1|exact T1].
Qed.

Lemma backup_recursive_layout (fuel : nat) :
  forall t base s,
    serves env t -> (depth t <= fuel)%nat ->
    NoDup (List.map page_id (preorder t)) ->
    (forall q, q ∈ List.map page_id (preorder t) ->
               level_counters (page_counter s) !! q = None) ->
    exists s',
      backup_recursive pf env fuel (Some (page_id (root_page t))) base s = (Ok tt, s') /\
      laid_out pf (layout_forest pf base 1 (subtrees t))
               (List.map page_id (preorder t)) s s'.
Proof.
  induction fuel as [|fuel IH]; intros [p c ts] base s Hsrv Hdep Hnd Hnew.
  - cbn [depth] in Hdep. lia.
  - cbn [root_page subtrees].
    destruct (serves_children env p c ts Hsrv) as (Hid & Hkids & _ & Hsub).
    destruct (Z_lt_le_dec (count (page_counter s)) (limit (page_counter s)))
      as [Hlt|Hle]; [|destruct (Z.eq_dec (limit (page_counter s)) (-1)) as [Hu|Hb]].
    3: { rewrite backup_recursive_closed by assumption.
         exists s. split; [reflexivity|]. apply laid_out_closed; assumption. }
    all: rewrite backup_recursive_open by (auto; lia).
    all: assert (Hparam : srv_pages env (api_param (Some (page_id p)))
                          = Reply (List.map root_page ts))
        by (destruct (page_id p); [congruence|exact Hkids]).
    all: destruct (get_pages_step env (Some (page_id p)) _ s Hparam) as (s1 & E1 & P1 & T1).
    all: rewrite (bind_ok _ _ _ _ _ E1).
    all: cbn [preorder List.map] in Hnd, Hnew |- *.
    all: fold (preorder_forest ts) in Hnd, Hnew |- *.
    all: fold (ids_forest ts) in Hnd, Hnew |- *.
    all: apply NoDup_cons in Hnd as [Hout Hnd].
    all: destruct (each_page_layout fuel IH ts (page_id p) base 1 s1 Hsub
                     (depth_children p c ts fuel Hdep) Hid Hnd Hout) as (s2 & E2 & W2);
      [intros q Hq; rewrite P1; apply Hnew; right; exact Hq
      |rewrite P1, (Hnew (page_id p)) by left; reflexivity|].
    all: exists s2; split; [exact E2|].
    all: eapply laid_out_same; [exact P1| |exact W2].
    all: rewrite T1, saved_pages_app, app_nil_r; reflexivity.
Qed.
End Layout.

Lemma quota_prefix_cons {A : Type} (lim : Z) (pc : PageCounter) (x : A) (l : list A) :
  limit pc = lim -> count pc = 1 ->
  quota_prefix lim (x :: l) = x :: take_room (room pc) l.
Proof.
  intros Hl Hc. unfold quota_prefix, room. rewrite Hl, Hc.
  destruct (lim =? -1); [reflexivity|]. cbn [take_room].
  replace (Z.to_nat (Z.max 1 lim)) with (S (Z.to_nat (lim - 1))) by lia.
  reflexivity.
Qed.

Section LayoutOfARun.
Context (pf : Platform) (env : Env) (mgr : Manager).

Lemma backup_layout_summary (t : tree) (others : list Page) (fuel : nat) :
  serves env t ->
  srv_pages env None = Reply (root_page t :: others) ->
  (depth t <= fuel)%nat ->
  NoDup (List.map page_id (preorder t)) ->
  lit_root ∉ List.map page_id (preorder t) ->
  exists s',
    backup pf env mgr fuel (start mgr) = (Ok tt, s') /\
    saved_pages (trace s')
    = List.map (metadata_path pf) (quota_prefix (page_limit mgr) (run_layout pf mgr t)).
Proof.
  intros Hsrv Htop Hdep Hnd Hroot. unfold backup.
  destruct (get_pages_step env None _ (start mgr) Htop) as (s1 & E1 & P1 & T1).
  rewrite (bind_ok _ _ _ _ _ E1).
  destruct t as [p c ts]. cbn [root_page].
  destruct (serves_children env p c ts Hsrv) as (_ & _ & Hc & _).
  destruct (get_page_content_step env _ _ s1 Hc) as (s2 & E2 & P2 & T2).
  rewrite (bind_ok _ _ _ _ _ E2).
  destruct (_create_numbered_dir_step pf (backup_dir mgr) (project_code mgr) 1 s2)
    as (s3 & E3 & P3 & T3).
  rewrite (bind_ok _ _ _ _ _ E3).
  destruct (with_counter_step increment s3) as (s4 & E4 & P4 & T4).
  rewrite (bind_ok _ _ _ _ _ E4).
  destruct (with_counter_step (get_next_number lit_root) s4) as (s5 & E5 & P5 & T5).
  rewrite (bind_ok _ _ _ _ _ E5).
  fold (root_path pf mgr) in *.
  destruct (_save_page_step pf env p c (root_path pf mgr) s5)
    as (s6 & evs & E6 & P6 & T6 & _ & S6 & _).
  rewrite (bind_ok _ _ _ _ _ E6).
  assert (Hpc6 : page_counter s6
                 = {| count := 1; limit := page_limit mgr;
                      level_counters := <[lit_root := 1]> ∅ |}).
  { rewrite P6, P5, P4, P3, P2, P1. reflexivity. }
  assert (Hs6 : saved_pages (trace s6)
                = [(page_id p, join pf (root_path pf mgr) (U "metadata.json"))]).
  { rewrite T6, T5, T4, T3, T2, T1, !saved_pages_app, S6. reflexivity. }
  destruct (backup_recursive_layout pf env fuel (Node p c ts) (root_path pf mgr) s6
              Hsrv Hdep Hnd) as (s7 & E7 & _ & W7 & _).
  { intros q Hq. rewrite Hpc6. cbn [level_counters].
    rewrite lookup_insert_ne by (intros <-; contradiction). apply lookup_empty. }
  cbn [root_page subtrees] in E7, W7.
  rewrite (bind_ok _ _ _ _ _ E7). unfold bind, read_counter, emit.
  eexists. split; [reflexivity|]. cbn [trace].
  rewrite saved_pages_app, app_nil_r, W7, Hs6.
  unfold run_layout. cbn [root_page subtrees].
  rewrite (quota_prefix_cons (page_limit mgr) (page_counter s6))
    by (rewrite Hpc6; reflexivity).
  reflexivity.
Qed.

(** X21: on a wiki that is a finite tree whose pages have distinct ids,
    none of them the word "root", the pages a run writes are stored as the
    tree says: the root page in the directory named by 1 and the project
    code, and the [k]-th child of a page, in the order the server lists the
    children, in the directory named by [k] and the title of the child under
    the directory of the page; the quota keeps a prefix of them. *)
Theorem backup_lays_out_the_tree (t : tree) (others : list Page) (fuel : nat) :
  serves env t ->
  srv_pages env None = Reply (root_page t :: others) ->
  (depth t <= fuel)%nat ->
  NoDup (List.map page_id (preorder t)) ->
  lit_root ∉ List.map page_id (preorder t) ->
  saved_pages (trace (backup pf env mgr fuel (start mgr)).2)
  = List.map (metadata_path pf) (quota_prefix (page_limit mgr) (run_layout pf mgr t)).
Proof.
  intros Hsrv Htop Hdep Hnd Hroot.
  destruct (backup_layout_summary t others fuel Hsrv Htop Hdep Hnd Hroot) as (s' & E & Hs).
  rewrite E. exact Hs.
Qed.
End LayoutOfARun.

Lemma backup_lays_out_the_tree_witness :
  saved_pages (trace (backup (posix sample_db) sample_env (sample_mgr 4) 5
                        (start (sample_mgr 4))).2)
  = [ (U "100", U "/backups/20240101_120000/01 PRJ/metadata.json");
      (U "200", U "/backups/20240101_120000/01 PRJ/01 Design_Notes/metadata.json");
      (U "400", U "/backups/20240101_120000/01 PRJ/01 Design_Notes/01 Draft/metadata.json");
      (U "500", U "/backups/20240101_120000/01 PRJ/01 Design_Notes/02 Review/metadata.json") ].
Proof.
  assert (Htop : srv_pages sample_env None = Reply (root_page sample_tree :: []))
    by reflexivity.
  assert (Hdep : (depth sample_tree <= 5)%nat) by (vm_compute; lia).
  assert (Hnd : NoDup (List.map page_id (preorder sample_tree))).
  { apply NoDup_ListNoDup. vm_compute.
    repeat (constructor; [intros H; vm_compute in H; repeat destruct H as [H|H];
                          discriminate || contradiction|]).
    constructor. }
  assert (Hroot : lit_root ∉ List.map page_id (preorder sample_tree)).
  { intros H. apply list_elem_of_In in H. vm_compute in H.
    repeat destruct H as [H|H]; discriminate || contradiction. }
  rewrite (backup_lays_out_the_tree (posix sample_db) sample_env (sample_mgr 4)
             sample_tree [] 5 sample_tree_served Htop Hdep Hnd Hroot).
  vm_compute. reflexivity.
Defined.

(** * No two pages in one directory *)

Lemma posix_join_name (d x : list N) :
  ends_in_name d -> plain_name x -> posixpath_join d x = d ++ 47%N :: x.
Proof.
  intros (d0 & c & -> & Hc) [Hne Hx]. unfold posixpath_join.
  destruct x as [|a x]; [congruence|].
  apply Forall_cons in Hx as [Ha _].
  rewrite last_snoc. apply N.eqb_neq in Hc. rewrite Hc.
  destruct a as [|a]; [reflexivity|].
  repeat (destruct a as [a|a|]; try reflexivity). congruence.
Qed.

Lemma plain_name_ends (x : list N) : plain_name x -> ends_in_name x.
Proof.
  intros [Hne Hx]. destruct (exists_last Hne) as (x0 & c & ->).
  exists x0, c. split; [reflexivity|].
  apply Forall_app in Hx as [_ Hc]. apply Forall_cons in Hc as [Hc _]. exact Hc.
Qed.

Lemma ends_in_name_app (a x : list N) : ends_in_name x -> ends_in_name (a ++ x).
Proof.
  intros (x0 & c & -> & Hc). exists (a ++ x0), c. rewrite app_assoc. split; [reflexivity|exact Hc].
Qed.

Lemma posix_join_ends (a x : list N) : plain_name x -> ends_in_name (posixpath_join a x).
Proof.
  intros Hx. pose proof (plain_name_ends x Hx) as He. unfold posixpath_join.
  assert (H : ends_in_name
                match last a with
                | Some c => if (c =? 47)%N then a ++ x else a ++ 47%N :: x
                | None => a ++ x
                end).
  { destruct (last a) as [c|]; [destruct (c =? 47)%N|].
    - apply ends_in_name_app, He.
    - apply (ends_in_name_app a (47%N :: x)).
      change (47%N :: x) with ([47%N] ++ x). apply ends_in_name_app, He.
    - apply ends_in_name_app, He. }
  destruct x as [|b x]; [exact H|].
  destruct b as [|b]; [exact H|].
  repeat (destruct b as [b|b|]; try exact H). exact He.
Qed.

Lemma split_at_slash (x x' r r' : list N) :
  Forall (fun c => c <> 47%N) x -> Forall (fun c => c <> 47%N) x' ->
  below r -> below r' ->
  x ++ r = x' ++ r' -> x = x' /\ r = r'.
Proof.
  intros Hx. revert x'. induction Hx as [|c x Hc Hx IH]; intros x' Hx' Hr Hr' E.
  - destruct Hx' as [|c' x' Hc' Hx']; [split; [reflexivity|exact E]|].
    cbn [app] in E. destruct Hr as [->|(t & ->)]; [discriminate|].
    injection E as <- _. congruence.
  - destruct Hx' as [|c' x' Hc' Hx']; cbn [app] in E.
    + destruct Hr' as [->|(t & ->)]; [discriminate|].
      injection E as -> _. congruence.
    + injection E as -> E. destruct (IH x' Hx' Hr Hr' E) as [-> ->].
      split; reflexivity.
Qed.

Section Directories.
Context (db : UnicodeDb).

Lemma dir_name_plain (subject : list N) (number : Z) :
  plain_name (dir_name (posix db) subject number).
Proof.
  split.
  - unfold dir_name. intros H. apply (f_equal length) in H.
    rewrite length_app in H. simpl in H. lia.
  - unfold dir_name, safe_subject. apply Forall_app. split.
    + eapply Forall_impl; [apply format_02d_chars|].
      intros c Hc. apply (allowed_not_separator (posix db)), digit_allowed, Hc.
    + constructor; [discriminate|].
      induction subject as [|c subject IH]; simpl; constructor; [|exact IH].
      apply (allowed_not_separator (posix db)), safe_subject_char_allowed.
Qed.

Lemma dir_name_number (subject subject' : list N) (number number' : Z) :
  0 <= number -> 0 <= number' ->
  dir_name (posix db) subject number = dir_name (posix db) subject' number' ->
  number = number'.
Proof.
  intros Hn Hn' E. unfold dir_name in E.
  destruct (format_02d_nonneg number Hn) as (_ & Hd & Hi).
  destruct (format_02d_nonneg number' Hn') as (_ & Hd' & Hi').
  destruct (digits_then_space _ _ _ _ Hd Hd' E) as [Ef _].
  rewrite <- Hi, <- Hi', Ef. reflexivity.
Qed.

(** The directories of a tree in [d]: all different, each [d] itself or
    below it. *)
Lemma layout_directories (t : tree) :
  forall d,
    ends_in_name d ->
    NoDup (List.map snd (layout (posix db) d t)) /\
    forall e, e ∈ List.map snd (layout (posix db) d t) ->
              ends_in_name e /\ exists r, e = d ++ r /\ below r.
Proof.
  induction t as [p c ts IH] using tree_forall_ind. intros d Hd.
  rewrite layout_unfold. cbn [List.map snd].
  assert (Hforest : forall k, 0 <= k ->
    NoDup (List.map snd (layout_forest (posix db) d k ts)) /\
    forall e, e ∈ List.map snd (layout_forest (posix db) d k ts) ->
      ends_in_name e /\
      exists j subject r,
        k <= j /\ e = d ++ 47%N :: dir_name (posix db) subject j ++ r /\ below r).
  { induction IH as [|t ts Ht _ IHts]; intros k Hk.
    - split; [constructor|]. intros e He. apply elem_of_nil in He. destruct He.
    - cbn [layout_forest]. rewrite map_app.
      set (x := dir_name (posix db) (page_subject (root_page t)) k).
      assert (Hjoin : join (posix db) d x = d ++ 47%N :: x)
        by (apply posix_join_name; [exact Hd|apply dir_name_plain]).
      rewrite Hjoin.
      assert (Hdx : ends_in_name (d ++ 47%N :: x)).
      { rewrite <- Hjoin. apply posix_join_ends, dir_name_plain. }
      destruct (Ht (d ++ 47%N :: x) Hdx) as [Hnd_t Hpre_t].
      destruct (IHts (k + 1) ltac:(lia)) as [Hnd_ts Hpre_ts].
      assert (Hin_t : forall e, e ∈ List.map snd (layout (posix db) (d ++ 47%N :: x) t) ->
                exists j subject r,
                  k <= j /\ e = d ++ 47%N :: dir_name (posix db) subject j ++ r /\ below r /\
                  j = k).
      { intros e He. destruct (Hpre_t e He) as (_ & r & -> & Hr).
        exists k, (page_subject (root_page t)), r.
        split; [lia|]. split; [rewrite <- app_assoc; reflexivity|]. split; [exact Hr|reflexivity]. }
      split.
      + apply NoDup_app. split; [exact Hnd_t|]. split; [|exact Hnd_ts].
        intros e He He'.
        destruct (Hin_t e He) as (j & s & r & _ & E & Hr & ->).
        destruct (Hpre_ts e He') as (_ & j' & s' & r' & Hj' & E' & Hr').
        rewrite E in E'. apply app_inv_head in E'. injection E' as E'.
        destruct (dir_name_plain s k) as [_ Hp]. destruct (dir_name_plain s' j') as [_ Hp'].
        destruct (split_at_slash _ _ _ _ Hp Hp' Hr Hr' E') as [En _].
        apply dir_name_number in En; lia.
      + intros e He. apply elem_of_app in He as [He|He].
        * split; [apply (Hpre_t e He)|].
          destruct (Hin_t e He) as (j & s & r & Hj & E & Hr & _). exists j, s, r. auto.
        * destruct (Hpre_ts e He) as (Hend & j & s & r & Hj & E & Hr).
          split; [exact Hend|].
          exists j, s, r. split; [lia|]. split; assumption. }
  destruct (Hforest 1 ltac:(lia)) as [Hnd Hpre]. split.
  - apply NoDup_cons. split; [|exact Hnd].
    intros Hin. destruct (Hpre d Hin) as (_ & j & s & r & _ & E & _).
    rewrite <- (app_nil_r d) in E at 1. apply app_inv_head in E. discriminate.
  - intros e He. apply elem_of_cons in He as [->|He].
    + split; [exact Hd|].
      exists []. split; [rewrite app_nil_r; reflexivity|left; reflexivity].
    + destruct (Hpre e He) as (Hend & j & s & r & _ & E & _).
      split; [exact Hend|].
      eexists. split; [exact E|]. right. eexists. reflexivity.
Qed.

Lemma run_layout_directories (mgr : Manager) (t : tree) :
  NoDup (List.map snd (run_layout (posix db) mgr t)) /\
  Forall ends_in_name (List.map snd (run_layout (posix db) mgr t)).
Proof.
  assert (Hroot : ends_in_name (root_path (posix db) mgr))
    by (apply posix_join_ends, dir_name_plain).
  destruct t as [p c ts].
  assert (E : run_layout (posix db) mgr (Node p c ts)
              = layout (posix db) (root_path (posix db) mgr) (Node p c ts))
    by (rewrite layout_unfold; reflexivity).
  rewrite E.
  destruct (layout_directories (Node p c ts) _ Hroot) as [Hnd Hpre].
  split; [exact Hnd|].
  apply List.Forall_forall. intros e He. apply list_elem_of_In in He.
  apply (Hpre e He).
Qed.

End Directories.

Lemma quota_prefix_map {A B : Type} (f : A -> B) (lim : Z) (l : list A) :
  List.map f (quota_prefix lim l) = quota_prefix lim (List.map f l).
Proof.
  unfold quota_prefix. destruct (lim =? -1); [reflexivity|].
  apply (fmap_take f).
Qed.

Lemma quota_prefix_NoDup {A : Type} (lim : Z) (l : list A) :
  NoDup l -> NoDup (quota_prefix lim l).
Proof.
  intros H. unfold quota_prefix. destruct (lim =? -1); [exact H|].
  eapply sublist_NoDup; [exact H|apply sublist_take].
Qed.

Section OwnDirectory.
Context (db : UnicodeDb) (env : Env) (mgr : Manager).

Lemma metadata_paths_differ (dirs : list (list N)) :
  Forall ends_in_name dirs -> NoDup dirs ->
  NoDup (List.map (fun d => join (posix db) d (U "metadata.json")) dirs).
Proof.
  assert (Hmeta : plain_name (U "metadata.json")).
  { split; [discriminate|]. apply List.Forall_forall. intros c Hc. vm_compute in Hc.
    repeat (destruct Hc as [<-|Hc]; [discriminate|]). destruct Hc. }
  intros Hends Hnd. induction Hnd as [|d dirs Hout Hnd IH]; [constructor|].
  apply Forall_cons in Hends as [Hd Hends]. cbn [List.map].
  apply NoDup_cons. split; [|apply IH, Hends].
  intros Hin. apply list_elem_of_fmap in Hin as (d' & E & Hd').
  assert (Hd'e : ends_in_name d').
  { rewrite List.Forall_forall in Hends. apply Hends, list_elem_of_In, Hd'. }
  change (posixpath_join d (U "metadata.json") = posixpath_join d' (U "metadata.json")) in E.
  rewrite !posix_join_name in E by assumption.
  apply app_inv_tail in E. subst d'. contradiction.
Qed.

(** X22: on POSIX paths and on a wiki as in X21, the pages a run writes
    are each in a directory of their own: the paths of the metadata.json
    files written are pairwise different, so that no page overwrites the
    files of another. *)
Theorem written_pages_have_their_own_directory (t : tree) (others : list Page)
        (fuel : nat) :
  serves env t ->
  srv_pages env None = Reply (root_page t :: others) ->
  (depth t <= fuel)%nat ->
  NoDup (List.map page_id (preorder t)) ->
  lit_root ∉ List.map page_id (preorder t) ->
  NoDup (List.map snd (saved_pages (trace (backup (posix db) env mgr fuel (start mgr)).2))).
Proof.
  intros Hsrv Htop Hdep Hnd Hroot.
  destruct (backup_layout_summary (posix db) env mgr t others fuel Hsrv Htop Hdep Hnd Hroot)
    as (s' & E & Hs).
  rewrite E. cbn [snd]. rewrite Hs, !quota_prefix_map.
  apply quota_prefix_NoDup.
  destruct (run_layout_directories db mgr t) as [Hdirs Hends].
  replace (List.map snd (List.map (metadata_path (posix db)) (run_layout (posix db) mgr t)))
    with (List.map (fun d => join (posix db) d (U "metadata.json"))
            (List.map snd (run_layout (posix db) mgr t)))
    by (rewrite !List.map_map; reflexivity).
  apply metadata_paths_differ; assumption.
Qed.
End OwnDirectory.

Lemma written_pages_have_their_own_directory_witness :
  NoDup (List.map snd
           (saved_pages (trace (backup (posix sample_db) sample_env (sample_mgr (-1)) 5
                                  (start (sample_mgr (-1)))).2))).
Proof.
  assert (Htop : srv_pages sample_env None = Reply (root_page sample_tree :: []))
    by reflexivity.
  assert (Hdep : (depth sample_tree <= 5)%nat) by (vm_compute; lia).
  assert (Hnd : NoDup (List.map page_id (preorder sample_tree))).
  { apply NoDup_ListNoDup. vm_compute.
    repeat (constructor; [intros H; vm_compute in H; repeat destruct H as [H|H];
                          discriminate || contradiction|]).
    constructor. }
  assert (Hroot : lit_root ∉ List.map page_id (preorder sample_tree)).
  { intros H. apply list_elem_of_In in H. vm_compute in H.
    repeat destruct H as [H|H]; discriminate || contradiction. }
  exact (written_pages_have_their_own_directory sample_db sample_env (sample_mgr (-1))
           sample_tree [] 5 sample_tree_served Htop Hdep Hnd Hroot).
Defined.

(** * The depth of the recursion *)

Section Depth.
Context (pf : Platform) (env : Env).



(** Without a limit, a page that is its own child is walked into again and
    again. *)
Lemma backup_recursive_loops (p : Page) (c : PageContent) (more : list Page) (fuel : nat) :
  page_id p <> [] ->
  srv_pages env (Some (page_id p)) = Reply (p :: more) ->
  srv_page_content env (page_id p) = Reply c ->
  forall base s,
    limit (page_counter s) = -1 ->
    (backup_recursive pf env fuel (Some (page_id p)) base s).1 = OutOfFuel.
Proof.
  intros Hid Hkids Hc. induction fuel as [|fuel IH]; intros base s Hl; [reflexivity|].
  rewrite backup_recursive_open by (right; exact Hl).
  assert (Hparam : srv_pages env (api_param (Some (page_id p))) = Reply (p :: more))
    by (destruct (page_id p); [congruence|exact Hkids]).
  destruct (get_pages_step env (Some (page_id p)) _ s Hparam) as (s1 & E1 & P1 & T1).
  rewrite (bind_ok _ _ _ _ _ E1).
  assert (Hin : (increment (page_counter s1)).1 = true)
    by (apply increment_true; left; rewrite P1; exact Hl).
  destruct (each_page_accepted pf env (backup_recursive pf env fuel) (Some (page_id p))
              base p more c s1 Hin Hc) as (s2 & evs & path & E2 & P2 & _).
  rewrite E2.
  assert (Hl2 : limit (page_counter s2) = -1) by (rewrite P2, <- Hl, <- P1; reflexivity).
  specialize (IH path s2 Hl2).
  destruct (backup_recursive pf env fuel (Some (page_id p)) path s2) as [r s3] eqn:E3.
  cbn [fst] in IH. subst r. rewrite (bind_out_of_fuel _ _ _ _ E3). reflexivity.
Qed.
End Depth.

Section DepthOfARun.
Context (pf : Platform) (env : Env) (mgr : Manager).


(** X24: without a limit, a wiki whose first top-level page is the first
    of its own children keeps the run recursing: whatever depth is allowed,
    the run exceeds it and never logs a total. *)
Theorem unlimited_run_loops_on_self_child (p : Page) (c : PageContent)
        (others more : list Page) (fuel : nat) :
  page_limit mgr = -1 ->
  page_id p <> [] ->
  srv_pages env None = Reply (p :: others) ->
  srv_pages env (Some (page_id p)) = Reply (p :: more) ->
  srv_page_content env (page_id p) = Reply c ->
  (backup pf env mgr fuel (start mgr)).1 = OutOfFuel /\
  reported_totals (trace (backup pf env mgr fuel (start mgr)).2) = [].
Proof.
  intros Hl Hid Htop Hkids Hc. unfold backup.
  destruct (get_pages_step env None _ (start mgr) Htop) as (s1 & E1 & P1 & T1).
  rewrite (bind_ok _ _ _ _ _ E1).
  destruct (get_page_content_step env _ _ s1 Hc) as (s2 & E2 & P2 & T2).
  rewrite (bind_ok _ _ _ _ _ E2).
  destruct (_create_numbered_dir_step pf (backup_dir mgr) (project_code mgr) 1 s2)
    as (s3 & E3 & P3 & T3).
  rewrite (bind_ok _ _ _ _ _ E3).
  destruct (with_counter_step increment s3) as (s4 & E4 & P4 & T4).
  rewrite (bind_ok _ _ _ _ _ E4).
  destruct (with_counter_step (get_next_number lit_root) s4) as (s5 & E5 & P5 & T5).
  rewrite (bind_ok _ _ _ _ _ E5).
  match goal with
  | |- context [_save_page pf env p c ?path] =>
      destruct (_save_page_counts pf env p c path s5) as (s6 & E6 & P6 & _ & R6);
      rewrite (bind_ok _ _ _ _ _ E6);
      pose proof (backup_recursive_loops pf env p c more fuel Hid Hkids Hc path s6) as Hloop;
      pose proof (backup_recursive_walk pf env fuel (Some (page_id p)) path s6) as Hwalk;
      destruct (backup_recursive pf env fuel (Some (page_id p)) path s6) as [r7 s7] eqn:E7
  end.
  cbn [fst snd] in Hloop, Hwalk.
  rewrite Hloop in E7 by (rewrite P6, P5, P4, P3, P2, P1; exact Hl).
  rewrite (bind_out_of_fuel _ _ _ _ E7). cbn [fst snd]. split; [reflexivity|].
  destruct Hwalk as (_ & R7 & _).
  rewrite R7, R6, T5, T4, T3, T2, T1, !reported_totals_app. reflexivity.
Qed.
End DepthOfARun.


Lemma unlimited_run_loops_on_self_child_witness :
  (backup (posix sample_db) (looping_env page_A content_logo) (sample_mgr (-1)) 50
     (start (sample_mgr (-1)))).1 = OutOfFuel.
Proof.
  apply (unlimited_run_loops_on_self_child (posix sample_db)
           (looping_env page_A content_logo) (sample_mgr (-1)) page_A content_logo [] [] 50).
  - reflexivity.
  - discriminate.
  - reflexivity.
  - reflexivity.
  - reflexivity.
Defined.

(** * The run over the selected projects *)

Section MainLoop.
Context (pf : Platform) (site : Site).

Lemma backup_projects_quota (lim : Z) (fuel : nat) (projects : list Project) :
  forall k,
    lim <> -1 ->
    Forall (fun run => pages_written run.2 <= Z.max 1 lim)
           (backup_projects pf site lim fuel k projects).1 /\
    (length (backup_projects pf site lim fuel k projects).1 <= length projects)%nat.
Proof.
  induction projects as [|project more IH]; intros k Hl; [split; [constructor|reflexivity]|].
  cbn [backup_projects].
  destruct (proj_wiki project) as [[wiki|]|]; try (split; [constructor|simpl; lia]).
  destruct (backup_summary pf (wiki_env site wiki) (manager_of site lim k project) fuel)
    as (r & s & E & _ & Hq & _).
  rewrite E. specialize (Hq Hl). cbn [manager_of page_limit] in Hq.
  destruct (IH (S k) Hl) as [Hall Hlen].
  destruct r as [[]|e|].
  - destruct (backup_projects pf site lim fuel (S k) more) as [runs e]. cbn [fst] in *.
    split; [constructor; [exact Hq|exact Hall]|simpl; lia].
  - split; [constructor; [exact Hq|constructor]|simpl; lia].
  - split; [constructor; [exact Hq|constructor]|simpl; lia].
Qed.

Lemma backup_projects_with_wiki (lim : Z) (fuel : nat) (projects : list Project) :
  forall k,
    Forall (fun p => has_wiki p = true) projects ->
    forall p, (backup_projects pf site lim fuel k projects).2 <> MissingWiki p.
Proof.
  induction projects as [|project more IH]; intros k Hw p; [discriminate|].
  apply Forall_cons in Hw as [Hp Hw]. cbn [backup_projects].
  unfold has_wiki in Hp.
  destruct (proj_wiki project) as [[wiki|]|]; try discriminate.
  destruct (backup pf (wiki_env site wiki) (manager_of site lim k project) fuel _)
    as [[[]|e|] s]; try discriminate.
  specialize (IH (S k) Hw p).
  destruct (backup_projects pf site lim fuel (S k) more) as [runs e]. exact IH.
Qed.
End MainLoop.

Section MainProgram.
Context (pf : Platform) (site : Site) (lower : list N -> list N)
        (int : list N -> option Z) (input : nat -> option (list N)).

Lemma pick_numbers_wiki (projects : list Project) (nums : list (list N)) :
  forall selected,
    Forall (fun p => has_wiki p = true) selected ->
    Forall (fun p => has_wiki p = true) (pick_numbers pf int projects nums selected).
Proof.
  induction nums as [|num more IH]; intros selected Hs; [exact Hs|].
  cbn [pick_numbers].
  destruct (int (strip pf num)) as [idx|]; [|apply IH; assumption].
  destruct ((1 <=? idx) && (idx <=? Z.of_nat (length projects))); [|apply IH; assumption].
  destruct (projects !! Z.to_nat (idx - 1)) as [project|] eqn:E; [|apply IH; assumption].
  destruct (has_wiki project) eqn:Hw; cbn [negb]; [|apply IH; assumption].
  destruct (decide (project ∈ selected)) as [Hin|Hout]; [apply IH; assumption|].
  apply IH, Forall_app. split; [exact Hs|]. constructor; [exact Hw|constructor].
Qed.

Lemma select_loop_wiki (projects : list Project) (fuel : nat) :
  forall reads selected r,
    Forall (fun p => has_wiki p = true) selected ->
    select_loop pf lower int input projects fuel reads selected = Some r ->
    Forall (fun p => has_wiki p = true) r.
Proof.
  induction fuel as [|fuel IH]; intros reads selected r Hs E; [discriminate|].
  cbn [select_loop] in E.
  destruct (input reads) as [line|]; [|eapply IH; eassumption].
  destruct (decide (lower (strip pf line) = U "0")) as [_|_];
    [injection E as <-; exact Hs|].
  assert (Hnew :
    Forall (fun p => has_wiki p = true)
      (if bool_decide (lower (strip pf line) = U "a")
          || bool_decide (lower (strip pf line) = U "all")
       then List.filter has_wiki projects
       else pick_numbers pf int projects (split_commas (lower (strip pf line))) selected)).
  { destruct (_ || _).
    - apply List.Forall_forall. intros p Hp. apply List.filter_In in Hp as [_ Hw]. exact Hw.
    - apply pick_numbers_wiki. exact Hs. }
  destruct (if _ || _ then _ else _) as [|p ps].
  - eapply IH; [|exact E]. constructor.
  - destruct (input (S reads)) as [confirm|]; [|eapply IH; eassumption].
    destruct (decide (lower confirm = U "y")) as [_|_];
      [injection E as <-; exact Hnew|].
    eapply IH; [|exact E]. constructor.
Qed.

Lemma main_summary (config : option Z) (srv : projects_server) (fuel : nat) :
  match main pf site lower int input config srv fuel with
  | Some (Some (runs, e)) =>
      (forall p, e <> MissingWiki p) /\
      (forall lim, config = Some lim -> lim <> -1 ->
         Forall (fun run => pages_written run.2 <= Z.max 1 lim) runs)
  | _ => True
  end.
Proof.
  unfold main.
  destruct (select_projects pf lower int input _ srv fuel) as [[|p ps]|] eqn:E;
    [exact I| |exact I].
  destruct config as [lim|]; [|exact I].
  assert (Hw : Forall (fun q => has_wiki q = true) (p :: ps)).
  { unfold select_projects in E.
    destruct (get_projects srv fuel None) as [[[|q qs]|e|] sent]; try discriminate.
    eapply select_loop_wiki; [|exact E]. constructor. }
  pose proof (backup_projects_with_wiki pf site lim fuel (p :: ps) 0 Hw) as Hno.
  pose proof (backup_projects_quota pf site lim fuel (p :: ps) 0) as Hq.
  destruct (backup_projects pf site lim fuel 0 (p :: ps)) as [runs e]. cbn [fst snd] in *.
  split; [exact Hno|]. intros lim' [= <-] Hl. apply Hq. exact Hl.
Qed.

(** X25: whatever the user selects, the loop of main over the selection
    never stops on a project without wiki id: select_projects returns only
    projects for which [project['wiki']['id']] is there, so the loop ends
    after the last project or at the first backup that fails. *)
Theorem main_finds_the_wiki_of_every_project (config : option Z) (srv : projects_server)
        (fuel : nat) (runs : list (Project * Run)) (e : ending) :
  main pf site lower int input config srv fuel = Some (Some (runs, e)) ->
  e = AllDone \/ exists project r, e = RunFailed project r.
Proof.
  intros E. pose proof (main_summary config srv fuel) as H. rewrite E in H.
  destruct H as [Hno _].
  destruct e as [|p|p r]; [left; reflexivity| |right; exists p, r; reflexivity].
  destruct (Hno p). reflexivity.
Qed.

(** X26: the limit of the configuration holds for each project on its own:
    every backup that main runs writes at most [max 1 limit] pages, however
    many projects are selected. *)
Theorem main_applies_the_limit_to_each_project (lim : Z) (srv : projects_server)
        (fuel : nat) (runs : list (Project * Run)) (e : ending) :
  lim <> -1 ->
  main pf site lower int input (Some lim) srv fuel = Some (Some (runs, e)) ->
  Forall (fun run => pages_written run.2 <= Z.max 1 lim) runs.
Proof.
  intros Hl E. pose proof (main_summary (Some lim) srv fuel) as H. rewrite E in H.
  destruct H as [_ Hq]. apply (Hq lim); [reflexivity|exact Hl].
Qed.
End MainProgram.

Lemma main_finds_the_wiki_of_every_project_witness :
  AllDone = AllDone \/ exists project r, AllDone = RunFailed project r.
Proof.
  assert (E : exists runs,
             main (posix sample_db) sample_site ascii_lower ascii_int sample_input
               (Some 2) (paging_server sample_projects) 5 = Some (Some (runs, AllDone))).
  { eexists. vm_compute. reflexivity. }
  destruct E as [runs E].
  exact (main_finds_the_wiki_of_every_project (posix sample_db) sample_site ascii_lower
           ascii_int sample_input (Some 2) (paging_server sample_projects) 5 runs AllDone E).
Defined.

Lemma main_applies_the_limit_to_each_project_witness :
  Forall (fun run => pages_written run.2 <= Z.max 1 2)
         match main (posix sample_db) sample_site ascii_lower ascii_int sample_input
                 (Some 2) (paging_server sample_projects) 5 with
         | Some (Some (runs, _)) => runs
         | _ => []
         end.
Proof.
  assert (Hl : 2 <> -1) by discriminate.
  destruct (main (posix sample_db) sample_site ascii_lower ascii_int sample_input
              (Some 2) (paging_server sample_projects) 5) as [[[runs e]|]|] eqn:E;
    [|constructor|constructor].
  exact (main_applies_the_limit_to_each_project (posix sample_db) sample_site ascii_lower
           ascii_int sample_input 2 (paging_server sample_projects) 5 runs e Hl E).
Defined.
